(** * The Oracle to PostgreSQL migration engine of mcp-db-migrations

    A shallow embedding of [api.py], [engines/oracle.py] and
    [engines/postgres.py]:

    - Python values that travel in rows ([PyVal]) and insertion-ordered
      dictionaries ([PyDict]);
    - [convert_oracle_to_postgres_schema] and
      [transform_oracle_to_postgres_data], the two pure helpers;
    - [PostgresConnector.insert_data] over a driver with [executemany],
      [commit] and [rollback];
    - [OracleConnector.fetch_data] with the semantics of its ROWNUM query;
    - the progress percentage, computed in binary64 as Python does;
    - [run_oracle_to_postgres_migration] in a state-and-exception monad
      over an abstract pair of connectors, with a log of what it does. *)

From Stdlib Require Import ZArith List String Ascii Bool Lia Arith.
From Stdlib.Strings Require Import Byte.
From Stdlib Require Import DecimalString DecimalZ DecimalPos.
From Stdlib Require Import SpecFloat.
Import ListNotations.

Local Open Scope string_scope.
Local Open Scope Z_scope.

(** ** Strings *)

(** [str.isascii()]: every character of the string is below 128. *)
Definition isascii_char (c : ascii) : bool := (nat_of_ascii c <? 128)%nat.

Fixpoint isascii (s : string) : bool :=
  match s with
  | EmptyString => true
  | String c rest => isascii_char c && isascii rest
  end.

(** [str.lower()] on the ASCII range: the letters A to Z move down by 32,
    every other character is kept.  On a string that is [isascii] this is
    what [str.lower()] returns; outside the ASCII range [str.lower()] also
    changes letters, which [lower] keeps, so statements about [lower] speak
    of the code for ASCII names only. *)
Definition lower_ascii (c : ascii) : ascii :=
  let n := nat_of_ascii c in
  if andb (Nat.leb 65 n) (Nat.leb n 90) then ascii_of_nat (n + 32) else c.

Fixpoint lower (s : string) : string :=
  match s with
  | EmptyString => EmptyString
  | String c rest => String (lower_ascii c) (lower rest)
  end.

(** [str(n)] for a Python integer. *)
Definition str_of_int (z : Z) : string := NilZero.string_of_int (Z.to_int z).

(** ** Dictionary entries that the code probes with [in] or [.get] *)

(** A key of a dictionary is missing, bound to [None], or bound to a value. *)
Inductive Field (A : Type) : Type :=
| Missing : Field A
| Null : Field A
| Val : A -> Field A.
Arguments Missing {A}.
Arguments Null {A}.
Arguments Val {A} _.

(** [key in d] *)
Definition has_key {A} (f : Field A) : bool :=
  match f with Missing => false | _ => true end.

(** [d[key] is not None], for a key that is there *)
Definition is_not_None {A} (f : Field A) : bool :=
  match f with Val _ => true | _ => false end.

(** [d.get(key)] *)
Definition dict_get_field {A} (f : Field A) : option A :=
  match f with Val a => Some a | _ => None end.

(** The text an f-string gives for [d[key]] when the key is there. *)
Definition format_field (f : Field Z) : string :=
  match f with
  | Val z => str_of_int z
  | _ => "None"
  end.

(** ** Schemas *)

(** A column as [OracleConnector.get_schema] describes it.  The keys the
    code reads without a test are plain fields; the keys it tests with [in]
    or reads with [.get] are [Field]s. *)
Record OracleColumn : Type := {
  ora_column_name : string;
  ora_data_type : string;
  ora_nullable : string;
  data_precision : Field Z;
  data_scale : Field Z;
  data_length : Field Z;
  default_value : Field string
}.

Record OracleSchema : Type := {
  ora_table_name : string;
  ora_columns : list OracleColumn;
  ora_primary_keys : list string;
  ora_procedures : list (string * string);
  ora_original_db_type : string
}.

Record PgColumn : Type := {
  pg_column_name : string;
  pg_data_type : string;
  pg_nullable : bool;
  pg_column_default : option string
}.

Record PgSchema : Type := {
  pg_table_name : string;
  pg_columns : list PgColumn;
  pg_primary_keys : list string;
  pg_original_db_type : string
}.

(** ** convert_oracle_to_postgres_schema *)

(** The dictionary [type_mapping] with its [.get(oracle_type, "VARCHAR")]. *)
Definition type_mapping : list (string * string) :=
  [ ("NUMBER", "NUMERIC"); ("VARCHAR2", "VARCHAR"); ("CHAR", "CHAR");
    ("DATE", "TIMESTAMP"); ("TIMESTAMP", "TIMESTAMP"); ("CLOB", "TEXT");
    ("BLOB", "BYTEA"); ("FLOAT", "DOUBLE PRECISION"); ("RAW", "BYTEA");
    ("LONG RAW", "BYTEA"); ("NVARCHAR2", "VARCHAR"); ("NCHAR", "CHAR") ].

Fixpoint assoc_get (k : string) (l : list (string * string)) : option string :=
  match l with
  | [] => None
  | (k', v) :: rest => if String.eqb k' k then Some v else assoc_get k rest
  end.

Definition type_mapping_get (oracle_type : string) : string :=
  match assoc_get oracle_type type_mapping with
  | Some t => t
  | None => "VARCHAR"
  end.

(** The target type of one column: the body of the [for col in ...] loop up
    to the [append]. *)
Definition convert_type (col : OracleColumn) : string :=
  let oracle_type := ora_data_type col in
  let pg_type := type_mapping_get oracle_type in
  if andb (String.eqb oracle_type "NUMBER")
          (andb (has_key (data_precision col)) (has_key (data_scale col)))
  then
    if andb (is_not_None (data_precision col)) (is_not_None (data_scale col))
    then "NUMERIC(" ++ format_field (data_precision col) ++ ","
                    ++ format_field (data_scale col) ++ ")"
    else if is_not_None (data_precision col)
    then "NUMERIC(" ++ format_field (data_precision col) ++ ")"
    else pg_type
  else if andb (String.eqb oracle_type "VARCHAR2") (has_key (data_length col))
  then "VARCHAR(" ++ format_field (data_length col) ++ ")"
  else pg_type.

Definition convert_column (col : OracleColumn) : PgColumn :=
  {| pg_column_name := lower (ora_column_name col);
     pg_data_type := convert_type col;
     pg_nullable := String.eqb (ora_nullable col) "Y";
     pg_column_default := dict_get_field (default_value col) |}.

Definition convert_oracle_to_postgres_schema (oracle_schema : OracleSchema)
  : PgSchema :=
  {| pg_table_name := lower (ora_table_name oracle_schema);
     pg_columns := map convert_column (ora_columns oracle_schema);
     pg_primary_keys := map lower (ora_primary_keys oracle_schema);
     pg_original_db_type := "POSTGRESQL" |}.

(** A NUMBER column with the given entries for precision and scale. *)
Definition number_column (name : string) (p s : Field Z) : OracleColumn :=
  {| ora_column_name := name; ora_data_type := "NUMBER"; ora_nullable := "Y";
     data_precision := p; data_scale := s; data_length := Missing;
     default_value := Missing |}.

(** ** Python values and dictionaries *)

(** A materialized value other than [None]. *)
Inductive Scalar : Type :=
| SInt (z : Z)
| SText (s : string)
| SBytes (b : list byte).

Inductive Result (A : Type) : Type :=
| Ok (a : A)
| Raise (msg : string).
Arguments Ok {A} a.
Arguments Raise {A} msg.

(** What a row holds: [None], a materialized value, or a large-object handle
    (the only values with a [read] method), given by what [read()] does: it
    returns the content, or it raises, as any round trip to the database
    can. *)
Inductive PyVal : Type :=
| PyNone
| PyScalar (x : Scalar)
| PyLob (read : Result Scalar).

(** A [dict]: keys are unique and keep the order of their first insertion. *)
Definition PyDict (V : Type) : Type := list (string * V).

Fixpoint dict_lookup {V} (k : string) (d : PyDict V) : option V :=
  match d with
  | [] => None
  | (k', v) :: rest => if String.eqb k' k then Some v else dict_lookup k rest
  end.

(** [d[k] = v] *)
Fixpoint dict_set {V} (k : string) (v : V) (d : PyDict V) : PyDict V :=
  match d with
  | [] => [(k, v)]
  | (k', v') :: rest =>
      if String.eqb k' k then (k', v) :: rest else (k', v') :: dict_set k v rest
  end.

(** [k in d] *)
Definition dict_mem {V} (k : string) (d : PyDict V) : bool :=
  match dict_lookup k d with Some _ => true | None => false end.

(** [list(d.keys())] *)
Definition dict_keys {V} (d : PyDict V) : list string := map fst d.

Definition Row : Type := PyDict PyVal.

(** *** [str] and [bytes] on materialized values *)

Definition hex_digit (n : nat) : ascii :=
  ascii_of_nat (if Nat.ltb n 10 then 48 + n else 87 + n).

Definition bytes_contain (n : nat) (b : list byte) : bool :=
  existsb (fun c => Nat.eqb (Byte.to_nat c) n) b.

(** One byte inside the [repr] of a [bytes] object quoted with [quote]. *)
Definition repr_byte (quote : nat) (c : byte) : string :=
  let n := Byte.to_nat c in
  if orb (Nat.eqb n quote) (Nat.eqb n 92)
  then String (ascii_of_nat 92) (String (ascii_of_nat n) EmptyString)
  else if Nat.eqb n 9 then String (ascii_of_nat 92) "t"
  else if Nat.eqb n 10 then String (ascii_of_nat 92) "n"
  else if Nat.eqb n 13 then String (ascii_of_nat 92) "r"
  else if orb (Nat.ltb n 32) (Nat.leb 127 n)
  then String (ascii_of_nat 92)
         (String "x" (String (hex_digit (Nat.div n 16))
                        (String (hex_digit (Nat.modulo n 16)) EmptyString)))
  else String (ascii_of_nat n) EmptyString.

(** [repr(b)] for [bytes]: the quote is the single quote (39) unless the
    bytes hold a single quote and no double quote (34). *)
Definition repr_bytes (b : list byte) : string :=
  let quote := if andb (bytes_contain 39 b) (negb (bytes_contain 34 b))
               then 34%nat else 39%nat in
  String "b" (String (ascii_of_nat quote)
    (String.concat EmptyString (map (repr_byte quote) b)
       ++ String (ascii_of_nat quote) EmptyString)).

(** One character inside the [repr] of a [str] quoted with [quote]. *)
Definition repr_char (quote : nat) (c : ascii) : string :=
  let n := nat_of_ascii c in
  if orb (Nat.eqb n quote) (Nat.eqb n 92)
  then String (ascii_of_nat 92) (String c EmptyString)
  else if Nat.eqb n 9 then String (ascii_of_nat 92) "t"
  else if Nat.eqb n 10 then String (ascii_of_nat 92) "n"
  else if Nat.eqb n 13 then String (ascii_of_nat 92) "r"
  else if orb (Nat.ltb n 32) (Nat.eqb n 127)
  then String (ascii_of_nat 92)
         (String "x" (String (hex_digit (Nat.div n 16))
                        (String (hex_digit (Nat.modulo n 16)) EmptyString)))
  else String c EmptyString.

Definition string_contains (n : nat) (s : string) : bool :=
  existsb (fun c => Nat.eqb (nat_of_ascii c) n) (list_ascii_of_string s).

(** [repr(s)] for a [str] of ASCII characters: the quote is the single
    quote (39) unless the string holds a single quote and no double quote
    (34). *)
Definition repr_str (s : string) : string :=
  let quote := if andb (string_contains 39 s) (negb (string_contains 34 s))
               then 34%nat else 39%nat in
  String (ascii_of_nat quote)
    (String.concat EmptyString (map (repr_char quote) (list_ascii_of_string s))
       ++ String (ascii_of_nat quote) EmptyString).

(** [str(KeyError(key))], which is [repr(key)]. *)
Definition key_error (key : string) : string := repr_str key.

(** [str(x)] *)
Definition py_str (x : Scalar) : string :=
  match x with
  | SInt z => str_of_int z
  | SText s => s
  | SBytes b => repr_bytes b
  end.

(** [bytes(x)] *)
Definition py_bytes (x : Scalar) : Result (list byte) :=
  match x with
  | SInt z => if z <? 0 then Raise "negative count"
              else Ok (repeat x00 (Z.to_nat z))
  | SText _ => Raise "string argument without an encoding"
  | SBytes b => Ok b
  end.

(** ** transform_oracle_to_postgres_data *)

(** [next((c["column_name"] for c in columns
           if c["column_name"].lower() == col_name), None)] *)
Definition find_oracle_col_name (oracle_schema : OracleSchema)
    (col_name : string) : option string :=
  option_map ora_column_name
    (find (fun c => String.eqb (lower (ora_column_name c)) col_name)
          (ora_columns oracle_schema)).

(** [next(c["data_type"] for c in columns
          if c["column_name"] == oracle_col_name)] *)
Definition find_oracle_type (oracle_schema : OracleSchema)
    (oracle_col_name : string) : Result string :=
  match find (fun c => String.eqb (ora_column_name c) oracle_col_name)
             (ora_columns oracle_schema) with
  | Some c => Ok (ora_data_type c)
  | None => Raise "StopIteration"
  end.

(** The conversion of a value that is not [None], by the source type of its
    column. *)
Definition convert_value (oracle_type : string) (value : PyVal)
  : Result PyVal :=
  if String.eqb oracle_type "CLOB" then
    match value with
    | PyLob (Ok content) => Ok (PyScalar (SText (py_str content)))
    | PyLob (Raise msg) => Raise msg
    | PyScalar x => Ok (PyScalar (SText (py_str x)))
    | PyNone => Ok PyNone
    end
  else if String.eqb oracle_type "BLOB" then
    match value with
    | PyLob (Ok content) =>
        match py_bytes content with
        | Ok b => Ok (PyScalar (SBytes b))
        | Raise msg => Raise msg
        end
    | PyLob (Raise msg) => Raise msg
    | PyScalar x =>
        match py_bytes x with
        | Ok b => Ok (PyScalar (SBytes b))
        | Raise msg => Raise msg
        end
    | PyNone => Ok PyNone
    end
  else Ok value.

(** What one target column receives from a source row: [None] when the
    test [if oracle_col_name and oracle_col_name in row] fails, else the
    value that is assigned to [pg_row[col_name]]. *)
Definition matched_value (oracle_schema : OracleSchema) (row : Row)
    (col_name : string) : Result (option PyVal) :=
  match find_oracle_col_name oracle_schema col_name with
  | None => Ok None
  | Some oracle_col_name =>
      if String.eqb oracle_col_name EmptyString then Ok None
      else
        match dict_lookup oracle_col_name row with
        | None => Ok None
        | Some PyNone => Ok (Some PyNone)
        | Some value =>
            match find_oracle_type oracle_schema oracle_col_name with
            | Raise msg => Raise msg
            | Ok oracle_type =>
                match convert_value oracle_type value with
                | Raise msg => Raise msg
                | Ok value' => Ok (Some value')
                end
            end
        end
  end.

(** The body of [for pg_col in pg_schema["columns"]]: the row built so far
    and the row after this column. *)
Definition transform_cell (oracle_schema : OracleSchema) (row : Row)
    (pg_row : Row) (pg_col : PgColumn) : Result Row :=
  let col_name := pg_column_name pg_col in
  match matched_value oracle_schema row col_name with
  | Raise msg => Raise msg
  | Ok None => Ok pg_row
  | Ok (Some value) => Ok (dict_set col_name value pg_row)
  end.

Fixpoint transform_cells (oracle_schema : OracleSchema) (row : Row)
    (pg_row : Row) (cols : list PgColumn) : Result Row :=
  match cols with
  | [] => Ok pg_row
  | pg_col :: rest =>
      match transform_cell oracle_schema row pg_row pg_col with
      | Raise msg => Raise msg
      | Ok pg_row' => transform_cells oracle_schema row pg_row' rest
      end
  end.

Definition transform_row (oracle_schema : OracleSchema) (pg_schema : PgSchema)
    (row : Row) : Result Row :=
  transform_cells oracle_schema row [] (pg_columns pg_schema).

Fixpoint transform_oracle_to_postgres_data (oracle_data : list Row)
    (oracle_schema : OracleSchema) (pg_schema : PgSchema)
  : Result (list Row) :=
  match oracle_data with
  | [] => Ok []
  | row :: rest =>
      match transform_row oracle_schema pg_schema row with
      | Raise msg => Raise msg
      | Ok pg_row =>
          match transform_oracle_to_postgres_data rest oracle_schema
                  pg_schema with
          | Raise msg => Raise msg
          | Ok result => Ok (pg_row :: result)
          end
      end
  end.

(** ** PostgresConnector.insert_data *)

(** The three calls [insert_data] makes on its psycopg2 connection; each may
    raise, and each may change the database [D]. *)
Record PgDriver (D : Type) : Type := {
  executemany : string -> list (list PyVal) -> D -> Result unit * D;
  commit : D -> Result unit * D;
  rollback : D -> Result unit * D
}.
Arguments executemany {D} _ _ _ _.
Arguments commit {D} _ _.
Arguments rollback {D} _ _.

Inductive DriverCall : Type :=
| CallExecutemany (stmt : string) (values : list (list PyVal))
| CallCommit
| CallRollback.

(** [[row[col] for col in columns]]; a missing key is a KeyError. *)
Fixpoint row_values (columns : list string) (row : Row)
  : Result (list PyVal) :=
  match columns with
  | [] => Ok []
  | col :: rest =>
      match dict_lookup col row with
      | None => Raise (key_error col)
      | Some v =>
          match row_values rest row with
          | Raise msg => Raise msg
          | Ok vs => Ok (v :: vs)
          end
      end
  end.

Fixpoint all_row_values (columns : list string) (data : list Row)
  : Result (list (list PyVal)) :=
  match data with
  | [] => Ok []
  | row :: rest =>
      match row_values columns row with
      | Raise msg => Raise msg
      | Ok vs =>
          match all_row_values columns rest with
          | Raise msg => Raise msg
          | Ok vss => Ok (vs :: vss)
          end
      end
  end.

(** The [except] branch: roll back, then raise again. *)
Definition insert_failed {D} (drv : PgDriver D) (msg : string) (d : D)
    (calls : list DriverCall) : Result Z * D * list DriverCall :=
  match rollback drv d with
  | (Ok _, d') => (Raise msg, d', (calls ++ [CallRollback])%list)
  | (Raise msg', d') => (Raise msg', d', (calls ++ [CallRollback])%list)
  end.

(** The value returned or the exception raised, the database afterwards and
    the calls made on the connection, in order. *)
Definition insert_data {D} (drv : PgDriver D) (table_name : string)
    (data : list Row) (d : D) : Result Z * D * list DriverCall :=
  match data with
  | [] => (Ok 0, d, [])
  | first :: _ =>
      let columns := dict_keys first in
      let placeholders := String.concat ", " (repeat "%s" (List.length columns)) in
      let column_str := String.concat ", " columns in
      let insert_stmt :=
        "INSERT INTO " ++ table_name ++ " (" ++ column_str ++ ") VALUES ("
          ++ placeholders ++ ")" in
      match all_row_values columns data with
      | Raise msg => insert_failed drv msg d []
      | Ok values =>
          match executemany drv insert_stmt values d with
          | (Raise msg, d1) =>
              insert_failed drv msg d1 [CallExecutemany insert_stmt values]
          | (Ok _, d1) =>
              match commit drv d1 with
              | (Raise msg, d2) =>
                  insert_failed drv msg d2
                    [CallExecutemany insert_stmt values; CallCommit]
              | (Ok _, d2) =>
                  (Ok (Z.of_nat (List.length data)), d2,
                   [CallExecutemany insert_stmt values; CallCommit])
              end
          end
      end
  end.

(** ** OracleConnector.fetch_data *)

(** A table at rest: its column names and its rows in the order that
    [ORDER BY 1] gives them.  With a stable, unique ordering key and no
    writes in between, every query sees this same list. *)
Record OracleTable : Type := {
  tbl_column_names : list string;
  tbl_rows : list (list PyVal)
}.

(** Rows paired with their ROWNUM, counted from [n]. *)
Fixpoint number_rows {A} (n : Z) (rows : list A) : list (A * Z) :=
  match rows with
  | [] => []
  | r :: rest => (r, n) :: number_rows (n + 1) rest
  end.

(** The pagination query: the inner SELECT keeps the rows with
    [ROWNUM <= :end_row] and names that number [rnum]; the outer SELECT keeps
    those with [rnum > :start_row]. *)
Definition rownum_page {A} (ordered : list A) (end_row start_row : Z)
  : list A :=
  map fst
    (filter (fun p => start_row <? snd p)
       (filter (fun p => snd p <=? end_row) (number_rows 1 ordered))).

(** [row_data[col_name] = row[i]] for each column, in order. *)
Definition row_dict (column_names : list string) (row : list PyVal) : Row :=
  fold_left (fun d p => dict_set (fst p) (snd p) d)
            (combine column_names row) [].

Definition fetch_data (tbl : OracleTable) (batch_size offset : Z)
  : list Row :=
  map (row_dict (tbl_column_names tbl))
      (rownum_page (tbl_rows tbl) (offset + batch_size) offset).

(** [SELECT COUNT( * )] as [get_oracle_table_row_count] reads it. *)
Definition table_row_count (tbl : OracleTable) : Z :=
  Z.of_nat (List.length (tbl_rows tbl)).

(** ** The progress percentage *)

(** Python floats are IEEE 754 binary64 numbers. *)
Definition prec64 : Z := 53.
Definition emax64 : Z := 1024.

Definition float_of_int (z : Z) : spec_float :=
  binary_normalize prec64 emax64 z 0 false.

(** [a / b] on integers: the quotient of the two integers, rounded once.
    Where the quotient is too large for a float Python raises
    OverflowError; the model gives the infinity there, and
    [percentage_raises] below says when. *)
Definition py_truediv (a b : Z) : spec_float :=
  let unrounded z :=
    match z with
    | Z0 => S754_zero false
    | Zpos p => S754_finite false p 0
    | Zneg p => S754_finite true p 0
    end in
  SFdiv prec64 emax64 (unrounded a) (unrounded b).

Definition py_float_mul (x y : spec_float) : spec_float :=
  SFmul prec64 emax64 x y.

(** [int(x)] truncates towards zero.  It raises on an infinity or a NaN;
    the model gives 0 there, and [percentage_raises] below says when the
    percentage expression meets one. *)
Definition py_int_of_float (x : spec_float) : Z :=
  match x with
  | S754_finite s m e =>
      let a := if 0 <=? e then Zpos m * 2 ^ e else Zpos m / 2 ^ (- e) in
      if s then - a else a
  | _ => 0
  end.

(** [min(100, int((rows_migrated / row_count) * 100)) if row_count > 0
    else 100] *)
Definition percentage (rows_migrated row_count : Z) : Z :=
  if 0 <? row_count
  then Z.min 100
         (py_int_of_float
            (py_float_mul (py_truediv rows_migrated row_count)
                          (float_of_int 100)))
  else 100.

Definition py_float_is_finite (x : spec_float) : bool :=
  match x with
  | S754_zero _ | S754_finite _ _ _ => true
  | S754_infinity _ | S754_nan => false
  end.

(** Where the percentage expression raises instead of giving a number: the
    row count is positive and the quotient, or its hundredfold, is too large
    for a float, so that the division or [int()] raises OverflowError.  On
    such counts [percentage] is not the code's value. *)
Definition percentage_raises (rows_migrated row_count : Z) : bool :=
  (0 <? row_count)
  && negb (py_float_is_finite
             (py_float_mul (py_truediv rows_migrated row_count)
                           (float_of_int 100))).

(** What the specification gives for the same quantity. *)
Definition spec_percentage (rows_migrated row_count : Z) : Z :=
  Z.min 100 (rows_migrated * 100 / row_count).

(** ** The job record *)

(** The values written to [details["current_phase"]].  The code calls the
    stored-procedure phase [plsql_conversion]. *)
Inductive Phase : Type :=
| schema_analysis
| type_conversion
| data_migration
| plsql_conversion
| validation
| completed
| failed.

Record Stats : Type := {
  tables_processed : Z;
  rows_migrated : Z;
  schema_conversions : Z;
  type_conversions : Z;
  stored_procedures : Z
}.

Record Progress : Type := {
  progress_table : string;
  rows_processed : Z;
  total_rows : Z;
  progress_percentage : Z
}.

(** The dictionary [migrations[id]["details"]]; a key that is not set is
    [None]. *)
Record Details : Type := {
  current_phase : option Phase;
  current_table : option string;
  details_tables : option (list string);
  details_stats : option Stats;
  details_progress : option Progress;
  details_error : option string;
  details_migration_log : option (list string);
  duration_seconds : option Z
}.

(** One entry of the global [migrations]; [details] is [None] or a
    dictionary. *)
Record Migration : Type := {
  status : string;
  details : option Details
}.

(** The fields of [MigrationRequest] that the run reads besides the
    connection settings. *)
Record MigrationRequest : Type := {
  tables : option (list string);
  exclude_tables : option (list string);
  only_schema : bool;
  batch_size : Z
}.

(** ** Connectors and the state of a run *)

(** Everything outside the run that can answer or raise: the import of the
    engines, the two drivers, and the methods of the two connectors.  Each
    takes the outside world [W] and gives it back. *)
Record Connectors (W : Type) : Type := {
  import_engines : W -> Result unit * W;
  oracle_driver_connect : W -> Result unit * W;
  postgres_driver_connect : W -> Result unit * W;
  oracle_get_tables : W -> Result (list string) * W;
  oracle_get_schema : string -> W -> Result OracleSchema * W;
  postgres_create_table_from_schema : PgSchema -> W -> Result unit * W;
  oracle_row_count : string -> W -> Result Z * W;
  oracle_fetch_data : string -> Z -> Z -> W -> Result (list Row) * W;
  postgres_insert_data : string -> list Row -> W -> Result Z * W;
  oracle_close : W -> Result unit * W;
  postgres_close : W -> Result unit * W
}.
Arguments import_engines {W} _ _.
Arguments oracle_driver_connect {W} _ _.
Arguments postgres_driver_connect {W} _ _.
Arguments oracle_get_tables {W} _ _.
Arguments oracle_get_schema {W} _ _ _.
Arguments postgres_create_table_from_schema {W} _ _ _.
Arguments oracle_row_count {W} _ _ _.
Arguments oracle_fetch_data {W} _ _ _ _ _.
Arguments postgres_insert_data {W} _ _ _ _.
Arguments oracle_close {W} _ _.
Arguments postgres_close {W} _ _.

(** A connector object: whether [self.connection] is set. *)
Record Connector : Type := { connection : bool }.

Inductive Side : Type := OracleSide | PostgresSide.

(** What a run does, in order: a phase written, a progress report
    published, a call of [fetch_data] made and the page it returned, a
    batch handed to [insert_data], an exception raised, and the [close()]
    of a connection called.  The calls are recorded when they are made,
    whether they return or raise. *)
Inductive Event : Type :=
| EvPhase (p : Phase)
| EvProgress (pr : Progress)
| EvFetchCall (table_name : string) (limit offset : Z)
| EvFetch (table_name : string) (limit offset : Z) (page : list Row)
| EvInsert (table_name : string) (data : list Row)
| EvFault (msg : string)
| EvClose (side : Side).

(** The outside world, the global [migrations], the locals [oracle] and
    [postgres] ([None] while the name is not bound), the local
    [migration_log], and the events so far. *)
Record State (W : Type) : Type := {
  world : W;
  migrations : PyDict Migration;
  oracle : option Connector;
  postgres : option Connector;
  migration_log : list string;
  events : list Event
}.
Arguments world {W} _.
Arguments migrations {W} _.
Arguments oracle {W} _.
Arguments postgres {W} _.
Arguments migration_log {W} _.
Arguments events {W} _.
Arguments Build_State {W} _ _ _ _ _ _.

Definition set_world {W} (w : W) (s : State W) : State W :=
  Build_State w (migrations s) (oracle s) (postgres s) (migration_log s)
              (events s).
Definition set_migrations {W} (m : PyDict Migration) (s : State W)
  : State W :=
  Build_State (world s) m (oracle s) (postgres s) (migration_log s) (events s).
Definition set_oracle {W} (c : option Connector) (s : State W) : State W :=
  Build_State (world s) (migrations s) c (postgres s) (migration_log s)
              (events s).
Definition set_postgres {W} (c : option Connector) (s : State W) : State W :=
  Build_State (world s) (migrations s) (oracle s) c (migration_log s)
              (events s).
Definition set_migration_log {W} (l : list string) (s : State W) : State W :=
  Build_State (world s) (migrations s) (oracle s) (postgres s) l (events s).
Definition add_event {W} (e : Event) (s : State W) : State W :=
  Build_State (world s) (migrations s) (oracle s) (postgres s)
              (migration_log s) (events s ++ [e])%list.

(** ** The monad of a run *)

(** A computation takes a state and gives a value or an exception together
    with the state afterwards; [None] is a loop that was cut short. *)
Definition M (W A : Type) : Type := State W -> option (Result A * State W).

Definition ret {W A} (a : A) : M W A := fun s => Some (Ok a, s).

Definition bind {W A B} (m : M W A) (f : A -> M W B) : M W B :=
  fun s =>
    match m s with
    | None => None
    | Some (Raise msg, s') => Some (Raise msg, s')
    | Some (Ok a, s') => f a s'
    end.

Notation "x <- m ;; k" := (bind m (fun x => k))
  (at level 61, m at next level, right associativity).
Notation "m ;; k" := (bind m (fun _ => k))
  (at level 61, right associativity).

(** [raise]: every exception is recorded where it starts. *)
Definition raise {W A} (msg : string) : M W A :=
  fun s => Some (Raise msg, add_event (EvFault msg) s).

Definition emit {W} (e : Event) : M W unit :=
  fun s => Some (Ok tt, add_event e s).

Definition lift_result {W A} (r : Result A) : M W A :=
  match r with
  | Ok a => ret a
  | Raise msg => raise msg
  end.

(** A call into the outside world. *)
Definition call {W A} (op : W -> Result A * W) : M W A :=
  fun s =>
    let '(r, w) := op (world s) in
    lift_result r (set_world w s).

(** [try: body  except Exception as e: handler(str(e))  finally: final] *)
Definition try_except_finally {W} (body : M W unit)
    (handler : string -> M W unit) (final : M W unit) : M W unit :=
  fun s =>
    match body s with
    | None => None
    | Some (Ok _, s1) => final s1
    | Some (Raise msg, s1) =>
        match handler msg s1 with
        | None => None
        | Some (Ok _, s2) => final s2
        | Some (Raise msg', s2) =>
            match final s2 with
            | None => None
            | Some (Ok _, s3) => Some (Raise msg', s3)
            | Some (Raise msg'', s3) => Some (Raise msg'', s3)
            end
        end
    end.

Definition modify {W} (f : State W -> State W) : M W unit :=
  fun s => Some (Ok tt, f s).

Definition get_migration_log {W} : M W (list string) :=
  fun s => Some (Ok (migration_log s), s).

(** [migration_log.append(line)] *)
Definition append_log {W} (line : string) : M W unit :=
  modify (fun s => set_migration_log (migration_log s ++ [line])%list s).

(** ** Writes to the job record *)

Definition none_item_assignment : string :=
  "'NoneType' object does not support item assignment".

(** [migrations[migration_id]["status"] = st] *)
Definition set_status {W} (migration_id st : string) : M W unit :=
  fun s =>
    match dict_lookup migration_id (migrations s) with
    | None => raise (key_error migration_id) s
    | Some m =>
        Some (Ok tt,
              set_migrations
                (dict_set migration_id
                   {| status := st; details := details m |} (migrations s)) s)
    end.

(** [migrations[migration_id]["details"][key] = value], with [f] the change
    of that one key. *)
Definition update_details {W} (migration_id : string)
    (f : Details -> Details) : M W unit :=
  fun s =>
    match dict_lookup migration_id (migrations s) with
    | None => raise (key_error migration_id) s
    | Some m =>
        match details m with
        | None => raise none_item_assignment s
        | Some d =>
            Some (Ok tt,
                  set_migrations
                    (dict_set migration_id
                       {| status := status m; details := Some (f d) |}
                       (migrations s)) s)
        end
    end.

Definition with_current_phase (p : Phase) (d : Details) : Details :=
  {| current_phase := Some p; current_table := current_table d;
     details_tables := details_tables d; details_stats := details_stats d;
     details_progress := details_progress d;
     details_error := details_error d;
     details_migration_log := details_migration_log d;
     duration_seconds := duration_seconds d |}.

Definition with_current_table (t : string) (d : Details) : Details :=
  {| current_phase := current_phase d; current_table := Some t;
     details_tables := details_tables d; details_stats := details_stats d;
     details_progress := details_progress d;
     details_error := details_error d;
     details_migration_log := details_migration_log d;
     duration_seconds := duration_seconds d |}.

Definition with_tables (ts : list string) (d : Details) : Details :=
  {| current_phase := current_phase d; current_table := current_table d;
     details_tables := Some ts; details_stats := details_stats d;
     details_progress := details_progress d;
     details_error := details_error d;
     details_migration_log := details_migration_log d;
     duration_seconds := duration_seconds d |}.

Definition with_stats (st : option Stats) (d : Details) : Details :=
  {| current_phase := current_phase d; current_table := current_table d;
     details_tables := details_tables d; details_stats := st;
     details_progress := details_progress d;
     details_error := details_error d;
     details_migration_log := details_migration_log d;
     duration_seconds := duration_seconds d |}.

Definition with_progress (pr : Progress) (d : Details) : Details :=
  {| current_phase := current_phase d; current_table := current_table d;
     details_tables := details_tables d; details_stats := details_stats d;
     details_progress := Some pr;
     details_error := details_error d;
     details_migration_log := details_migration_log d;
     duration_seconds := duration_seconds d |}.

Definition with_error (msg : string) (d : Details) : Details :=
  {| current_phase := current_phase d; current_table := current_table d;
     details_tables := details_tables d; details_stats := details_stats d;
     details_progress := details_progress d;
     details_error := Some msg;
     details_migration_log := details_migration_log d;
     duration_seconds := duration_seconds d |}.

Definition with_migration_log (l : list string) (d : Details) : Details :=
  {| current_phase := current_phase d; current_table := current_table d;
     details_tables := details_tables d; details_stats := details_stats d;
     details_progress := details_progress d;
     details_error := details_error d;
     details_migration_log := Some l;
     duration_seconds := duration_seconds d |}.

Definition with_duration (n : Z) (d : Details) : Details :=
  {| current_phase := current_phase d; current_table := current_table d;
     details_tables := details_tables d; details_stats := details_stats d;
     details_progress := details_progress d;
     details_error := details_error d;
     details_migration_log := details_migration_log d;
     duration_seconds := Some n |}.

(** [details["current_phase"] = p] *)
Definition set_phase {W} (migration_id : string) (p : Phase) : M W unit :=
  update_details migration_id (with_current_phase p) ;;
  emit (EvPhase p).

(** [details["progress"] = {...}] *)
Definition publish_progress {W} (migration_id : string) (pr : Progress)
  : M W unit :=
  update_details migration_id (with_progress pr) ;;
  emit (EvProgress pr).

Definition zero_stats : Stats :=
  {| tables_processed := 0; rows_migrated := 0; schema_conversions := 0;
     type_conversions := 0; stored_procedures := 0 |}.

(** [stats[key] += n].  From [details["stats"] = stats] on, the local
    [stats] and the entry of the record are one object: the change shows in
    the record at once, and the statement itself cannot raise. *)
Definition update_stats {W} (migration_id : string) (f : Stats -> Stats)
  : M W unit :=
  modify (fun s =>
    match dict_lookup migration_id (migrations s) with
    | Some m =>
        match details m with
        | Some d =>
            set_migrations
              (dict_set migration_id
                 {| status := status m;
                    details :=
                      Some (with_stats (option_map f (details_stats d)) d) |}
                 (migrations s)) s
        | None => s
        end
    | None => s
    end).

Definition add_tables_processed (n : Z) (st : Stats) : Stats :=
  {| tables_processed := tables_processed st + n;
     rows_migrated := rows_migrated st;
     schema_conversions := schema_conversions st;
     type_conversions := type_conversions st;
     stored_procedures := stored_procedures st |}.

Definition add_schema_conversions (n : Z) (st : Stats) : Stats :=
  {| tables_processed := tables_processed st;
     rows_migrated := rows_migrated st;
     schema_conversions := schema_conversions st + n;
     type_conversions := type_conversions st;
     stored_procedures := stored_procedures st |}.

Definition add_rows_migrated (n : Z) (st : Stats) : Stats :=
  {| tables_processed := tables_processed st;
     rows_migrated := rows_migrated st + n;
     schema_conversions := schema_conversions st;
     type_conversions := type_conversions st;
     stored_procedures := stored_procedures st |}.

(** [details["stats"] = stats]: the entry already is that object, so only
    the lookups on the way can matter. *)
Definition store_stats {W} (migration_id : string) : M W unit :=
  update_details migration_id (fun d => d).

Definition calculate_duration (migration_id : string) : Z := 120.

(** ** run_oracle_to_postgres_migration *)

Section Run.
Context {W : Type} (C : Connectors W).
Variable migration_id : string.
Variable request : MigrationRequest.

(** [OracleConnector.connect] after [oracle = OracleConnector(...)]: the
    connector keeps the connection only when the driver gave one. *)
Definition oracle_connect : M W unit :=
  call (oracle_driver_connect C) ;;
  modify (set_oracle (Some {| connection := true |})).

Definition postgres_connect : M W unit :=
  call (postgres_driver_connect C) ;;
  modify (set_postgres (Some {| connection := true |})).

(** [oracle.fetch_data(table_name, batch_size, offset)] *)
Definition fetch (table_name : string) (limit offset : Z)
  : M W (list Row) :=
  emit (EvFetchCall table_name limit offset) ;;
  page <- call (oracle_fetch_data C table_name limit offset) ;;
  emit (EvFetch table_name limit offset page) ;;
  ret page.

(** [postgres.insert_data(table_name, postgres_data)] *)
Definition insert (table_name : string) (data : list Row) : M W Z :=
  emit (EvInsert table_name data) ;;
  call (postgres_insert_data C table_name data).

(** The rest of a turn of the [while] loop once a page with rows has been
    fetched: the next [offset] and [rows_migrated]. *)
Definition load_batch (table_name : string)
    (oracle_schema : OracleSchema) (pg_schema : PgSchema)
    (row_count offset migrated : Z) (oracle_data : list Row)
  : M W (Z * Z) :=
  postgres_data <-
    lift_result (transform_oracle_to_postgres_data oracle_data
                   oracle_schema pg_schema) ;;
  insert table_name postgres_data ;;
  let migrated' := migrated + Z.of_nat (List.length oracle_data) in
  update_stats migration_id
    (add_rows_migrated (Z.of_nat (List.length oracle_data))) ;;
  store_stats migration_id ;;
  publish_progress migration_id
    {| progress_table := table_name;
       rows_processed := migrated';
       total_rows := row_count;
       progress_percentage := percentage migrated' row_count |} ;;
  append_log ("Migrated " ++ str_of_int migrated' ++ "/"
                ++ str_of_int row_count ++ " rows from " ++ table_name) ;;
  ret (offset + batch_size request, migrated').

(** One turn of the [while] loop, entered with [offset < row_count]:
    [None] for the [break], else the next [offset] and [rows_migrated]. *)
Definition migrate_batch (table_name : string)
    (oracle_schema : OracleSchema) (pg_schema : PgSchema)
    (row_count offset migrated : Z) : M W (option (Z * Z)) :=
  oracle_data <- fetch table_name (batch_size request) offset ;;
  match oracle_data with
  | [] => ret None
  | _ :: _ =>
      next <- load_batch table_name oracle_schema pg_schema row_count
                offset migrated oracle_data ;;
      ret (Some next)
  end.

(** [while offset < row_count: ...]; the last [offset] and
    [rows_migrated] are returned. *)
Fixpoint migrate_batches (fuel : nat) (table_name : string)
    (oracle_schema : OracleSchema) (pg_schema : PgSchema)
    (row_count offset migrated : Z) : M W (Z * Z) :=
  if offset <? row_count then
    match fuel with
    | O => fun _ => None
    | S fuel' =>
        next <- migrate_batch table_name oracle_schema pg_schema
                  row_count offset migrated ;;
        match next with
        | None => ret (offset, migrated)
        | Some (offset', migrated') =>
            migrate_batches fuel' table_name oracle_schema pg_schema
              row_count offset' migrated'
        end
    end
  else ret (offset, migrated).

(** Phase 2 for one table: the block under [if not request.only_schema]. *)
Definition migrate_table_data (fuel : nat) (table_name : string)
    (oracle_schema : OracleSchema) (pg_schema : PgSchema) : M W (Z * Z) :=
  set_phase migration_id data_migration ;;
  row_count <- call (oracle_row_count C table_name) ;;
  migrate_batches fuel table_name oracle_schema pg_schema row_count 0 0.

(** The body of [for table_name in tables]. *)
Definition migrate_table (fuel : nat) (table_name : string) : M W unit :=
  append_log ("Analyzing schema for table " ++ table_name) ;;
  oracle_schema <- call (oracle_get_schema C table_name) ;;
  set_phase migration_id type_conversion ;;
  update_details migration_id (with_current_table table_name) ;;
  let pg_schema := convert_oracle_to_postgres_schema oracle_schema in
  call (postgres_create_table_from_schema C pg_schema) ;;
  update_stats migration_id (add_tables_processed 1) ;;
  update_stats migration_id (add_schema_conversions 1) ;;
  store_stats migration_id ;;
  if only_schema request then ret tt
  else
    migrate_table_data fuel table_name oracle_schema pg_schema ;;
    ret tt.

Fixpoint migrate_tables (fuel : nat) (names : list string) : M W unit :=
  match names with
  | [] => ret tt
  | table_name :: rest =>
      migrate_table fuel table_name ;;
      migrate_tables fuel rest
  end.

(** [request.tables or oracle.get_tables()], less the excluded names. *)
Definition select_tables : M W (list string) :=
  all <- match tables request with
         | Some (t :: ts) => ret (t :: ts)
         | _ => call (oracle_get_tables C)
         end ;;
  match exclude_tables request with
  | Some (e :: es) =>
      ret (filter (fun t => negb (existsb (String.eqb t) (e :: es))) all)
  | _ => ret all
  end.

(** The [try] block. *)
Definition migration_body (fuel : nat) : M W unit :=
  call (import_engines C) ;;
  modify (set_oracle (Some {| connection := false |})) ;;
  oracle_connect ;;
  modify (set_postgres (Some {| connection := false |})) ;;
  postgres_connect ;;
  names <- select_tables ;;
  modify (set_migration_log []) ;;
  update_details migration_id (with_tables names) ;;
  update_details migration_id (with_stats (Some zero_stats)) ;;
  migrate_tables fuel names ;;
  set_phase migration_id plsql_conversion ;;
  set_phase migration_id validation ;;
  set_status migration_id "completed" ;;
  set_phase migration_id completed ;;
  lines <- get_migration_log ;;
  update_details migration_id (with_migration_log lines) ;;
  update_details migration_id
    (with_duration (calculate_duration migration_id)).

(** The [try] block from the selection of the tables on, that is, once
    both connectors are connected. *)
Definition migration_work (fuel : nat) : M W unit :=
  names <- select_tables ;;
  modify (set_migration_log []) ;;
  update_details migration_id (with_tables names) ;;
  update_details migration_id (with_stats (Some zero_stats)) ;;
  migrate_tables fuel names ;;
  set_phase migration_id plsql_conversion ;;
  set_phase migration_id validation ;;
  set_status migration_id "completed" ;;
  set_phase migration_id completed ;;
  lines <- get_migration_log ;;
  update_details migration_id (with_migration_log lines) ;;
  update_details migration_id
    (with_duration (calculate_duration migration_id)).

(** The [except Exception as e] block. *)
Definition on_exception (msg : string) : M W unit :=
  set_status migration_id "failed" ;;
  update_details migration_id (with_error msg) ;;
  set_phase migration_id failed.

(** [self.connection.close()] of the one or the other connector. *)
Definition close_connection (side : Side) : W -> Result unit * W :=
  match side with
  | OracleSide => oracle_close C
  | PostgresSide => postgres_close C
  end.

(** [disconnect]: if there is a connection, [close()] it and then forget
    it; when [close()] raises, the connection stays set. *)
Definition disconnect (side : Side) (c : Connector) : M W Connector :=
  if connection c
  then
    emit (EvClose side) ;;
    call (close_connection side) ;;
    ret {| connection := false |}
  else ret c.

(** The [finally] block: each connector is disconnected if its local
    name is bound; an exception of the first [disconnect] leaves the block
    at once. *)
Definition cleanup : M W unit :=
  (fun s =>
     match oracle s with
     | Some c => c' <- disconnect OracleSide c ;;
                 modify (set_oracle (Some c'))
     | None => ret tt
     end s) ;;
  (fun s =>
     match postgres s with
     | Some c => c' <- disconnect PostgresSide c ;;
                 modify (set_postgres (Some c'))
     | None => ret tt
     end s).

Definition run_oracle_to_postgres_migration (fuel : nat) : M W unit :=
  set_status migration_id "running" ;;
  set_phase migration_id schema_analysis ;;
  try_except_finally (migration_body fuel) on_exception cleanup.

End Run.

(** A state at the call of the run: no local is bound, nothing has
    happened. *)
Definition initial_state {W} (w : W) (store : PyDict Migration) : State W :=
  Build_State w store None None [] [].

(** ** Reading the events of a run *)

Definition phase_of_event (e : Event) : list Phase :=
  match e with EvPhase p => [p] | _ => [] end.
Definition progress_of_event (e : Event) : list Progress :=
  match e with EvProgress pr => [pr] | _ => [] end.
Definition page_of_event (e : Event) : list (list Row) :=
  match e with EvFetch _ _ _ page => [page] | _ => [] end.
Definition fetch_offset_of_event (e : Event) : list Z :=
  match e with EvFetch _ _ o _ => [o] | _ => [] end.
Definition insert_of_event (e : Event) : list (list Row) :=
  match e with EvInsert _ data => [data] | _ => [] end.
Definition fault_of_event (e : Event) : list string :=
  match e with EvFault msg => [msg] | _ => [] end.
Definition close_of_event (e : Event) : list Side :=
  match e with EvClose side => [side] | _ => [] end.
(** The calls of [fetch_data] made, returned or not: table, limit and
    offset of each. *)
Definition fetch_call_of_event (e : Event) : list (string * Z * Z) :=
  match e with EvFetchCall t l o => [(t, l, o)] | _ => [] end.

(** The phases written, the progress reports published, the pages fetched
    and the offsets they were fetched at, the batches handed to the target,
    the exceptions raised and the connections closed, each in order. *)
Definition phases_of (evs : list Event) : list Phase :=
  flat_map phase_of_event evs.
Definition progress_of (evs : list Event) : list Progress :=
  flat_map progress_of_event evs.
Definition pages_of (evs : list Event) : list (list Row) :=
  flat_map page_of_event evs.
Definition fetch_offsets_of (evs : list Event) : list Z :=
  flat_map fetch_offset_of_event evs.
Definition inserts_of (evs : list Event) : list (list Row) :=
  flat_map insert_of_event evs.
Definition faults_of (evs : list Event) : list string :=
  flat_map fault_of_event evs.
Definition closes_of (evs : list Event) : list Side :=
  flat_map close_of_event evs.
Definition fetch_calls_of (evs : list Event) : list (string * Z * Z) :=
  flat_map fetch_call_of_event evs.

(** ** A source table at rest and a target that accepts every statement *)

Definition accepting_driver : PgDriver unit :=
  {| executemany := fun _ _ d => (Ok tt, d);
     commit := fun d => (Ok tt, d);
     rollback := fun d => (Ok tt, d) |}.

(** Connectors over one table that nobody writes to: [get_schema] gives
    [schema], the row count is the number of rows, [fetch_data] is the
    ROWNUM query, and [insert_data] runs against [accepting_driver]. *)
Definition quiet_connectors (tbl : OracleTable) (schema : OracleSchema)
  : Connectors unit :=
  {| import_engines := fun w => (Ok tt, w);
     oracle_driver_connect := fun w => (Ok tt, w);
     postgres_driver_connect := fun w => (Ok tt, w);
     oracle_get_tables := fun w => (Ok [ora_table_name schema], w);
     oracle_get_schema := fun _ w => (Ok schema, w);
     postgres_create_table_from_schema := fun _ w => (Ok tt, w);
     oracle_row_count := fun _ w => (Ok (table_row_count tbl), w);
     oracle_fetch_data := fun _ limit offset w =>
                            (Ok (fetch_data tbl limit offset), w);
     postgres_insert_data := fun table_name data w =>
                               let '(r, d, _) :=
                                 insert_data accepting_driver table_name
                                             data w in
                               (r, d);
     oracle_close := fun w => (Ok tt, w);
     postgres_close := fun w => (Ok tt, w) |}.

(** * Properties *)

(** ** Schema translation *)

Example convert_type_10_2 :
  convert_type (number_column "AMOUNT" (Val 10) (Val 2)) = "NUMERIC(10,2)".
Proof. reflexivity. Qed.

Example convert_type_get_schema_column :
  convert_type (number_column "AMOUNT" Missing Missing) = "NUMERIC".
Proof. reflexivity. Qed.

Lemma convert_schema_columns (oracle_schema : OracleSchema) (i : nat) :
  nth_error (pg_columns (convert_oracle_to_postgres_schema oracle_schema)) i
  = option_map convert_column (nth_error (ora_columns oracle_schema) i).
Proof.
  unfold convert_oracle_to_postgres_schema; simpl.
  apply nth_error_map.
Qed.

Lemma convert_type_number (col : OracleColumn) :
  ora_data_type col = "NUMBER" ->
  convert_type col =
    match data_precision col, data_scale col with
    | Val p, Val s => "NUMERIC(" ++ str_of_int p ++ "," ++ str_of_int s ++ ")"
    | Val p, Null => "NUMERIC(" ++ str_of_int p ++ ")"
    | _, _ => "NUMERIC"
    end.
Proof.
  intros Hty. unfold convert_type. rewrite Hty. simpl.
  destruct (data_precision col), (data_scale col); reflexivity.
Qed.

(** A schema with the single column [col] and no primary key. *)
Definition one_column_schema (col : OracleColumn) : OracleSchema :=
  {| ora_table_name := "ACCOUNTS"; ora_columns := [col];
     ora_primary_keys := []; ora_procedures := [];
     ora_original_db_type := "ORACLE" |}.

(** C6, as stated, fails: a NUMBER column that carries a precision of 10 and
    no [data_scale] key at all is translated to plain NUMERIC, not to
    NUMERIC(10). *)
Lemma number_precision_without_scale_key :
  dict_get_field (data_precision (number_column "AMOUNT" (Val 10) Missing))
    = Some 10 /\
  dict_get_field (data_scale (number_column "AMOUNT" (Val 10) Missing))
    = None /\
  map pg_data_type
      (pg_columns
         (convert_oracle_to_postgres_schema
            (one_column_schema (number_column "AMOUNT" (Val 10) Missing))))
    = ["NUMERIC"] /\
  "NUMERIC" <> "NUMERIC(10)".
Proof. repeat split; try reflexivity. discriminate. Qed.

(** C6, amended: for every source schema and every NUMBER column of it, the
    translated column at the same position has type NUMERIC(p,s) when the
    column carries both keys with values p and s, NUMERIC(p) when it carries
    precision p and a null scale, and plain NUMERIC in every other case, in
    particular whenever one of the two keys is missing. *)
Theorem number_column_translation (oracle_schema : OracleSchema) (i : nat)
    (col : OracleColumn) :
  nth_error (ora_columns oracle_schema) i = Some col ->
  ora_data_type col = "NUMBER" ->
  exists pg_col,
    nth_error (pg_columns (convert_oracle_to_postgres_schema oracle_schema)) i
      = Some pg_col /\
    pg_data_type pg_col =
      match data_precision col, data_scale col with
      | Val p, Val s =>
          "NUMERIC(" ++ str_of_int p ++ "," ++ str_of_int s ++ ")"
      | Val p, Null => "NUMERIC(" ++ str_of_int p ++ ")"
      | _, _ => "NUMERIC"
      end.
Proof.
  intros Hnth Hty. exists (convert_column col). split.
  - rewrite convert_schema_columns, Hnth. reflexivity.
  - simpl. apply convert_type_number, Hty.
Qed.

Lemma number_column_translation_witness :
  exists pg_col,
    nth_error
      (pg_columns
         (convert_oracle_to_postgres_schema
            (one_column_schema (number_column "AMOUNT" (Val 10) Null)))) 0
      = Some pg_col /\
    pg_data_type pg_col = "NUMERIC(10)".
Proof.
  apply (number_column_translation
           (one_column_schema (number_column "AMOUNT" (Val 10) Null)) 0
           (number_column "AMOUNT" (Val 10) Null)); reflexivity.
Defined.

(** A schema whose primary key names no column. *)
Definition dangling_key_schema : OracleSchema :=
  {| ora_table_name := "ORDERS";
     ora_columns := [number_column "TOTAL" Missing Missing];
     ora_primary_keys := ["ID"]; ora_procedures := [];
     ora_original_db_type := "ORACLE" |}.

(** C7, as stated, fails: for a primary key that names no column the
    translation still returns a schema, with the lower-cased key in it. *)
Lemma dangling_primary_key_is_translated :
  pg_primary_keys (convert_oracle_to_postgres_schema dangling_key_schema)
    = ["id"] /\
  map pg_column_name
      (pg_columns (convert_oracle_to_postgres_schema dangling_key_schema))
    = ["total"] /\
  ~ In "id"
      (map pg_column_name
           (pg_columns
              (convert_oracle_to_postgres_schema dangling_key_schema))).
Proof.
  repeat split; try reflexivity.
  simpl. intros [H | []]. discriminate H.
Qed.

(** C7, amended: for every source schema the translation returns a schema
    whose primary-key names and column names are the source names
    lower-cased by the same function; no membership check is made, and the
    primary keys are among the translated columns whenever they were among
    the source columns. *)
Theorem primary_keys_lowered_like_columns (oracle_schema : OracleSchema) :
  let pg_schema := convert_oracle_to_postgres_schema oracle_schema in
  pg_primary_keys pg_schema = map lower (ora_primary_keys oracle_schema) /\
  map pg_column_name (pg_columns pg_schema)
    = map lower (map ora_column_name (ora_columns oracle_schema)) /\
  (incl (ora_primary_keys oracle_schema)
        (map ora_column_name (ora_columns oracle_schema)) ->
   incl (pg_primary_keys pg_schema)
        (map pg_column_name (pg_columns pg_schema))).
Proof.
  simpl. split; [reflexivity | split].
  - rewrite !map_map. reflexivity.
  - intros Hincl pk Hpk.
    apply in_map_iff in Hpk. destruct Hpk as [k [Hk Hin]]. subst pk.
    apply Hincl in Hin. apply in_map_iff in Hin.
    destruct Hin as [c [Hc Hin]]. subst k.
    rewrite map_map. apply in_map_iff. exists c. split; [reflexivity | exact Hin].
Qed.

(** ** PostgresConnector.insert_data *)

Lemma insert_failed_raises {D} (drv : PgDriver D) msg d calls n d' calls' :
  insert_failed drv msg d calls = (Ok n, d', calls') -> False.
Proof.
  unfold insert_failed. destruct (rollback drv d) as [[u | m] d0]; discriminate.
Qed.

(** C10: an empty batch returns 0 with no call made on the connection (no
    statement, no commit, no rollback) and the database untouched; a batch
    whose insert returns at all returns the number of its rows. *)
Theorem insert_data_returns_row_count {D} (drv : PgDriver D)
    (table_name : string) (data : list Row) (d : D) :
  insert_data drv table_name [] d = (Ok 0, d, []) /\
  forall n d' calls,
    insert_data drv table_name data d = (Ok n, d', calls) ->
    n = Z.of_nat (List.length data).
Proof.
  split; [reflexivity |].
  intros n d' calls. unfold insert_data.
  destruct data as [| first rest].
  - intros H. inversion H. reflexivity.
  - destruct (all_row_values (dict_keys first) (first :: rest)) as [values | msg].
    + destruct (executemany drv _ values d) as [[u | msg] d1].
      * destruct (commit drv d1) as [[u' | msg] d2].
        -- intros H. inversion H. reflexivity.
        -- intros H. exfalso. eapply insert_failed_raises, H.
      * intros H. exfalso. eapply insert_failed_raises, H.
    + intros H. exfalso. eapply insert_failed_raises, H.
Qed.

(** A batch of two rows goes through the accepting driver as one statement
    and one commit, and 2 is returned. *)
Lemma insert_data_returns_row_count_witness :
  insert_data accepting_driver "accounts"
    [[("id", PyScalar (SInt 1))]; [("id", PyScalar (SInt 2))]] tt
  = (Ok 2, tt,
     [CallExecutemany "INSERT INTO accounts (id) VALUES (%s)"
        [[PyScalar (SInt 1)]; [PyScalar (SInt 2)]];
      CallCommit]) /\
  2 = Z.of_nat
        (List.length [[("id", PyScalar (SInt 1))]; [("id", PyScalar (SInt 2))]]).
Proof.
  split; [reflexivity |].
  apply (proj2 (insert_data_returns_row_count accepting_driver "accounts"
                  [[("id", PyScalar (SInt 1))]; [("id", PyScalar (SInt 2))]]
                  tt) 2 tt
               [CallExecutemany "INSERT INTO accounts (id) VALUES (%s)"
                  [[PyScalar (SInt 1)]; [PyScalar (SInt 2)]];
                CallCommit]).
  reflexivity.
Defined.

(** ** The progress percentage *)

(** C8 at 29 rows of 100: the code divides and multiplies in binary64,
    where 29/100*100 is 28.999999999999996, and publishes 28; the rule
    min(100, floor(rows*100/total)) gives 29. *)
Theorem percentage_29_of_100 :
  percentage 29 100 = 28 /\ spec_percentage 29 100 = 29.
Proof. split; vm_compute; reflexivity. Qed.

Example percentage_full : percentage 100 100 = 100.
Proof. vm_compute. reflexivity. Qed.

(** ** Dictionaries *)

Lemma dict_lookup_set_same {V} (k : string) (v : V) (d : PyDict V) :
  dict_lookup k (dict_set k v d) = Some v.
Proof.
  induction d as [| [k' v'] rest IH]; simpl.
  - rewrite String.eqb_refl. reflexivity.
  - destruct (String.eqb k' k) eqn:E; simpl; rewrite E; [reflexivity | exact IH].
Qed.

Lemma dict_lookup_set_other {V} (k k' : string) (v : V) (d : PyDict V) :
  k <> k' -> dict_lookup k (dict_set k' v d) = dict_lookup k d.
Proof.
  intros Hne. induction d as [| [k0 v0] rest IH]; simpl.
  - destruct (String.eqb k' k) eqn:E; [| reflexivity].
    apply String.eqb_eq in E. congruence.
  - destruct (String.eqb k0 k') eqn:E; simpl.
    + apply String.eqb_eq in E. subst k0.
      destruct (String.eqb k' k) eqn:E'; [| reflexivity].
      apply String.eqb_eq in E'. congruence.
    + rewrite IH. reflexivity.
Qed.

(** ** The data transformer *)

Section Transform.
Variable oracle_schema : OracleSchema.
Variable pg_schema : PgSchema.

Lemma transform_cells_lookup (row : Row) (cols : list PgColumn) :
  forall acc out,
    transform_cells oracle_schema row acc cols = Ok out ->
    forall k,
      (In k (map pg_column_name cols) ->
       exists ov, matched_value oracle_schema row k = Ok ov /\
                  dict_lookup k out =
                    match ov with
                    | Some v => Some v
                    | None => dict_lookup k acc
                    end) /\
      (~ In k (map pg_column_name cols) ->
       dict_lookup k out = dict_lookup k acc).
Proof.
  induction cols as [| pg_col rest IH]; intros acc out Hrun k; simpl in *.
  - inversion Hrun; subst. split; [intros [] | reflexivity].
  - unfold transform_cell in Hrun.
    destruct (matched_value oracle_schema row (pg_column_name pg_col))
      as [ov0 | msg] eqn:Hm; [| discriminate].
    assert (Hacc : exists acc',
               transform_cells oracle_schema row acc' rest = Ok out /\
               forall k',
                 dict_lookup k' acc' =
                   if String.eqb k' (pg_column_name pg_col)
                   then match ov0 with
                        | Some v => Some v
                        | None => dict_lookup k' acc
                        end
                   else dict_lookup k' acc).
    { destruct ov0 as [v |].
      - exists (dict_set (pg_column_name pg_col) v acc). split; [exact Hrun |].
        intros k'. destruct (String.eqb k' (pg_column_name pg_col)) eqn:E.
        + apply String.eqb_eq in E. subst k'. apply dict_lookup_set_same.
        + apply String.eqb_neq in E. apply dict_lookup_set_other, E.
      - exists acc. split; [exact Hrun |].
        intros k'. destruct (String.eqb k' (pg_column_name pg_col));
          reflexivity. }
    destruct Hacc as [acc' [Hrest Hlook]].
    destruct (IH acc' out Hrest k) as [Hin Hout].
    destruct (in_dec string_dec k (map pg_column_name rest)) as [Hk | Hk].
    + split; [| intros Hn; exfalso; apply Hn; right; exact Hk].
      intros _. destruct (Hin Hk) as [ov [Hov Hval]].
      exists ov. split; [exact Hov |]. rewrite Hval.
      destruct ov as [v |]; [reflexivity |].
      rewrite Hlook. destruct (String.eqb k (pg_column_name pg_col)) eqn:E;
        [| reflexivity].
      apply String.eqb_eq in E. subst k. rewrite Hm in Hov.
      inversion Hov; subst. reflexivity.
    + rewrite (Hout Hk), Hlook. split.
      * intros [Heq | Hin']; [| contradiction]. subst k.
        rewrite String.eqb_refl. exists ov0. split; [exact Hm | reflexivity].
      * intros Hn. destruct (String.eqb k (pg_column_name pg_col)) eqn:E;
          [| reflexivity].
        apply String.eqb_eq in E. exfalso. apply Hn. left. symmetry. exact E.
Qed.

Lemma transform_data_rows (oracle_data : list Row) :
  forall result,
    transform_oracle_to_postgres_data oracle_data oracle_schema pg_schema
      = Ok result ->
    Forall2 (fun row pg_row =>
               transform_row oracle_schema pg_schema row = Ok pg_row)
            oracle_data result.
Proof.
  induction oracle_data as [| row rest IH]; intros result Hrun; simpl in Hrun.
  - inversion Hrun. constructor.
  - destruct (transform_row oracle_schema pg_schema row) as [pg_row | msg]
      eqn:Hrow; [| discriminate].
    destruct (transform_oracle_to_postgres_data rest oracle_schema pg_schema)
      as [result' | msg]; [| discriminate].
    inversion Hrun; subst. constructor; [exact Hrow | apply IH; reflexivity].
Qed.

Lemma transform_data_length (oracle_data result : list Row) :
  transform_oracle_to_postgres_data oracle_data oracle_schema pg_schema
    = Ok result ->
  List.length result = List.length oracle_data.
Proof.
  intros H. apply transform_data_rows in H.
  symmetry. eapply Forall2_length, H.
Qed.

Lemma convert_value_drains (oracle_type : string) (value value' : PyVal) :
  convert_value oracle_type value = Ok value' ->
  value <> PyNone ->
  (oracle_type = "CLOB" ->
   (forall s, value = PyLob (Ok (SText s)) -> value' = PyScalar (SText s)) /\
   (forall content, value' <> PyLob content)) /\
  (oracle_type = "BLOB" ->
   (forall b, value = PyLob (Ok (SBytes b)) -> value' = PyScalar (SBytes b)) /\
   (forall content, value' <> PyLob content)) /\
  (oracle_type <> "CLOB" -> oracle_type <> "BLOB" -> value' = value).
Proof.
  intros Hconv Hnn. unfold convert_value in Hconv.
  destruct (String.eqb oracle_type "CLOB") eqn:Ec.
  - apply String.eqb_eq in Ec. subst oracle_type.
    repeat split; try discriminate; try congruence.
    + intros s Hv. subst value. inversion Hconv. reflexivity.
    + intros content Hv. subst value'.
      destruct value as [| x | [x | msg]]; try discriminate; congruence.
  - apply String.eqb_neq in Ec.
    destruct (String.eqb oracle_type "BLOB") eqn:Eb.
    + apply String.eqb_eq in Eb. subst oracle_type.
      repeat split; try discriminate; try congruence.
      * intros b Hv. subst value. simpl in Hconv. inversion Hconv. reflexivity.
      * intros content Hv. subst value'.
        destruct value as [| x | [x | msg]]; try congruence;
          try discriminate; destruct (py_bytes x); discriminate.
    + apply String.eqb_neq in Eb. inversion Hconv; subst.
      repeat split; congruence.
Qed.

(** C9, amended: every output row is built column by column.  A source
    column matches a target column when its lower-cased name equals the
    target name as given.  A target column outside the target schema, or
    with no match, is omitted; so is one whose matched name is no key of
    the row.  A matched null stays null.  For a matched value that is
    not null: in a column of source type CLOB a handle over text becomes
    that text and no handle is left; in a column of source type BLOB a
    handle over bytes becomes those bytes and no handle is left; in a
    column of any other source type the value passes through as it is,
    handles included. *)
Theorem transform_builds_rows_by_column (oracle_data result : list Row) :
  transform_oracle_to_postgres_data oracle_data oracle_schema pg_schema
    = Ok result ->
  Forall2
    (fun row pg_row =>
       forall col_name,
         (~ In col_name (map pg_column_name (pg_columns pg_schema)) \/
          find_oracle_col_name oracle_schema col_name = None ->
          dict_lookup col_name pg_row = None) /\
         (forall name,
            In col_name (map pg_column_name (pg_columns pg_schema)) ->
            find_oracle_col_name oracle_schema col_name = Some name ->
            name <> EmptyString ->
            match dict_lookup name row with
            | None => dict_lookup col_name pg_row = None
            | Some PyNone => dict_lookup col_name pg_row = Some PyNone
            | Some value =>
                exists oracle_type value',
                  find_oracle_type oracle_schema name = Ok oracle_type /\
                  dict_lookup col_name pg_row = Some value' /\
                  (oracle_type = "CLOB" ->
                   (forall s, value = PyLob (Ok (SText s)) ->
                              value' = PyScalar (SText s)) /\
                   (forall content, value' <> PyLob content)) /\
                  (oracle_type = "BLOB" ->
                   (forall b, value = PyLob (Ok (SBytes b)) ->
                              value' = PyScalar (SBytes b)) /\
                   (forall content, value' <> PyLob content)) /\
                  (oracle_type <> "CLOB" -> oracle_type <> "BLOB" ->
                   value' = value)
            end))
    oracle_data result.
Proof.
  intros Hrun. apply transform_data_rows in Hrun.
  eapply Forall2_impl; [| exact Hrun].
  intros row pg_row Hrow col_name. unfold transform_row in Hrow.
  destruct (transform_cells_lookup row _ _ _ Hrow col_name) as [Hin Hout].
  split.
  - intros [Hn | Hnone].
    + rewrite (Hout Hn). reflexivity.
    + destruct (in_dec string_dec col_name
                  (map pg_column_name (pg_columns pg_schema))) as [Hk | Hk].
      * destruct (Hin Hk) as [ov [Hov Hval]].
        unfold matched_value in Hov. rewrite Hnone in Hov.
        inversion Hov; subst. exact Hval.
      * rewrite (Hout Hk). reflexivity.
  - intros name Hk Hfind Hname.
    destruct (Hin Hk) as [ov [Hov Hval]].
    unfold matched_value in Hov. rewrite Hfind in Hov.
    apply String.eqb_neq in Hname. rewrite Hname in Hov.
    destruct (dict_lookup name row) as [value |].
    + destruct value as [| x | x].
      * inversion Hov; subst. exact Hval.
      * destruct (find_oracle_type oracle_schema name) as [ty | msg];
          [| discriminate].
        destruct (convert_value ty (PyScalar x)) as [value' | msg] eqn:Hc;
          [| discriminate].
        inversion Hov; subst. exists ty, value'.
        split; [reflexivity | split; [exact Hval |]].
        apply (convert_value_drains _ _ _ Hc). discriminate.
      * destruct (find_oracle_type oracle_schema name) as [ty | msg];
          [| discriminate].
        destruct (convert_value ty (PyLob x)) as [value' | msg] eqn:Hc;
          [| discriminate].
        inversion Hov; subst. exists ty, value'.
        split; [reflexivity | split; [exact Hval |]].
        apply (convert_value_drains _ _ _ Hc). discriminate.
    + inversion Hov; subst. exact Hval.
Qed.

End Transform.

(** A source column of a type the transformer has no case for. *)
Definition nclob_schema : OracleSchema :=
  {| ora_table_name := "NOTES";
     ora_columns :=
       [ {| ora_column_name := "DOC"; ora_data_type := "NCLOB";
            ora_nullable := "Y"; data_precision := Missing;
            data_scale := Missing; data_length := Missing;
            default_value := Missing |};
         {| ora_column_name := "BODY"; ora_data_type := "CLOB";
            ora_nullable := "Y"; data_precision := Missing;
            data_scale := Missing; data_length := Missing;
            default_value := Missing |} ];
     ora_primary_keys := []; ora_procedures := [];
     ora_original_db_type := "ORACLE" |}.

(** C9, as stated, fails: a handle in a matched column whose source type is
    NCLOB reaches the output row as the same handle, not read. *)
Lemma nclob_handle_is_not_read :
  transform_oracle_to_postgres_data
    [[("DOC", PyLob (Ok (SText "minutes")));
      ("BODY", PyLob (Ok (SText "agenda")))]]
    nclob_schema (convert_oracle_to_postgres_schema nclob_schema)
  = Ok [[("doc", PyLob (Ok (SText "minutes")));
         ("body", PyScalar (SText "agenda"))]].
Proof. reflexivity. Qed.

Lemma transform_builds_rows_by_column_witness :
  Forall2
    (fun row pg_row =>
       forall col_name,
         (~ In col_name
               (map pg_column_name
                    (pg_columns
                       (convert_oracle_to_postgres_schema nclob_schema))) \/
          find_oracle_col_name nclob_schema col_name = None ->
          dict_lookup col_name pg_row = None) /\
         (forall name,
            In col_name
               (map pg_column_name
                    (pg_columns
                       (convert_oracle_to_postgres_schema nclob_schema))) ->
            find_oracle_col_name nclob_schema col_name = Some name ->
            name <> EmptyString ->
            match dict_lookup name row with
            | None => dict_lookup col_name pg_row = None
            | Some PyNone => dict_lookup col_name pg_row = Some PyNone
            | Some value =>
                exists oracle_type value',
                  find_oracle_type nclob_schema name = Ok oracle_type /\
                  dict_lookup col_name pg_row = Some value' /\
                  (oracle_type = "CLOB" ->
                   (forall s, value = PyLob (Ok (SText s)) ->
                              value' = PyScalar (SText s)) /\
                   (forall content, value' <> PyLob content)) /\
                  (oracle_type = "BLOB" ->
                   (forall b, value = PyLob (Ok (SBytes b)) ->
                              value' = PyScalar (SBytes b)) /\
                   (forall content, value' <> PyLob content)) /\
                  (oracle_type <> "CLOB" -> oracle_type <> "BLOB" ->
                   value' = value)
            end))
    [[("DOC", PyLob (Ok (SText "minutes")));
      ("BODY", PyLob (Ok (SText "agenda")))]]
    [[("doc", PyLob (Ok (SText "minutes")));
      ("body", PyScalar (SText "agenda"))]].
Proof.
  apply (transform_builds_rows_by_column nclob_schema
           (convert_oracle_to_postgres_schema nclob_schema)).
  reflexivity.
Defined.

(** ** Reasoning about runs *)

Section Logic.
Context {W : Type}.

(** [wlp m Q E s]: if [m] run from [s] returns, then [Q] holds of a value
    and [E] of an exception, each with the state reached. *)
Definition wlp {A} (m : M W A) (Q : A -> State W -> Prop)
    (E : string -> State W -> Prop) (s : State W) : Prop :=
  forall r s', m s = Some (r, s') ->
               match r with
               | Ok a => Q a s'
               | Raise msg => E msg s'
               end.

Lemma wlp_ret {A} (a : A) Q E s : Q a s -> wlp (ret a) Q E s.
Proof. intros H r s' Hrun. inversion Hrun; subst. exact H. Qed.

Lemma wlp_bind {A B} (m : M W A) (f : A -> M W B) Q E s :
  wlp m (fun a s' => wlp (f a) Q E s') E s -> wlp (bind m f) Q E s.
Proof.
  intros H r s' Hrun. unfold bind in Hrun.
  destruct (m s) as [[[a | msg] s1] |] eqn:Hm; [| | discriminate].
  - exact (H _ _ Hm _ _ Hrun).
  - inversion Hrun; subst. exact (H _ _ Hm).
Qed.

Lemma wlp_weaken {A} (m : M W A) (Q Q' : A -> State W -> Prop)
    (E E' : string -> State W -> Prop) s :
  wlp m Q E s ->
  (forall a s', Q a s' -> Q' a s') ->
  (forall msg s', E msg s' -> E' msg s') ->
  wlp m Q' E' s.
Proof.
  intros H HQ HE r s' Hrun. specialize (H r s' Hrun).
  destruct r; [apply HQ | apply HE]; exact H.
Qed.

Lemma wlp_raise {A} (msg : string) (Q : A -> State W -> Prop) E s :
  E msg (add_event (EvFault msg) s) -> wlp (raise msg) Q E s.
Proof. intros H r s' Hrun. inversion Hrun; subst. exact H. Qed.

Lemma wlp_emit (e : Event) Q E (s : State W) :
  Q tt (add_event e s) -> wlp (emit e) Q E s.
Proof. intros H r s' Hrun. inversion Hrun; subst. exact H. Qed.

Lemma wlp_modify (f : State W -> State W) Q E s :
  Q tt (f s) -> wlp (modify f) Q E s.
Proof. intros H r s' Hrun. inversion Hrun; subst. exact H. Qed.

Lemma wlp_get_migration_log Q E (s : State W) :
  Q (migration_log s) s -> wlp get_migration_log Q E s.
Proof. intros H r s' Hrun. inversion Hrun; subst. exact H. Qed.

Lemma wlp_lift_result {A} (x : Result A) Q E (s : State W) :
  match x with
  | Ok a => Q a s
  | Raise msg => E msg (add_event (EvFault msg) s)
  end ->
  wlp (lift_result x) Q E s.
Proof.
  destruct x; simpl; intros H; [apply wlp_ret | apply wlp_raise]; exact H.
Qed.

Lemma wlp_call {A} (op : W -> Result A * W) Q E s :
  (forall x w, op (world s) = (x, w) ->
               match x with
               | Ok a => Q a (set_world w s)
               | Raise msg => E msg (add_event (EvFault msg) (set_world w s))
               end) ->
  wlp (call op) Q E s.
Proof.
  intros H r s' Hrun. unfold call in Hrun.
  destruct (op (world s)) as [x w] eqn:Hop.
  specialize (H x w eq_refl).
  exact (wlp_lift_result x Q E _ H r s' Hrun).
Qed.

Lemma wlp_set_status (migration_id st : string) Q E (s : State W) :
  (forall m, dict_lookup migration_id (migrations s) = Some m ->
             Q tt (set_migrations
                     (dict_set migration_id
                        {| status := st; details := details m |}
                        (migrations s)) s)) ->
  (dict_lookup migration_id (migrations s) = None ->
   E (key_error migration_id)
     (add_event (EvFault (key_error migration_id)) s)) ->
  wlp (set_status migration_id st) Q E s.
Proof.
  intros HQ HE r s' Hrun. unfold set_status in Hrun.
  destruct (dict_lookup migration_id (migrations s)) as [m |].
  - inversion Hrun; subst. apply HQ. reflexivity.
  - inversion Hrun; subst. apply HE. reflexivity.
Qed.

Lemma wlp_update_details (migration_id : string) (f : Details -> Details)
    Q E (s : State W) :
  (forall m d, dict_lookup migration_id (migrations s) = Some m ->
               details m = Some d ->
               Q tt (set_migrations
                       (dict_set migration_id
                          {| status := status m; details := Some (f d) |}
                          (migrations s)) s)) ->
  (forall msg, E msg (add_event (EvFault msg) s)) ->
  wlp (update_details migration_id f) Q E s.
Proof.
  intros HQ HE r s' Hrun. unfold update_details in Hrun.
  destruct (dict_lookup migration_id (migrations s)) as [m |].
  - destruct (details m) as [d |] eqn:Hd.
    + inversion Hrun; subst. apply (HQ m d); [reflexivity | exact Hd].
    + inversion Hrun; subst. apply HE.
  - inversion Hrun; subst. apply HE.
Qed.

End Logic.

(** *** Invariants that every step of a run keeps

    [I] is kept by every change of state that a run makes other than a
    recorded exception, after which [X] holds; [silent] names the events
    that keep [I]. *)
Section Invariant.
Context {W : Type} (C : Connectors W).
Variable I : State W -> Prop.
Variable X : string -> State W -> Prop.
Variable silent : Event -> Prop.

Hypothesis I_world : forall w s, I s -> I (set_world w s).
Hypothesis I_oracle : forall c s, I s -> I (set_oracle c s).
Hypothesis I_postgres : forall c s, I s -> I (set_postgres c s).
Hypothesis I_log : forall l s, I s -> I (set_migration_log l s).
Hypothesis I_event : forall e s, silent e -> I s -> I (add_event e s).
Hypothesis I_fault : forall msg s, I s -> X msg (add_event (EvFault msg) s).
Hypothesis I_record :
  forall key m m' s,
    I s -> dict_lookup key (migrations s) = Some m ->
    (details m <> None -> details m' <> None) ->
    I (set_migrations (dict_set key m' (migrations s)) s).

Definition keeps {A} (m : M W A) : Prop :=
  forall s, I s -> wlp m (fun _ s' => I s') X s.

Lemma keeps_ret {A} (a : A) : keeps (ret a).
Proof. intros s Hs. apply wlp_ret, Hs. Qed.

Lemma keeps_bind {A B} (m : M W A) (f : A -> M W B) :
  keeps m -> (forall a, keeps (f a)) -> keeps (bind m f).
Proof.
  intros Hm Hf s Hs. apply wlp_bind.
  eapply wlp_weaken; [apply Hm, Hs | | auto].
  intros a s' Hs'. apply Hf, Hs'.
Qed.

Lemma keeps_raise {A} (msg : string) : keeps (@raise W A msg).
Proof. intros s Hs. apply wlp_raise, I_fault, Hs. Qed.

Lemma keeps_emit (e : Event) : silent e -> keeps (emit e).
Proof. intros He s Hs. apply wlp_emit, I_event; assumption. Qed.

Lemma keeps_lift_result {A} (x : Result A) : keeps (lift_result x).
Proof. destruct x; [apply keeps_ret | apply keeps_raise]. Qed.

Lemma keeps_call {A} (op : W -> Result A * W) : keeps (call op).
Proof.
  intros s Hs. apply wlp_call. intros x w _.
  destruct x; [apply I_world, Hs | apply I_fault, I_world, Hs].
Qed.

Lemma keeps_get_migration_log : keeps get_migration_log.
Proof. intros s Hs. apply wlp_get_migration_log, Hs. Qed.

Lemma keeps_append_log (line : string) : keeps (append_log line).
Proof. intros s Hs. apply wlp_modify, I_log, Hs. Qed.

Lemma keeps_set_oracle c : keeps (modify (set_oracle c)).
Proof. intros s Hs. apply wlp_modify, I_oracle, Hs. Qed.

Lemma keeps_set_postgres c : keeps (modify (set_postgres c)).
Proof. intros s Hs. apply wlp_modify, I_postgres, Hs. Qed.

Lemma keeps_set_migration_log l : keeps (modify (set_migration_log l)).
Proof. intros s Hs. apply wlp_modify, I_log, Hs. Qed.

Lemma keeps_set_status (migration_id st : string) :
  keeps (set_status migration_id st).
Proof.
  intros s Hs. apply wlp_set_status.
  - intros m Hm. eapply I_record; [exact Hs | exact Hm | auto].
  - intros _. apply I_fault, Hs.
Qed.

Lemma keeps_update_details (migration_id : string) f :
  keeps (update_details migration_id f).
Proof.
  intros s Hs. apply wlp_update_details.
  - intros m d Hm Hd. eapply I_record; [exact Hs | exact Hm |].
    simpl. intros _. discriminate.
  - intros msg. apply I_fault, Hs.
Qed.

Lemma keeps_update_stats (migration_id : string) f :
  keeps (update_stats migration_id f).
Proof.
  intros s Hs. apply wlp_modify.
  destruct (dict_lookup migration_id (migrations s)) as [m |] eqn:Hm;
    [| exact Hs].
  destruct (details m) as [d |]; [| exact Hs].
  eapply I_record; [exact Hs | exact Hm |]. simpl. intros _. discriminate.
Qed.

Lemma keeps_set_phase (migration_id : string) (p : Phase) :
  silent (EvPhase p) -> keeps (set_phase migration_id p).
Proof.
  intros Hp. apply keeps_bind; [apply keeps_update_details |].
  intros _. apply keeps_emit, Hp.
Qed.

Hypothesis silent_fetch_call : forall t l o, silent (EvFetchCall t l o).
Hypothesis silent_fetch : forall t l o page, silent (EvFetch t l o page).
Hypothesis silent_insert : forall t data, silent (EvInsert t data).
Hypothesis silent_progress : forall pr, silent (EvProgress pr).
Hypothesis silent_close : forall side, silent (EvClose side).

Variable migration_id : string.
Variable request : MigrationRequest.

Lemma keeps_fetch t l o : keeps (fetch C t l o).
Proof.
  apply keeps_bind; [apply keeps_emit, silent_fetch_call |]. intros _.
  apply keeps_bind; [apply keeps_call |]. intros page.
  apply keeps_bind; [apply keeps_emit, silent_fetch |]. intros _.
  apply keeps_ret.
Qed.

Lemma keeps_insert t data : keeps (insert C t data).
Proof.
  apply keeps_bind; [apply keeps_emit, silent_insert |]. intros _.
  apply keeps_call.
Qed.

Lemma keeps_publish_progress pr : keeps (publish_progress migration_id pr).
Proof.
  apply keeps_bind; [apply keeps_update_details |]. intros _.
  apply keeps_emit, silent_progress.
Qed.

Lemma keeps_load_batch t os ps rc off mig page :
  keeps (load_batch C migration_id request t os ps rc off mig page).
Proof.
  unfold load_batch.
  apply keeps_bind; [apply keeps_lift_result |]. intros data.
  apply keeps_bind; [apply keeps_insert |]. intros _.
  apply keeps_bind; [apply keeps_update_stats |]. intros _.
  apply keeps_bind; [apply keeps_update_details |]. intros _.
  apply keeps_bind; [apply keeps_publish_progress |]. intros _.
  apply keeps_bind; [apply keeps_append_log |]. intros _.
  apply keeps_ret.
Qed.

Lemma keeps_migrate_batch t os ps rc off mig :
  keeps (migrate_batch C migration_id request t os ps rc off mig).
Proof.
  unfold migrate_batch.
  apply keeps_bind; [apply keeps_fetch |]. intros [| row rest].
  - apply keeps_ret.
  - apply keeps_bind; [apply keeps_load_batch |]. intros next.
    apply keeps_ret.
Qed.

Lemma keeps_migrate_batches fuel t os ps rc :
  forall off mig,
    keeps (migrate_batches C migration_id request fuel t os ps rc off mig).
Proof.
  induction fuel as [| fuel IH]; intros off mig; simpl;
    destruct (off <? rc); try apply keeps_ret.
  - intros s _ r s' Hrun. discriminate.
  - apply keeps_bind; [apply keeps_migrate_batch |].
    intros [[off' mig'] |]; [apply IH | apply keeps_ret].
Qed.

Lemma keeps_select_tables : keeps (select_tables C request).
Proof.
  unfold select_tables. apply keeps_bind.
  - destruct (tables request) as [[| t ts] |];
      try apply keeps_call; apply keeps_ret.
  - intros all. destruct (exclude_tables request) as [[| e es] |];
      apply keeps_ret.
Qed.

Lemma keeps_oracle_connect : keeps (oracle_connect C).
Proof.
  apply keeps_bind; [apply keeps_call |]. intros _. apply keeps_set_oracle.
Qed.

Lemma keeps_postgres_connect : keeps (postgres_connect C).
Proof.
  apply keeps_bind; [apply keeps_call |]. intros _. apply keeps_set_postgres.
Qed.

(** A computation chosen by looking at the state. *)
Lemma keeps_by_state {A} (f : State W -> M W A) :
  (forall s0, keeps (f s0)) -> keeps (fun s => f s s).
Proof. intros H s Hs. exact (H s s Hs). Qed.

Lemma keeps_disconnect side c : keeps (disconnect C side c).
Proof.
  unfold disconnect. destruct (connection c); [| apply keeps_ret].
  apply keeps_bind; [apply keeps_emit, silent_close |]. intros _.
  apply keeps_bind; [apply keeps_call |]. intros _.
  apply keeps_ret.
Qed.

Lemma keeps_cleanup : keeps (cleanup C).
Proof.
  unfold cleanup. apply keeps_bind.
  - apply (keeps_by_state
             (fun s0 => match oracle s0 with
                        | Some c => c' <- disconnect C OracleSide c ;;
                                    modify (set_oracle (Some c'))
                        | None => ret tt
                        end)).
    intros s0. destruct (oracle s0) as [c |]; [| apply keeps_ret].
    apply keeps_bind; [apply keeps_disconnect |].
    intros c'. apply keeps_set_oracle.
  - intros _.
    apply (keeps_by_state
             (fun s0 => match postgres s0 with
                        | Some c => c' <- disconnect C PostgresSide c ;;
                                    modify (set_postgres (Some c'))
                        | None => ret tt
                        end)).
    intros s0. destruct (postgres s0) as [c |]; [| apply keeps_ret].
    apply keeps_bind; [apply keeps_disconnect |].
    intros c'. apply keeps_set_postgres.
Qed.

(** With the phase writes silent too, the whole [try] block keeps [I]. *)
Hypothesis silent_phase : forall p, silent (EvPhase p).

Lemma keeps_migrate_table fuel t :
  keeps (migrate_table C migration_id request fuel t).
Proof.
  unfold migrate_table.
  apply keeps_bind; [apply keeps_append_log |]. intros _.
  apply keeps_bind; [apply keeps_call |]. intros os.
  apply keeps_bind; [apply keeps_set_phase, silent_phase |]. intros _.
  apply keeps_bind; [apply keeps_update_details |]. intros _.
  apply keeps_bind; [apply keeps_call |]. intros _.
  apply keeps_bind; [apply keeps_update_stats |]. intros _.
  apply keeps_bind; [apply keeps_update_stats |]. intros _.
  apply keeps_bind; [apply keeps_update_details |]. intros _.
  destruct (only_schema request); [apply keeps_ret |].
  apply keeps_bind; [| intros; apply keeps_ret].
  unfold migrate_table_data.
  apply keeps_bind; [apply keeps_set_phase, silent_phase |]. intros _.
  apply keeps_bind; [apply keeps_call |]. intros rc.
  apply keeps_migrate_batches.
Qed.

Lemma keeps_migrate_tables fuel names :
  keeps (migrate_tables C migration_id request fuel names).
Proof.
  induction names as [| t rest IH]; simpl; [apply keeps_ret |].
  apply keeps_bind; [apply keeps_migrate_table | intros _; exact IH].
Qed.

Lemma keeps_migration_work fuel :
  keeps (migration_work C migration_id request fuel).
Proof.
  unfold migration_work.
  apply keeps_bind; [apply keeps_select_tables |]. intros names.
  apply keeps_bind; [apply keeps_set_migration_log |]. intros _.
  apply keeps_bind; [apply keeps_update_details |]. intros _.
  apply keeps_bind; [apply keeps_update_details |]. intros _.
  apply keeps_bind; [apply keeps_migrate_tables |]. intros _.
  apply keeps_bind; [apply keeps_set_phase, silent_phase |]. intros _.
  apply keeps_bind; [apply keeps_set_phase, silent_phase |]. intros _.
  apply keeps_bind; [apply keeps_set_status |]. intros _.
  apply keeps_bind; [apply keeps_set_phase, silent_phase |]. intros _.
  apply keeps_bind; [apply keeps_get_migration_log |]. intros lines.
  apply keeps_bind; [apply keeps_update_details |]. intros _.
  apply keeps_update_details.
Qed.

Lemma keeps_migration_body fuel :
  keeps (migration_body C migration_id request fuel).
Proof.
  unfold migration_body.
  apply keeps_bind; [apply keeps_call |]. intros _.
  apply keeps_bind; [apply keeps_set_oracle |]. intros _.
  apply keeps_bind; [apply keeps_oracle_connect |]. intros _.
  apply keeps_bind; [apply keeps_set_postgres |]. intros _.
  apply keeps_bind; [apply keeps_postgres_connect |]. intros _.
  apply keeps_bind; [apply keeps_select_tables |]. intros names.
  apply keeps_bind; [apply keeps_set_migration_log |]. intros _.
  apply keeps_bind; [apply keeps_update_details |]. intros _.
  apply keeps_bind; [apply keeps_update_details |]. intros _.
  apply keeps_bind; [apply keeps_migrate_tables |]. intros _.
  apply keeps_bind; [apply keeps_set_phase, silent_phase |]. intros _.
  apply keeps_bind; [apply keeps_set_phase, silent_phase |]. intros _.
  apply keeps_bind; [apply keeps_set_status |]. intros _.
  apply keeps_bind; [apply keeps_set_phase, silent_phase |]. intros _.
  apply keeps_bind; [apply keeps_get_migration_log |]. intros lines.
  apply keeps_bind; [apply keeps_update_details |]. intros _.
  apply keeps_update_details.
Qed.

End Invariant.

(** *** Projections of the event log that a computation leaves alone *)

Section Projection.
Context {W : Type} {T : Type}.
Variable g : Event -> list T.

Definition proj_is (l : list T) (s : State W) : Prop :=
  flat_map g (events s) = l.

Definition mute (e : Event) : Prop := g e = [].

Lemma proj_world l w (s : State W) : proj_is l s -> proj_is l (set_world w s).
Proof. intros H. exact H. Qed.

Lemma proj_oracle l c (s : State W) :
  proj_is l s -> proj_is l (set_oracle c s).
Proof. intros H. exact H. Qed.

Lemma proj_postgres l c (s : State W) :
  proj_is l s -> proj_is l (set_postgres c s).
Proof. intros H. exact H. Qed.

Lemma proj_log l lines (s : State W) :
  proj_is l s -> proj_is l (set_migration_log lines s).
Proof. intros H. exact H. Qed.

Lemma proj_record l key (m m' : Migration) (s : State W) :
  proj_is l s -> dict_lookup key (migrations s) = Some m ->
  (details m <> None -> details m' <> None) ->
  proj_is l (set_migrations (dict_set key m' (migrations s)) s).
Proof. intros H _ _. exact H. Qed.

Lemma proj_add_event e (s : State W) :
  flat_map g (events (add_event e s)) = (flat_map g (events s) ++ g e)%list.
Proof.
  simpl. rewrite flat_map_app. simpl. rewrite app_nil_r. reflexivity.
Qed.

Lemma proj_event l e (s : State W) :
  mute e -> proj_is l s -> proj_is l (add_event e s).
Proof.
  unfold proj_is, mute. intros He H.
  rewrite proj_add_event, He, app_nil_r. exact H.
Qed.

Hypothesis fault_mute : forall msg, mute (EvFault msg).

Lemma proj_fault l msg (s : State W) :
  proj_is l s -> proj_is l (add_event (EvFault msg) s).
Proof. apply proj_event, fault_mute. Qed.

(** [m] adds nothing that [g] sees. *)
Definition unchanged {A} (m : M W A) : Prop :=
  forall s r s', m s = Some (r, s') ->
                 flat_map g (events s') = flat_map g (events s).

Lemma keeps_unchanged {A} (m : M W A) :
  (forall l, keeps (proj_is l) (fun _ => proj_is l) m) -> unchanged m.
Proof.
  intros H s r s' Hrun.
  specialize (H (flat_map g (events s)) s eq_refl r s' Hrun).
  destruct r; exact H.
Qed.

End Projection.

Create HintDb proj.
#[local] Hint Resolve proj_world proj_oracle proj_postgres proj_log
  proj_record proj_event proj_fault : proj.
#[local] Hint Extern 1 (mute _ _) => reflexivity : proj.

(** *** Taking a run apart *)

Lemma bind_inv {W A B} (m : M W A) (f : A -> M W B) s r s' :
  bind m f s = Some (r, s') ->
  (exists msg, m s = Some (Raise msg, s') /\ r = Raise msg) \/
  (exists a s1, m s = Some (Ok a, s1) /\ f a s1 = Some (r, s')).
Proof.
  unfold bind. destruct (m s) as [[[a | msg] s1] |]; intros H.
  - right. exists a, s1. split; [reflexivity | exact H].
  - left. inversion H; subst. exists msg. split; reflexivity.
  - discriminate.
Qed.

Lemma bind_ok_inv {W A B} (m : M W A) (f : A -> M W B) s b s' :
  bind m f s = Some (Ok b, s') ->
  exists a s1, m s = Some (Ok a, s1) /\ f a s1 = Some (Ok b, s').
Proof.
  intros H. apply bind_inv in H. destruct H as [[msg [_ H]] | H];
    [discriminate | exact H].
Qed.

Lemma ret_inv {W A} (a : A) (s : State W) r s' :
  ret a s = Some (r, s') -> r = Ok a /\ s' = s.
Proof. intros H. inversion H. split; reflexivity. Qed.

(** ** The batched transfer loop *)

Section Transfer.
Context {W : Type} (C : Connectors W).
Variable migration_id : string.
Variable request : MigrationRequest.

Lemma load_batch_unchanged {T} (g : Event -> list T) t os ps rc off mig page :
  (forall msg, mute g (EvFault msg)) ->
  (forall t' data, mute g (EvInsert t' data)) ->
  (forall pr, mute g (EvProgress pr)) ->
  unchanged g (load_batch C migration_id request t os ps rc off mig page).
Proof.
  intros Hf Hi Hp. apply keeps_unchanged. intros l.
  apply (keeps_load_batch C (proj_is g l) (fun _ => proj_is g l) (mute g));
    auto with proj.
Qed.

Lemma load_batch_value t os ps rc off mig page s v s' :
  load_batch C migration_id request t os ps rc off mig page s
    = Some (Ok v, s') ->
  v = (off + batch_size request, mig + Z.of_nat (List.length page)).
Proof.
  unfold load_batch. intros H.
  repeat (apply bind_ok_inv in H; destruct H as [? [? [_ H]]]).
  apply ret_inv in H. destruct H as [H _]. inversion H. reflexivity.
Qed.

(** The state after a fetch that returned [page]. *)
Definition fetched (t : string) (l o : Z) (page : list Row) (w : W)
    (s : State W) : State W :=
  add_event (EvFetch t l o page)
    (set_world w (add_event (EvFetchCall t l o) s)).

Lemma fetched_proj {T} (g : Event -> list T) t l o page w (s : State W) :
  g (EvFetchCall t l o) = [] ->
  flat_map g (events (fetched t l o page w s))
  = (flat_map g (events s) ++ g (EvFetch t l o page))%list.
Proof.
  intros Hg. unfold fetched.
  rewrite (proj_add_event g _ (set_world w (add_event (EvFetchCall t l o) s))).
  change (events (set_world w (add_event (EvFetchCall t l o) s)))
    with (events (add_event (EvFetchCall t l o) s)).
  rewrite (proj_add_event g _ s), Hg, app_nil_r. reflexivity.
Qed.

Lemma fetch_ok t l o (s : State W) page s' :
  fetch C t l o s = Some (Ok page, s') ->
  exists w, oracle_fetch_data C t l o (world s) = (Ok page, w) /\
            s' = fetched t l o page w s.
Proof.
  unfold fetch. intros H.
  apply bind_ok_inv in H. destruct H as [u0 [s0 [Hemit0 H]]].
  inversion Hemit0. subst s0. clear Hemit0.
  apply bind_ok_inv in H. destruct H as [page' [s1 [Hcall H]]].
  apply bind_ok_inv in H. destruct H as [u [s2 [Hemit H]]].
  apply ret_inv in H. destruct H as [Hp Hs]. inversion Hp; subst.
  unfold call in Hcall. simpl in Hcall.
  destruct (oracle_fetch_data C t l o (world s)) as [[p | msg] w]; simpl in Hcall;
    inversion Hcall; subst.
  exists w. split; [reflexivity |]. inversion Hemit. reflexivity.
Qed.

Lemma migrate_batch_offset t os ps rc off mig (s : State W) off' mig' s' :
  migrate_batch C migration_id request t os ps rc off mig s
    = Some (Ok (Some (off', mig')), s') ->
  off' = off + batch_size request.
Proof.
  unfold migrate_batch. intros H.
  apply bind_ok_inv in H. destruct H as [page [s1 [_ H]]].
  destruct page as [| row rest]; [apply ret_inv in H; destruct H; discriminate |].
  apply bind_ok_inv in H. destruct H as [v [s2 [Hload H]]].
  apply load_batch_value in Hload. subst v.
  apply ret_inv in H. destruct H as [Hv _]. injection Hv as Hoff _.
  exact Hoff.
Qed.

(** C2, amended: a turn of the loop that goes on to the next one has
    fetched exactly one page, has advanced the offset by the configured
    batch size whatever the number of rows in that page, and has advanced
    the count of rows migrated by the number of rows in the page. *)
Theorem batch_advances_offset_by_batch_size t os ps rc off mig
    (s : State W) off' mig' s' :
  migrate_batch C migration_id request t os ps rc off mig s
    = Some (Ok (Some (off', mig')), s') ->
  off' = off + batch_size request /\
  exists page,
    pages_of (events s') = (pages_of (events s) ++ [page])%list /\
    fetch_offsets_of (events s') = (fetch_offsets_of (events s) ++ [off])%list /\
    mig' = mig + Z.of_nat (List.length page).
Proof.
  unfold migrate_batch. intros H.
  apply bind_ok_inv in H. destruct H as [page [s1 [Hfetch H]]].
  apply fetch_ok in Hfetch. destruct Hfetch as [w [_ Hs1]].
  destruct page as [| row rest]; [apply ret_inv in H; destruct H; discriminate |].
  apply bind_ok_inv in H. destruct H as [v [s2 [Hload H]]].
  pose proof (load_batch_value _ _ _ _ _ _ _ _ _ _ Hload) as Hval. subst v.
  apply ret_inv in H. destruct H as [Hv Hs]. subst s2.
  injection Hv as Hoff Hmig. subst off' mig' s1.
  split; [reflexivity |].
  exists (row :: rest). split; [| split; [| reflexivity]].
  - unfold pages_of.
    rewrite (load_batch_unchanged page_of_event _ _ _ _ _ _ _
               ltac:(reflexivity) ltac:(reflexivity) ltac:(reflexivity)
               _ _ _ Hload).
    exact (fetched_proj page_of_event _ _ _ _ w s eq_refl).
  - unfold fetch_offsets_of.
    rewrite (load_batch_unchanged fetch_offset_of_event _ _ _ _ _ _ _
               ltac:(reflexivity) ltac:(reflexivity) ltac:(reflexivity)
               _ _ _ Hload).
    exact (fetched_proj fetch_offset_of_event _ _ _ _ w s eq_refl).
Qed.

End Transfer.

(** *** A table of three rows moved two at a time *)

Definition id_column : OracleColumn :=
  {| ora_column_name := "ID"; ora_data_type := "NUMBER"; ora_nullable := "N";
     data_precision := Missing; data_scale := Missing; data_length := Missing;
     default_value := Missing |}.

Definition ids_schema : OracleSchema :=
  {| ora_table_name := "T"; ora_columns := [id_column];
     ora_primary_keys := ["ID"]; ora_procedures := [];
     ora_original_db_type := "ORACLE" |}.

Definition ids_table (n : nat) : OracleTable :=
  {| tbl_column_names := ["ID"];
     tbl_rows := map (fun i => [PyScalar (SInt (Z.of_nat i))]) (seq 1 n) |}.

Definition request_with_batch_size (b : Z) : MigrationRequest :=
  {| tables := None; exclude_tables := None; only_schema := false;
     batch_size := b |}.

Definition empty_details : Details :=
  {| current_phase := None; current_table := None; details_tables := None;
     details_stats := None; details_progress := None; details_error := None;
     details_migration_log := None; duration_seconds := None |}.

(** A store with one pending job whose details are a dictionary. *)
Definition job_store : PyDict Migration :=
  [("migration-1", {| status := "pending"; details := Some empty_details |})].

(** C2, as stated, fails: the second turn over three rows with batch size 2
    fetches a page of one row at offset 2 and leaves the offset at 4, not at
    2 + 1. *)
Lemma short_page_advances_by_batch_size :
  exists s',
    migrate_batch (quiet_connectors (ids_table 3) ids_schema) "migration-1"
      (request_with_batch_size 2) "T" ids_schema
      (convert_oracle_to_postgres_schema ids_schema) 3 2 2
      (initial_state tt job_store)
    = Some (Ok (Some (4, 3)), s') /\
    pages_of (events s') = [[[("ID", PyScalar (SInt 3))]]] /\
    4 <> 2 + Z.of_nat (List.length [[("ID", PyScalar (SInt 3))]]).
Proof.
  eexists. split; [vm_compute; reflexivity |].
  split; [reflexivity | discriminate].
Qed.

Lemma batch_advances_offset_by_batch_size_witness :
  exists s',
    migrate_batch (quiet_connectors (ids_table 3) ids_schema) "migration-1"
      (request_with_batch_size 2) "T" ids_schema
      (convert_oracle_to_postgres_schema ids_schema) 3 2 2
      (initial_state tt job_store)
    = Some (Ok (Some (4, 3)), s') /\
    (4 = 2 + batch_size (request_with_batch_size 2) /\
     exists page,
       pages_of (events s')
         = (pages_of (events (initial_state tt job_store)) ++ [page])%list /\
       fetch_offsets_of (events s')
         = (fetch_offsets_of (events (initial_state tt job_store)) ++ [2])%list
       /\ 3 = 2 + Z.of_nat (List.length page)).
Proof.
  eexists. split; [vm_compute; reflexivity |].
  apply (batch_advances_offset_by_batch_size
           (quiet_connectors (ids_table 3) ids_schema) "migration-1"
           (request_with_batch_size 2) "T" ids_schema
           (convert_oracle_to_postgres_schema ids_schema) 3 2 2
           (initial_state tt job_store)).
  vm_compute. reflexivity.
Defined.

(** *** A table without rows *)

Section EmptyTable.
Context {W : Type} (C : Connectors W).
Variable migration_id : string.
Variable request : MigrationRequest.

Lemma set_phase_inv p (s : State W) r s' :
  set_phase migration_id p s = Some (r, s') ->
  world s' = world s /\
  ((exists msg, r = Raise msg /\ events s' = (events s ++ [EvFault msg])%list)
   \/ (r = Ok tt /\ events s' = (events s ++ [EvPhase p])%list)).
Proof.
  unfold set_phase, update_details, emit, raise, bind.
  destruct (dict_lookup migration_id (migrations s)) as [m |].
  - destruct (details m) as [d |]; intros H; inversion H; subst; simpl;
      split; try reflexivity.
    + right. split; reflexivity.
    + left. eexists. split; reflexivity.
  - intros H; inversion H; subst; simpl. split; [reflexivity |].
    left. eexists. split; reflexivity.
Qed.

(** C3 on the code: when the count of rows is zero, the transfer step moves
    nothing and makes no fetch and no insert, and it publishes no progress
    report at all: the only thing it writes is the phase. *)
Theorem empty_table_publishes_no_progress (fuel : nat) t os ps
    (s : State W) w r s' :
  oracle_row_count C t (world s) = (Ok 0, w) ->
  migrate_table_data C migration_id request fuel t os ps s = Some (r, s') ->
  (r = Ok (0, 0) \/ exists msg, r = Raise msg) /\
  progress_of (events s') = progress_of (events s) /\
  pages_of (events s') = pages_of (events s) /\
  inserts_of (events s') = inserts_of (events s).
Proof.
  intros Hcount Hrun. unfold migrate_table_data in Hrun.
  apply bind_inv in Hrun. destruct Hrun as [[msg [Hp Hr]] | [u [s1 [Hp Hrun]]]].
  - apply set_phase_inv in Hp. destruct Hp as [_ [[msg' [Hm Hev]] | [Hm _]]];
      [| discriminate].
    subst r. split; [right; eexists; reflexivity |].
    unfold progress_of, pages_of, inserts_of. rewrite Hev, !flat_map_app.
    simpl. rewrite !app_nil_r. repeat split.
  - apply set_phase_inv in Hp. destruct Hp as [Hw [[msg' [Hm _]] | [_ Hev]]];
      [discriminate |].
    unfold bind, call in Hrun. rewrite Hw, Hcount in Hrun. simpl in Hrun.
    assert (Hloop : migrate_batches C migration_id request fuel t os ps 0 0 0
                      (set_world w s1) = Some (Ok (0, 0), set_world w s1))
      by (destruct fuel; reflexivity).
    rewrite Hloop in Hrun. inversion Hrun; subst.
    split; [left; reflexivity |].
    unfold progress_of, pages_of, inserts_of. simpl. rewrite Hev, !flat_map_app.
    simpl. rewrite !app_nil_r. repeat split.
Qed.

End EmptyTable.

(** The whole run over one table without rows: it completes, and neither
    the events nor the job record hold a progress report. *)
Lemma empty_table_publishes_no_progress_witness :
  exists s',
    migrate_table_data (quiet_connectors (ids_table 0) ids_schema)
      "migration-1" (request_with_batch_size 1000) 10 "T" ids_schema
      (convert_oracle_to_postgres_schema ids_schema)
      (initial_state tt job_store)
    = Some (Ok (0, 0), s') /\
    ((Ok (0, 0) = Ok (0, 0) \/ exists msg, Ok (0, 0) = @Raise (Z * Z) msg) /\
     progress_of (events s') = [] /\
     pages_of (events s') = [] /\
     inserts_of (events s') = []).
Proof.
  eexists. split; [vm_compute; reflexivity |].
  apply (empty_table_publishes_no_progress
           (quiet_connectors (ids_table 0) ids_schema) "migration-1"
           (request_with_batch_size 1000) 10 "T" ids_schema
           (convert_oracle_to_postgres_schema ids_schema)
           (initial_state tt job_store) tt).
  - reflexivity.
  - vm_compute. reflexivity.
Defined.

Example empty_table_run_leaves_progress_unset :
  exists s',
    run_oracle_to_postgres_migration
      (quiet_connectors (ids_table 0) ids_schema) "migration-1"
      (request_with_batch_size 1000) 10 (initial_state tt job_store)
    = Some (Ok tt, s') /\
    progress_of (events s') = [] /\
    option_map status (dict_lookup "migration-1" (migrations s'))
      = Some "completed" /\
    option_map (option_map details_progress)
               (option_map details (dict_lookup "migration-1" (migrations s')))
      = Some (Some None).
Proof.
  eexists. split; [vm_compute; reflexivity |].
  repeat split.
Qed.

(** C8 in a run: one hundred rows moved 29 at a time; the report after the
    first batch says 28 percent. *)
Example first_batch_of_29_reports_28 :
  exists s',
    migrate_batch (quiet_connectors (ids_table 100) ids_schema) "migration-1"
      (request_with_batch_size 29) "T" ids_schema
      (convert_oracle_to_postgres_schema ids_schema) 100 0 0
      (initial_state tt job_store)
    = Some (Ok (Some (29, 29)), s') /\
    progress_of (events s')
      = [{| progress_table := "T"; rows_processed := 29; total_rows := 100;
            progress_percentage := 28 |}].
Proof.
  eexists. split; [vm_compute; reflexivity |]. reflexivity.
Qed.

(** ** Computations that always return *)

Section Total.
Context {W : Type} (C : Connectors W).
Variable migration_id : string.
Variable request : MigrationRequest.

Definition total {A} (m : M W A) : Prop :=
  forall s, exists r s', m s = Some (r, s').

Lemma total_ret {A} (a : A) : total (ret a).
Proof. intros s. eexists _, _. reflexivity. Qed.

Lemma total_bind {A B} (m : M W A) (f : A -> M W B) :
  total m -> (forall a, total (f a)) -> total (bind m f).
Proof.
  intros Hm Hf s. destruct (Hm s) as [[a | msg] [s1 H1]]; unfold bind;
    rewrite H1.
  - apply Hf.
  - eexists _, _. reflexivity.
Qed.

Lemma total_raise {A} msg : total (@raise W A msg).
Proof. intros s. eexists _, _. reflexivity. Qed.

Lemma total_emit e : total (@emit W e).
Proof. intros s. eexists _, _. reflexivity. Qed.

Lemma total_modify f : total (@modify W f).
Proof. intros s. eexists _, _. reflexivity. Qed.

Lemma total_get_migration_log : total (@get_migration_log W).
Proof. intros s. eexists _, _. reflexivity. Qed.

Lemma total_lift_result {A} (x : Result A) : total (@lift_result W A x).
Proof. destruct x; [apply total_ret | apply total_raise]. Qed.

Lemma total_call {A} (op : W -> Result A * W) : total (call op).
Proof.
  intros s. unfold call. destruct (op (world s)) as [x w].
  apply total_lift_result.
Qed.

Lemma total_set_status st : total (@set_status W migration_id st).
Proof.
  intros s. unfold set_status.
  destruct (dict_lookup migration_id (migrations s)); [| apply total_raise].
  eexists _, _. reflexivity.
Qed.

Lemma total_update_details f : total (@update_details W migration_id f).
Proof.
  intros s. unfold update_details.
  destruct (dict_lookup migration_id (migrations s)) as [m |];
    [| apply total_raise].
  destruct (details m); [| apply total_raise].
  eexists _, _. reflexivity.
Qed.

Lemma total_set_phase p : total (@set_phase W migration_id p).
Proof.
  apply total_bind; [apply total_update_details | intros; apply total_emit].
Qed.

Lemma total_fetch t l o : total (fetch C t l o).
Proof.
  apply total_bind; [apply total_emit |]. intros _.
  apply total_bind; [apply total_call |]. intros page.
  apply total_bind; [apply total_emit | intros; apply total_ret].
Qed.

Lemma total_insert t data : total (insert C t data).
Proof.
  apply total_bind; [apply total_emit | intros; apply total_call].
Qed.

Lemma total_load_batch t os ps rc off mig page :
  total (load_batch C migration_id request t os ps rc off mig page).
Proof.
  unfold load_batch.
  apply total_bind; [apply total_lift_result |]. intros data.
  apply total_bind; [apply total_insert |]. intros _.
  apply total_bind; [apply total_modify |]. intros _.
  apply total_bind; [apply total_update_details |]. intros _.
  apply total_bind;
    [apply total_bind; [apply total_update_details | intros; apply total_emit]
    |].
  intros _. apply total_bind; [apply total_modify |]. intros _.
  apply total_ret.
Qed.

Lemma total_migrate_batch t os ps rc off mig :
  total (migrate_batch C migration_id request t os ps rc off mig).
Proof.
  unfold migrate_batch.
  apply total_bind; [apply total_fetch |]. intros [| row rest].
  - apply total_ret.
  - apply total_bind; [apply total_load_batch | intros; apply total_ret].
Qed.

Lemma total_select_tables : total (select_tables C request).
Proof.
  unfold select_tables. apply total_bind.
  - destruct (tables request) as [[| t ts] |];
      try apply total_call; apply total_ret.
  - intros all. destruct (exclude_tables request) as [[| e es] |];
      apply total_ret.
Qed.

Lemma total_on_exception msg : total (@on_exception W migration_id msg).
Proof.
  unfold on_exception.
  apply total_bind; [apply total_set_status |]. intros _.
  apply total_bind; [apply total_update_details |]. intros _.
  apply total_set_phase.
Qed.

Lemma total_by_state {A} (f : State W -> M W A) :
  (forall s0, total (f s0)) -> total (fun s => f s s).
Proof. intros H s. apply H. Qed.

Lemma total_disconnect side c : total (disconnect C side c).
Proof.
  unfold disconnect. destruct (connection c); [| apply total_ret].
  apply total_bind; [apply total_emit |]. intros _.
  apply total_bind; [apply total_call | intros; apply total_ret].
Qed.

Lemma total_cleanup : total (cleanup C).
Proof.
  unfold cleanup. apply total_bind.
  - apply (total_by_state
             (fun s0 => match oracle s0 with
                        | Some c => c' <- disconnect C OracleSide c ;;
                                    modify (set_oracle (Some c'))
                        | None => ret tt
                        end)).
    intros s0. destruct (oracle s0); [| apply total_ret].
    apply total_bind; [apply total_disconnect | intros; apply total_modify].
  - intros _.
    apply (total_by_state
             (fun s0 => match postgres s0 with
                        | Some c => c' <- disconnect C PostgresSide c ;;
                                    modify (set_postgres (Some c'))
                        | None => ret tt
                        end)).
    intros s0. destruct (postgres s0); [| apply total_ret].
    apply total_bind; [apply total_disconnect | intros; apply total_modify].
Qed.

(** With a positive batch size the loop needs at most as many turns as
    there are rows left to count. *)
Lemma migrate_batches_returns t os ps rc :
  0 < batch_size request ->
  forall fuel off mig s,
    (Z.to_nat (rc - off) <= fuel)%nat ->
    exists r s',
      migrate_batches C migration_id request fuel t os ps rc off mig s
        = Some (r, s').
Proof.
  intros Hb. induction fuel as [| fuel IH]; intros off mig s Hfuel; simpl.
  - destruct (off <? rc) eqn:E; [| eexists _, _; reflexivity].
    apply Z.ltb_lt in E. lia.
  - destruct (off <? rc) eqn:E; [| eexists _, _; reflexivity].
    apply Z.ltb_lt in E. unfold bind.
    destruct (total_migrate_batch t os ps rc off mig s) as [r [s1 H1]].
    rewrite H1. destruct r as [[[off' mig'] |] | msg];
      try (eexists _, _; reflexivity).
    pose proof (migrate_batch_offset C migration_id request
                  _ _ _ _ _ _ _ _ _ _ H1) as Hoff.
    apply IH. lia.
Qed.

End Total.

(** ** The ROWNUM query is a slice of the ordered rows *)

Lemma number_rows_window {A} (rows : list A) :
  forall n end_row start_row,
    map fst
      (filter (fun p => start_row <? snd p)
         (filter (fun p => snd p <=? end_row) (number_rows n rows)))
    = firstn (Z.to_nat (end_row - n + 1) - Z.to_nat (start_row - n + 1))
             (skipn (Z.to_nat (start_row - n + 1)) rows).
Proof.
  induction rows as [| r rest IH]; intros n e st; simpl.
  - rewrite skipn_nil, firstn_nil. reflexivity.
  - destruct (n <=? e) eqn:E1; simpl.
    + apply Z.leb_le in E1. destruct (st <? n) eqn:E2; simpl; rewrite IH.
      * apply Z.ltb_lt in E2.
        replace (Z.to_nat (st - n + 1)) with 0%nat by lia.
        replace (Z.to_nat (st - (n + 1) + 1)) with 0%nat by lia.
        replace (Z.to_nat (e - n + 1) - 0)%nat
          with (S (Z.to_nat (e - (n + 1) + 1) - 0)) by lia.
        reflexivity.
      * apply Z.ltb_ge in E2.
        replace (Z.to_nat (st - n + 1))
          with (S (Z.to_nat (st - (n + 1) + 1))) by lia.
        simpl skipn.
        replace (Z.to_nat (e - n + 1) - S (Z.to_nat (st - (n + 1) + 1)))%nat
          with (Z.to_nat (e - (n + 1) + 1) - Z.to_nat (st - (n + 1) + 1))%nat
          by lia.
        reflexivity.
    + apply Z.leb_gt in E1. rewrite IH.
      replace (Z.to_nat (e - (n + 1) + 1) - Z.to_nat (st - (n + 1) + 1))%nat
        with 0%nat by lia.
      replace (Z.to_nat (e - n + 1) - Z.to_nat (st - n + 1))%nat
        with 0%nat by lia.
      reflexivity.
Qed.

Lemma rownum_page_slice {A} (rows : list A) (batch offset : Z) :
  0 <= offset -> 0 <= batch ->
  rownum_page rows (offset + batch) offset
  = firstn (Z.to_nat batch) (skipn (Z.to_nat offset) rows).
Proof.
  intros Ho Hb. unfold rownum_page. rewrite number_rows_window.
  replace (Z.to_nat (offset - 1 + 1)) with (Z.to_nat offset) by lia.
  replace (Z.to_nat (offset + batch - 1 + 1) - Z.to_nat offset)%nat
    with (Z.to_nat batch) by lia.
  reflexivity.
Qed.

(** The rows of a table as [fetch_data] hands them out, in order. *)
Definition table_dicts (tbl : OracleTable) : list Row :=
  map (row_dict (tbl_column_names tbl)) (tbl_rows tbl).

Lemma fetch_data_slice (tbl : OracleTable) (batch offset : Z) :
  0 <= offset -> 0 <= batch ->
  fetch_data tbl batch offset
  = firstn (Z.to_nat batch) (skipn (Z.to_nat offset) (table_dicts tbl)).
Proof.
  intros Ho Hb. unfold fetch_data, table_dicts.
  rewrite rownum_page_slice by assumption.
  rewrite skipn_map, firstn_map. reflexivity.
Qed.

Example fetch_data_second_page :
  fetch_data (ids_table 3) 2 2 = [[("ID", PyScalar (SInt 3))]].
Proof. reflexivity. Qed.

(** A batch size of zero fetches nothing. *)
Example fetch_data_batch_zero : fetch_data (ids_table 3) 0 0 = [].
Proof. reflexivity. Qed.

(** ** The loop over a table at rest *)

Lemma bind_ok_eq {W A B} (m : M W A) (f : A -> M W B) s a s1 :
  m s = Some (Ok a, s1) -> bind m f s = f a s1.
Proof. intros H. unfold bind. rewrite H. reflexivity. Qed.

Lemma bind_raise_eq {W A B} (m : M W A) (f : A -> M W B) s msg s1 :
  m s = Some (Raise msg, s1) -> bind m f s = Some (Raise msg, s1).
Proof. intros H. unfold bind. rewrite H. reflexivity. Qed.

Example three_rows_in_two_pages :
  exists s',
    migrate_table_data (quiet_connectors (ids_table 3) ids_schema)
      "migration-1" (request_with_batch_size 2) 3 "T" ids_schema
      (convert_oracle_to_postgres_schema ids_schema)
      (initial_state tt job_store) = Some (Ok (4, 3), s') /\
    pages_of (events s')
      = [[[("ID", PyScalar (SInt 1))]; [("ID", PyScalar (SInt 2))]];
         [[("ID", PyScalar (SInt 3))]]] /\
    fetch_offsets_of (events s') = [0; 2].
Proof.
  eexists. split; [vm_compute; reflexivity |]. split; reflexivity.
Qed.

(** C1, as stated, fails: with a batch size of zero, which the code
    accepts, the transfer of a table of three distinct rows runs to its end
    without an exception, and the one page it fetched is empty: no row has
    been visited. *)
Lemma batch_size_zero_moves_nothing :
  exists s',
    migrate_table_data (quiet_connectors (ids_table 3) ids_schema)
      "migration-1" (request_with_batch_size 0) 3 "T" ids_schema
      (convert_oracle_to_postgres_schema ids_schema)
      (initial_state tt job_store) = Some (Ok (0, 0), s') /\
    pages_of (events s') = [[]] /\
    table_row_count (ids_table 3) = 3 /\
    List.length (table_dicts (ids_table 3)) = 3%nat /\
    NoDup (table_dicts (ids_table 3)).
Proof.
  eexists. split; [vm_compute; reflexivity |].
  split; [reflexivity |]. split; [reflexivity |]. split; [reflexivity |].
  repeat constructor; simpl; intuition discriminate.
Qed.

(** ** The phases written by a run *)

(** The order of the phases; [failed] stands above all. *)
Definition phase_rank (p : Phase) : nat :=
  match p with
  | schema_analysis => 0
  | type_conversion => 1
  | data_migration => 2
  | plsql_conversion => 3
  | validation => 4
  | completed => 5
  | failed => 6
  end.

(** A step forward in the order, or to [failed]; none from [failed]. *)
Definition forward_step (p q : Phase) : Prop :=
  p <> failed /\ (phase_rank p <= phase_rank q)%nat.

(** The steps a run takes: forward, or back from [data_migration] to
    [type_conversion] when the next table starts. *)
Definition run_step (p q : Phase) : Prop :=
  forward_step p q \/ (p = data_migration /\ q = type_conversion).

(** Every phase and the one written next are related by [step]. *)
Fixpoint chain (step : Phase -> Phase -> Prop) (l : list Phase) : Prop :=
  match l with
  | p :: rest =>
      match rest with
      | q :: _ => step p q
      | [] => True
      end /\ chain step rest
  | [] => True
  end.

Definition last_phase (l : list Phase) : option Phase :=
  last (map Some l) None.

Lemma last_phase_snoc l q : last_phase (l ++ [q]) = Some q.
Proof. unfold last_phase. rewrite map_app. apply last_last. Qed.

Lemma chain_snoc step l q :
  chain step l ->
  (forall p, last_phase l = Some p -> step p q) ->
  chain step (l ++ [q]).
Proof.
  induction l as [| p rest IH]; intros Hc Hlast; simpl.
  - split; exact Logic.I.
  - destruct Hc as [Hhead Hrest]. destruct rest as [| p' rest'].
    + simpl. split; [apply Hlast; reflexivity | split; exact Logic.I].
    + split; [exact Hhead |]. apply IH; [exact Hrest |].
      intros p0 Hp0. apply Hlast. exact Hp0.
Qed.

Lemma chain_failed_last l :
  chain run_step l ->
  forall l1 l2, l = (l1 ++ failed :: l2)%list -> l2 = [].
Proof.
  intros Hc l1. revert l Hc. induction l1 as [| p l1 IH]; intros l Hc l2 Hl;
    subst l.
  - destruct l2 as [| q l2]; [reflexivity |].
    destruct Hc as [[[Hnf _] | [Hdm _]] _]; [congruence | discriminate].
  - destruct Hc as [_ Hc]. eapply IH; [exact Hc | reflexivity].
Qed.

Section PhaseLogic.
Context {W : Type} (C : Connectors W).
Variable migration_id : string.
Variable request : MigrationRequest.

(** The phases written so far form a chain of run steps, and the last of
    them ([None] before the first) is in [A]. *)
Definition phases_ok (A : option Phase -> Prop) (s : State W) : Prop :=
  chain run_step (phases_of (events s)) /\
  A (last_phase (phases_of (events s))).

Definition not_failed (o : option Phase) : Prop := o <> Some failed.

Definition quiet (e : Event) : Prop := phase_of_event e = [].

Lemma phases_of_add_event e (s : State W) :
  phases_of (events (add_event e s))
  = (phases_of (events s) ++ phase_of_event e)%list.
Proof. exact (proj_add_event phase_of_event e s). Qed.

Lemma phases_ok_event A e (s : State W) :
  quiet e -> phases_ok A s -> phases_ok A (add_event e s).
Proof.
  unfold quiet, phases_ok. intros He H.
  rewrite phases_of_add_event, He, app_nil_r. exact H.
Qed.

Lemma phases_ok_weaken (A B : option Phase -> Prop) (s : State W) :
  (forall o, A o -> B o) -> phases_ok A s -> phases_ok B s.
Proof. intros HAB [Hc Ha]. split; [exact Hc | apply HAB, Ha]. Qed.

(** [m] takes a state whose last phase is in [A] to one whose last phase is
    in [B], or raises with no [failed] written. *)
Definition triple (A B : option Phase -> Prop) {T} (m : M W T) : Prop :=
  forall s, phases_ok A s ->
            wlp m (fun _ s' => phases_ok B s')
                (fun _ s' => phases_ok not_failed s') s.

Lemma triple_bind A B D {T U} (m : M W T) (f : T -> M W U) :
  triple A B m -> (forall a, triple B D (f a)) -> triple A D (bind m f).
Proof.
  intros Hm Hf s Hs. apply wlp_bind.
  eapply wlp_weaken; [apply Hm, Hs | | auto].
  intros a s' Hs'. apply Hf, Hs'.
Qed.

Lemma triple_weaken (A B B' : option Phase -> Prop) {T} (m : M W T) :
  triple A B m -> (forall o, B o -> B' o) -> triple A B' m.
Proof.
  intros Hm HB s Hs. eapply wlp_weaken; [apply Hm, Hs | | auto].
  intros a s' Hs'. eapply phases_ok_weaken; [exact HB | exact Hs'].
Qed.

Lemma triple_ret A {T} (a : T) : triple A A (ret a).
Proof. intros s Hs. apply wlp_ret, Hs. Qed.

(** A computation that writes no phase. *)
Lemma triple_keeps A {T} (m : M W T) :
  keeps (phases_ok A) (fun _ => phases_ok not_failed) m -> triple A A m.
Proof. intros H. exact H. Qed.

Lemma triple_set_phase (A B : option Phase -> Prop) (q : Phase) :
  (forall o, A o -> not_failed o) ->
  (forall p, A (Some p) -> run_step p q) ->
  B (Some q) ->
  triple A B (set_phase migration_id q).
Proof.
  intros Hnf Hstep Hq s [Hc Ha]. unfold set_phase.
  apply wlp_bind, wlp_update_details.
  - intros m d _ _. apply wlp_emit. split.
    + rewrite phases_of_add_event. simpl. apply chain_snoc; [exact Hc |].
      intros p Hp. apply Hstep. simpl in Hp. rewrite <- Hp. exact Ha.
    + rewrite phases_of_add_event. simpl. rewrite last_phase_snoc. exact Hq.
  - intros msg. apply phases_ok_event; [reflexivity |].
    split; [exact Hc | apply Hnf, Ha].
Qed.

End PhaseLogic.

Section PhaseRun.
Context {W : Type} (C : Connectors W).
Variable migration_id : string.
Variable request : MigrationRequest.

Definition at_phase (p : Phase) (o : option Phase) : Prop := o = Some p.

(** The last phase while the tables are being worked through. *)
Definition in_tables (o : option Phase) : Prop :=
  o = Some schema_analysis \/ o = Some type_conversion \/
  o = Some data_migration.

Lemma phases_ok_fault A msg (s : State W) :
  (forall o, A o -> not_failed o) ->
  phases_ok A s -> phases_ok not_failed (add_event (EvFault msg) s).
Proof.
  intros Hnf H. apply phases_ok_event; [reflexivity |].
  eapply phases_ok_weaken; [exact Hnf | exact H].
Qed.

Lemma at_phase_not_failed p : p <> failed -> forall o, at_phase p o -> not_failed o.
Proof. intros Hp o Ho. unfold at_phase in Ho. subst o. congruence. Qed.

Lemma in_tables_not_failed o : in_tables o -> not_failed o.
Proof. intros [H | [H | H]]; subst o; discriminate. Qed.

Ltac phase_side Hnf :=
  first
    [ solve [intros; assumption]
    | solve [intros; apply phases_ok_event; assumption]
    | solve [intros; eapply phases_ok_fault; [exact Hnf | assumption]]
    | solve [intros; reflexivity] ].

Section Quiet.
Variable A : option Phase -> Prop.
Hypothesis A_not_failed : forall o, A o -> not_failed o.

Lemma quiet_call {T} (op : W -> Result T * W) : triple A A (call op).
Proof. apply triple_keeps. eapply keeps_call; phase_side A_not_failed. Qed.

Lemma quiet_append_log line : triple A A (@append_log W line).
Proof. apply triple_keeps. eapply keeps_append_log; phase_side A_not_failed. Qed.

Lemma quiet_update_details f : triple A A (@update_details W migration_id f).
Proof.
  apply triple_keeps. eapply keeps_update_details; phase_side A_not_failed.
Qed.

Lemma quiet_update_stats f : triple A A (@update_stats W migration_id f).
Proof.
  apply triple_keeps. eapply keeps_update_stats; phase_side A_not_failed.
Qed.

Lemma quiet_set_status st : triple A A (@set_status W migration_id st).
Proof.
  apply triple_keeps. eapply keeps_set_status; phase_side A_not_failed.
Qed.

Lemma quiet_set_oracle c : triple A A (@modify W (set_oracle c)).
Proof. apply triple_keeps. eapply keeps_set_oracle; phase_side A_not_failed. Qed.

Lemma quiet_set_postgres c : triple A A (@modify W (set_postgres c)).
Proof.
  apply triple_keeps. eapply keeps_set_postgres; phase_side A_not_failed.
Qed.

Lemma quiet_set_migration_log l : triple A A (@modify W (set_migration_log l)).
Proof.
  apply triple_keeps. eapply keeps_set_migration_log; phase_side A_not_failed.
Qed.

Lemma quiet_get_migration_log : triple A A (@get_migration_log W).
Proof.
  apply triple_keeps. eapply keeps_get_migration_log; phase_side A_not_failed.
Qed.

Lemma quiet_oracle_connect : triple A A (oracle_connect C).
Proof.
  apply triple_keeps. eapply keeps_oracle_connect; phase_side A_not_failed.
Qed.

Lemma quiet_postgres_connect : triple A A (postgres_connect C).
Proof.
  apply triple_keeps. eapply keeps_postgres_connect; phase_side A_not_failed.
Qed.

Lemma quiet_select_tables : triple A A (select_tables C request).
Proof.
  apply triple_keeps. eapply keeps_select_tables; phase_side A_not_failed.
Qed.

Lemma quiet_migrate_batches fuel t os ps rc off mig :
  triple A A (migrate_batches C migration_id request fuel t os ps rc off mig).
Proof.
  apply triple_keeps.
  eapply (keeps_migrate_batches C _ _ quiet); phase_side A_not_failed.
Qed.

End Quiet.

Lemma triple_migrate_table fuel t :
  triple in_tables in_tables (migrate_table C migration_id request fuel t).
Proof.
  unfold migrate_table.
  eapply triple_bind; [apply quiet_append_log |].
  intros _.
  eapply triple_bind; [apply quiet_call, in_tables_not_failed |]. intros os.
  eapply triple_bind.
  { apply (triple_set_phase migration_id in_tables (at_phase type_conversion)).
    - exact in_tables_not_failed.
    - intros p [H | [H | H]]; injection H as ->.
      + left. split; [discriminate | simpl; lia].
      + left. split; [discriminate | simpl; lia].
      + right. split; reflexivity.
    - reflexivity. }
  intros _.
  assert (Htc : forall o, at_phase type_conversion o -> not_failed o)
    by (apply at_phase_not_failed; discriminate).
  eapply triple_bind; [apply quiet_update_details, Htc |]. intros _.
  eapply triple_bind; [apply quiet_call, Htc |]. intros _.
  eapply triple_bind; [apply quiet_update_stats |]. intros _.
  eapply triple_bind; [apply quiet_update_stats |]. intros _.
  eapply triple_bind; [apply quiet_update_details, Htc |]. intros _.
  destruct (only_schema request).
  - eapply triple_weaken; [apply triple_ret |].
    intros o Ho. right. left. exact Ho.
  - assert (Hdm : forall o, at_phase data_migration o -> not_failed o)
      by (apply at_phase_not_failed; discriminate).
    eapply triple_bind; [| intros; apply triple_ret].
    unfold migrate_table_data.
    eapply triple_bind.
    { apply (triple_set_phase migration_id (at_phase type_conversion)
               (at_phase data_migration)).
      - exact Htc.
      - intros p H. injection H as ->. left.
        split; [discriminate | simpl; lia].
      - reflexivity. }
    intros _.
    eapply triple_bind; [apply quiet_call, Hdm |]. intros rc.
    eapply triple_weaken; [apply quiet_migrate_batches, Hdm |].
    intros o Ho. right. right. exact Ho.
Qed.

Lemma triple_migrate_tables fuel names :
  triple in_tables in_tables
         (migrate_tables C migration_id request fuel names).
Proof.
  induction names as [| t rest IH]; simpl; [apply triple_ret |].
  eapply triple_bind; [apply triple_migrate_table | intros _; exact IH].
Qed.

Lemma triple_migration_body fuel :
  triple (at_phase schema_analysis) (at_phase completed)
         (migration_body C migration_id request fuel).
Proof.
  assert (Hsa : forall o, at_phase schema_analysis o -> not_failed o)
    by (apply at_phase_not_failed; discriminate).
  assert (Hpl : forall o, at_phase plsql_conversion o -> not_failed o)
    by (apply at_phase_not_failed; discriminate).
  assert (Hva : forall o, at_phase validation o -> not_failed o)
    by (apply at_phase_not_failed; discriminate).
  assert (Hco : forall o, at_phase completed o -> not_failed o)
    by (apply at_phase_not_failed; discriminate).
  unfold migration_body.
  eapply triple_bind; [apply quiet_call, Hsa |]. intros _.
  eapply triple_bind; [apply quiet_set_oracle |]. intros _.
  eapply triple_bind; [apply quiet_oracle_connect, Hsa |]. intros _.
  eapply triple_bind; [apply quiet_set_postgres |]. intros _.
  eapply triple_bind; [apply quiet_postgres_connect, Hsa |]. intros _.
  eapply triple_bind; [apply quiet_select_tables, Hsa |]. intros names.
  eapply triple_bind; [apply quiet_set_migration_log |]. intros _.
  eapply triple_bind; [apply quiet_update_details, Hsa |]. intros _.
  eapply triple_bind with (B := in_tables).
  { eapply triple_weaken; [apply quiet_update_details, Hsa |].
    intros o Ho. left. exact Ho. }
  intros _.
  eapply triple_bind; [apply triple_migrate_tables |]. intros _.
  eapply triple_bind.
  { apply (triple_set_phase migration_id in_tables
             (at_phase plsql_conversion)).
    - exact in_tables_not_failed.
    - intros p [H | [H | H]]; injection H as ->; left;
        (split; [discriminate | simpl; lia]).
    - reflexivity. }
  intros _.
  eapply triple_bind.
  { apply (triple_set_phase migration_id (at_phase plsql_conversion)
             (at_phase validation)).
    - exact Hpl.
    - intros p H. injection H as ->. left.
      split; [discriminate | simpl; lia].
    - reflexivity. }
  intros _.
  eapply triple_bind; [apply quiet_set_status, Hva |]. intros _.
  eapply triple_bind.
  { apply (triple_set_phase migration_id (at_phase validation)
             (at_phase completed)).
    - exact Hva.
    - intros p H. injection H as ->. left.
      split; [discriminate | simpl; lia].
    - reflexivity. }
  intros _.
  eapply triple_bind; [apply quiet_get_migration_log |]. intros lines.
  eapply triple_bind; [apply quiet_update_details, Hco |]. intros _.
  apply quiet_update_details, Hco.
Qed.

Lemma triple_on_exception msg :
  triple not_failed (fun _ => True) (@on_exception W migration_id msg).
Proof.
  unfold on_exception.
  eapply triple_bind; [apply quiet_set_status; auto |]. intros _.
  eapply triple_bind; [apply quiet_update_details; auto |]. intros _.
  apply (triple_set_phase migration_id not_failed (fun _ => True)).
  - auto.
  - intros p Hp. left. split.
    + intros Hf. apply Hp. subst p. reflexivity.
    + destruct p; simpl; lia.
  - exact Logic.I.
Qed.

End PhaseRun.

Lemma wlp_try_except_finally {W} (body : M W unit)
    (handler : string -> M W unit) (final : M W unit) Q E (s : State W) :
  wlp body
      (fun _ s1 => wlp final Q E s1)
      (fun msg s1 =>
         wlp (handler msg)
             (fun _ s2 => wlp final Q E s2)
             (fun msg' s2 => wlp final (fun _ s3 => E msg' s3) E s2) s1) s ->
  wlp (try_except_finally body handler final) Q E s.
Proof.
  intros H r s' Hrun. unfold try_except_finally in Hrun.
  destruct (body s) as [[[u | msg] s1] |] eqn:Hb; [| | discriminate].
  - exact (H _ _ Hb _ _ Hrun).
  - specialize (H _ _ Hb). simpl in H.
    destruct (handler msg s1) as [[[u | msg'] s2] |] eqn:Hh; [| | discriminate].
    + exact (H _ _ Hh _ _ Hrun).
    + specialize (H _ _ Hh). simpl in H.
      destruct (final s2) as [[[u | msg''] s3] |] eqn:Hf; [| | discriminate];
        inversion Hrun; subst; exact (H _ _ Hf).
Qed.

Section PhaseTheorem.
Context {W : Type} (C : Connectors W).
Variable migration_id : string.
Variable request : MigrationRequest.

Definition any_phase (o : option Phase) : Prop := True.

(** The [finally] block writes no phase, whether it returns or raises. *)
Lemma cleanup_writes_no_phase B (s : State W) :
  phases_ok B s ->
  wlp (cleanup C) (fun _ s' => phases_ok any_phase s')
      (fun _ s' => phases_ok any_phase s') s.
Proof.
  intros Hs.
  assert (Ha : phases_ok any_phase s)
    by (eapply phases_ok_weaken; [| exact Hs]; intros; exact Logic.I).
  clear Hs. revert s Ha.
  apply (keeps_cleanup C (phases_ok any_phase) (fun _ => phases_ok any_phase)
           quiet);
    first
      [ solve [intros; assumption]
      | solve [intros; apply phases_ok_event; assumption]
      | solve [intros; apply phases_ok_event; [reflexivity | assumption]]
      | solve [intros; reflexivity] ].
Qed.

Lemma run_phases fuel (s : State W) :
  phases_ok (fun o => o = None) s ->
  wlp (run_oracle_to_postgres_migration C migration_id request fuel)
      (fun _ s' => phases_ok any_phase s')
      (fun _ s' => phases_ok any_phase s') s.
Proof.
  assert (Hstart : forall o : option Phase, o = None -> not_failed o)
    by (intros o ->; discriminate).
  assert (Hany : forall (B : option Phase -> Prop) (s0 : State W),
            phases_ok B s0 -> phases_ok any_phase s0).
  { intros B s0 H. eapply phases_ok_weaken; [| exact H].
    intros; exact Logic.I. }
  intros Hs. unfold run_oracle_to_postgres_migration.
  apply wlp_bind.
  eapply wlp_weaken;
    [apply (quiet_set_status migration_id _ Hstart), Hs | | intros ? ? H0; exact (Hany _ _ H0)].
  intros u0 s0 Hs0. apply wlp_bind.
  eapply wlp_weaken;
    [apply (triple_set_phase migration_id (fun o => o = None)
              (at_phase schema_analysis));
     [exact Hstart | intros p Hp; discriminate | reflexivity | exact Hs0]
    | | intros ? ? H0; exact (Hany _ _ H0)].
  intros u1 s1 Hs1. apply wlp_try_except_finally.
  eapply wlp_weaken; [apply (triple_migration_body C), Hs1 | |].
  - intros u s2 Hs2. exact (cleanup_writes_no_phase _ s2 Hs2).
  - intros msg s2 Hs2.
    eapply wlp_weaken; [apply (triple_on_exception migration_id msg), Hs2 | |].
    + intros u s3 Hs3. exact (cleanup_writes_no_phase _ s3 Hs3).
    + intros msg' s3 Hs3.
      eapply wlp_weaken; [exact (cleanup_writes_no_phase _ s3 Hs3) | |];
        intros; assumption.
Qed.

End PhaseTheorem.

(** C5, amended: across every run that returns, each phase written and the
    one written after it are a step forward in the order schema_analysis,
    type_conversion, data_migration, plsql_conversion (the name the code
    gives to procedure_conversion), validation, completed, or a step from
    any of these to failed, or the step back from data_migration to
    type_conversion that starts the next table; and nothing is written after
    failed. *)
Theorem phases_move_forward_or_restart_per_table {W} (C : Connectors W)
    (migration_id : string) (request : MigrationRequest) (fuel : nat)
    (w : W) (store : PyDict Migration) r s' :
  run_oracle_to_postgres_migration C migration_id request fuel
    (initial_state w store) = Some (r, s') ->
  chain run_step (phases_of (events s')) /\
  forall before later,
    phases_of (events s') = (before ++ failed :: later)%list -> later = [].
Proof.
  intros Hrun.
  assert (Hc : chain run_step (phases_of (events s'))).
  { assert (Hinit : phases_ok (fun o => o = None) (initial_state w store))
      by (split; [exact Logic.I | reflexivity]).
    pose proof (run_phases C migration_id request fuel
                  (initial_state w store) Hinit r s' Hrun) as H.
    destruct r; destruct H as [H _]; exact H. }
  split; [exact Hc |].
  intros before later Heq. eapply chain_failed_last; [exact Hc | exact Heq].
Qed.

(** A job over the tables T and U, which the quiet connectors both answer
    with the same rows. *)
Definition two_tables_request : MigrationRequest :=
  {| tables := Some ["T"; "U"]; exclude_tables := None;
     only_schema := false; batch_size := 2 |}.

(** C5, as stated, fails: with two tables the phases go back from
    data_migration to type_conversion. *)
Lemma second_table_steps_back :
  exists s',
    run_oracle_to_postgres_migration
      (quiet_connectors (ids_table 3) ids_schema) "migration-1"
      two_tables_request 3 (initial_state tt job_store) = Some (Ok tt, s') /\
    phases_of (events s')
      = [schema_analysis; type_conversion; data_migration;
         type_conversion; data_migration;
         plsql_conversion; validation; completed] /\
    ~ chain forward_step (phases_of (events s')).
Proof.
  eexists. split; [vm_compute; reflexivity |].
  split; [reflexivity |].
  simpl. intros [_ [_ [[_ Hle] _]]]. simpl in Hle. lia.
Qed.

Lemma phases_move_forward_or_restart_per_table_witness :
  exists s',
    run_oracle_to_postgres_migration
      (quiet_connectors (ids_table 3) ids_schema) "migration-1"
      two_tables_request 3 (initial_state tt job_store) = Some (Ok tt, s') /\
    (chain run_step (phases_of (events s')) /\
     forall before later,
       phases_of (events s') = (before ++ failed :: later)%list ->
       later = []).
Proof.
  eexists. split; [vm_compute; reflexivity |].
  apply (phases_move_forward_or_restart_per_table
           (quiet_connectors (ids_table 3) ids_schema) "migration-1"
           two_tables_request 3 tt job_store (Ok tt)).
  vm_compute. reflexivity.
Defined.

(** ** Runs return *)

Section Settles.
Context {W : Type} (C : Connectors W).
Variable migration_id : string.
Variable request : MigrationRequest.

(** From some number of turns on, [m] returns, and always the same. *)
Definition settles {A} (m : nat -> M W A) (s : State W) : Prop :=
  exists N r s', forall fuel, (N <= fuel)%nat -> m fuel s = Some (r, s').

Lemma settles_const {A} (m : M W A) s : total m -> settles (fun _ => m) s.
Proof.
  intros Hm. destruct (Hm s) as [r [s' H]]. exists 0%nat, r, s'.
  intros fuel _. exact H.
Qed.

Lemma settles_bind {A B} (m : nat -> M W A) (k : nat -> A -> M W B) s :
  settles m s ->
  (forall a s1, settles (fun fuel => k fuel a) s1) ->
  settles (fun fuel => bind (m fuel) (k fuel)) s.
Proof.
  intros [N1 [r1 [s1 H1]]] Hk. destruct r1 as [a | msg].
  - destruct (Hk a s1) as [N2 [r2 [s2 H2]]].
    exists (Nat.max N1 N2), r2, s2. intros fuel Hfuel.
    rewrite (bind_ok_eq _ _ _ _ _ (H1 fuel ltac:(lia))).
    apply H2. lia.
  - exists N1, (Raise msg), s1. intros fuel Hfuel.
    apply bind_raise_eq, H1, Hfuel.
Qed.

Lemma migrate_batches_mono t os ps rc :
  forall fuel fuel' off mig s x,
    (fuel <= fuel')%nat ->
    migrate_batches C migration_id request fuel t os ps rc off mig s = Some x ->
    migrate_batches C migration_id request fuel' t os ps rc off mig s = Some x.
Proof.
  induction fuel as [| fuel IH]; intros fuel' off mig s x Hle Hrun.
  - simpl in Hrun. destruct (off <? rc) eqn:E; [discriminate |].
    destruct fuel'; simpl; rewrite E; exact Hrun.
  - destruct fuel' as [| fuel']; [lia |].
    simpl in *. destruct (off <? rc); [| exact Hrun].
    unfold bind in *.
    destruct (migrate_batch C migration_id request t os ps rc off mig s)
      as [[[[[off' mig'] |] | msg] s1] |]; try exact Hrun.
    apply IH; [lia | exact Hrun].
Qed.

Hypothesis batch_size_positive : 0 < batch_size request.

Lemma settles_migrate_batches t os ps rc off mig s :
  settles (fun fuel =>
             migrate_batches C migration_id request fuel t os ps rc off mig) s.
Proof.
  destruct (migrate_batches_returns C migration_id request t os ps rc
              batch_size_positive (Z.to_nat (rc - off)) off mig s (le_n _))
    as [r [s' H]].
  exists (Z.to_nat (rc - off)), r, s'. intros fuel Hfuel.
  eapply migrate_batches_mono; [exact Hfuel | exact H].
Qed.

Lemma settles_migrate_table t s :
  settles (fun fuel => migrate_table C migration_id request fuel t) s.
Proof.
  unfold migrate_table.
  apply settles_bind; [apply settles_const, total_modify |]. intros _ s1.
  apply settles_bind; [apply settles_const, total_call |]. intros os s2.
  apply settles_bind; [apply settles_const, total_set_phase |]. intros _ s3.
  apply settles_bind; [apply settles_const, total_update_details |].
  intros _ s4.
  apply settles_bind; [apply settles_const, total_call |]. intros _ s5.
  apply settles_bind; [apply settles_const, total_modify |]. intros _ s6.
  apply settles_bind; [apply settles_const, total_modify |]. intros _ s7.
  apply settles_bind; [apply settles_const, total_update_details |].
  intros _ s8.
  destruct (only_schema request); [apply settles_const, total_ret |].
  apply settles_bind; [| intros; apply settles_const, total_ret].
  unfold migrate_table_data.
  apply settles_bind; [apply settles_const, total_set_phase |]. intros _ s9.
  apply settles_bind; [apply settles_const, total_call |]. intros rc s10.
  apply settles_migrate_batches.
Qed.

Lemma settles_migrate_tables names :
  forall s,
    settles (fun fuel => migrate_tables C migration_id request fuel names) s.
Proof.
  induction names as [| t rest IH]; intros s; simpl.
  - apply settles_const, total_ret.
  - apply settles_bind; [apply settles_migrate_table | intros _ s1; apply IH].
Qed.

Lemma settles_migration_body s :
  settles (fun fuel => migration_body C migration_id request fuel) s.
Proof.
  unfold migration_body.
  apply settles_bind; [apply settles_const, total_call |]. intros _ s1.
  apply settles_bind; [apply settles_const, total_modify |]. intros _ s2.
  apply settles_bind.
  { apply settles_const, total_bind;
      [apply total_call | intros; apply total_modify]. }
  intros _ s3.
  apply settles_bind; [apply settles_const, total_modify |]. intros _ s4.
  apply settles_bind.
  { apply settles_const, total_bind;
      [apply total_call | intros; apply total_modify]. }
  intros _ s5.
  apply settles_bind; [apply settles_const, total_select_tables |].
  intros names s6.
  apply settles_bind; [apply settles_const, total_modify |]. intros _ s7.
  apply settles_bind; [apply settles_const, total_update_details |].
  intros _ s8.
  apply settles_bind; [apply settles_const, total_update_details |].
  intros _ s9.
  apply settles_bind; [apply settles_migrate_tables |]. intros _ s10.
  apply settles_const.
  apply total_bind; [apply total_set_phase |]. intros _.
  apply total_bind; [apply total_set_phase |]. intros _.
  apply total_bind; [apply total_set_status |]. intros _.
  apply total_bind; [apply total_set_phase |]. intros _.
  apply total_bind; [apply total_get_migration_log |]. intros lines.
  apply total_bind; [apply total_update_details |]. intros _.
  apply total_update_details.
Qed.

Lemma settles_try_except_finally (body : nat -> M W unit) handler final s :
  settles body s -> (forall msg, total (handler msg)) -> total final ->
  settles (fun fuel => try_except_finally (body fuel) handler final) s.
Proof.
  intros [N [r [s1 Hb]]] Hh Hf.
  assert (Hres : exists r' s',
             forall fuel, (N <= fuel)%nat ->
                          try_except_finally (body fuel) handler final s
                          = Some (r', s')).
  { destruct r as [u | msg].
    - destruct (Hf s1) as [r' [s' H]]. exists r', s'. intros fuel Hfuel.
      unfold try_except_finally. rewrite (Hb fuel Hfuel). exact H.
    - destruct (Hh msg s1) as [[u | msg'] [s2 H2]].
      + destruct (Hf s2) as [r' [s' H]]. exists r', s'. intros fuel Hfuel.
        unfold try_except_finally. rewrite (Hb fuel Hfuel), H2. exact H.
      + destruct (Hf s2) as [[u | msg''] [s' H]].
        * exists (Raise msg'), s'. intros fuel Hfuel.
          unfold try_except_finally. rewrite (Hb fuel Hfuel), H2, H.
          reflexivity.
        * exists (Raise msg''), s'. intros fuel Hfuel.
          unfold try_except_finally. rewrite (Hb fuel Hfuel), H2, H.
          reflexivity. }
  destruct Hres as [r' [s' H]]. exists N, r', s'. exact H.
Qed.

Lemma settles_run s :
  settles (fun fuel =>
             run_oracle_to_postgres_migration C migration_id request fuel) s.
Proof.
  unfold run_oracle_to_postgres_migration.
  apply settles_bind; [apply settles_const, total_set_status |]. intros _ s1.
  apply settles_bind; [apply settles_const, total_set_phase |]. intros _ s2.
  apply settles_try_except_finally.
  - apply settles_migration_body.
  - intros msg. apply total_on_exception.
  - apply total_cleanup.
Qed.

End Settles.

(** ** Faults and cleanup *)

Section Faults.
Context {W : Type} (C : Connectors W).
Variable migration_id : string.
Variable request : MigrationRequest.

(** The record of the job is in the store and its details are a
    dictionary. *)
Definition job_ok (s : State W) : Prop :=
  exists m d, dict_lookup migration_id (migrations s) = Some m /\
              details m = Some d.

Definition no_fault (s : State W) : Prop :=
  job_ok s /\ faults_of (events s) = [].

Definition one_fault (msg : string) (s : State W) : Prop :=
  job_ok s /\ faults_of (events s) = [msg].

Definition faultless (e : Event) : Prop := fault_of_event e = [].

Lemma faults_of_add_event e (s : State W) :
  faults_of (events (add_event e s))
  = (faults_of (events s) ++ fault_of_event e)%list.
Proof. exact (proj_add_event fault_of_event e s). Qed.

Lemma job_ok_record key m m' (s : State W) :
  job_ok s -> dict_lookup key (migrations s) = Some m ->
  (details m <> None -> details m' <> None) ->
  job_ok (set_migrations (dict_set key m' (migrations s)) s).
Proof.
  intros [m0 [d0 [Hm0 Hd0]]] Hm Hd. unfold job_ok. simpl.
  destruct (string_dec migration_id key) as [Heq | Hne].
  - subst key. rewrite dict_lookup_set_same.
    rewrite Hm in Hm0. inversion Hm0; subst m0.
    destruct (details m') as [d' |] eqn:Hd'.
    + exists m', d'. split; [reflexivity | exact Hd'].
    + exfalso. apply Hd; [congruence | reflexivity].
  - rewrite dict_lookup_set_other by exact Hne.
    exists m0, d0. split; assumption.
Qed.

Lemma no_fault_event e (s : State W) :
  faultless e -> no_fault s -> no_fault (add_event e s).
Proof.
  unfold faultless. intros He [Hj Hf]. split; [exact Hj |].
  rewrite faults_of_add_event, He, Hf. reflexivity.
Qed.

Lemma no_fault_fault msg (s : State W) :
  no_fault s -> one_fault msg (add_event (EvFault msg) s).
Proof.
  intros [Hj Hf]. split; [exact Hj |].
  rewrite faults_of_add_event, Hf. reflexivity.
Qed.

Lemma no_fault_record key m m' (s : State W) :
  no_fault s -> dict_lookup key (migrations s) = Some m ->
  (details m <> None -> details m' <> None) ->
  no_fault (set_migrations (dict_set key m' (migrations s)) s).
Proof.
  intros [Hj Hf] Hm Hd. split; [| exact Hf].
  eapply job_ok_record; eassumption.
Qed.

(** The [try] block either returns with no exception recorded, or raises
    the one exception that is recorded. *)
Lemma migration_body_faults fuel :
  keeps no_fault one_fault (migration_body C migration_id request fuel).
Proof.
  apply (keeps_migration_body C no_fault one_fault faultless);
    first
      [ solve [intros; assumption]
      | exact no_fault_event
      | exact no_fault_fault
      | exact no_fault_record
      | solve [intros; reflexivity] ].
Qed.

Lemma set_status_ok st (s : State W) m :
  dict_lookup migration_id (migrations s) = Some m ->
  set_status migration_id st s
  = Some (Ok tt,
          set_migrations
            (dict_set migration_id {| status := st; details := details m |}
                      (migrations s)) s).
Proof. intros H. unfold set_status. rewrite H. reflexivity. Qed.

Lemma update_details_ok f (s : State W) m d :
  dict_lookup migration_id (migrations s) = Some m ->
  details m = Some d ->
  update_details migration_id f s
  = Some (Ok tt,
          set_migrations
            (dict_set migration_id
                      {| status := status m; details := Some (f d) |}
                      (migrations s)) s).
Proof. intros H Hd. unfold update_details. rewrite H, Hd. reflexivity. Qed.

(** The [except] block on a well-formed record: it returns, and the record
    then says failed, with the message and the phase. *)
Lemma on_exception_records msg (s : State W) :
  job_ok s ->
  exists s2 m2 d2,
    on_exception migration_id msg s = Some (Ok tt, s2) /\
    dict_lookup migration_id (migrations s2) = Some m2 /\
    status m2 = "failed" /\
    details m2 = Some d2 /\
    details_error d2 = Some msg /\
    current_phase d2 = Some failed /\
    events s2 = (events s ++ [EvPhase failed])%list /\
    oracle s2 = oracle s /\ postgres s2 = postgres s.
Proof.
  intros [m [d [Hm Hd]]]. unfold on_exception, set_phase.
  rewrite (bind_ok_eq _ _ _ _ _ (set_status_ok "failed" s m Hm)).
  set (s1 := set_migrations _ s).
  assert (Hm1 : dict_lookup migration_id (migrations s1)
                = Some {| status := "failed"; details := details m |})
    by apply dict_lookup_set_same.
  rewrite (bind_ok_eq _ _ _ _ _
             (update_details_ok (with_error msg) s1 _ d Hm1 Hd)).
  set (s2 := set_migrations _ s1).
  assert (Hm2 : dict_lookup migration_id (migrations s2)
                = Some {| status := "failed";
                          details := Some (with_error msg d) |})
    by apply dict_lookup_set_same.
  rewrite (bind_ok_eq _ _ _ _ _
             (update_details_ok (with_current_phase failed) s2 _ _ Hm2
                                eq_refl)).
  eexists _, _, _. split; [reflexivity |].
  split; [apply dict_lookup_set_same |].
  repeat split.
Qed.

End Faults.

Section FaultTheorem.
Context {W : Type} (C : Connectors W).
Variable migration_id : string.
Variable request : MigrationRequest.

Lemma set_phase_ok p (s : State W) m d :
  dict_lookup migration_id (migrations s) = Some m ->
  details m = Some d ->
  set_phase migration_id p s
  = Some (Ok tt,
          add_event (EvPhase p)
            (set_migrations
               (dict_set migration_id
                  {| status := status m;
                     details := Some (with_current_phase p d) |}
                  (migrations s)) s)).
Proof.
  intros Hm Hd. unfold set_phase.
  rewrite (bind_ok_eq _ _ _ _ _ (update_details_ok migration_id _ s m d Hm Hd)).
  reflexivity.
Qed.

End FaultTheorem.

(** ** The loop over a table at rest *)

Section AtRest.
Context {W : Type} (C : Connectors W).
Variable tbl : OracleTable.
Variable migration_id : string.
Variable request : MigrationRequest.
Variable t : string.
Variable os : OracleSchema.
Variable ps : PgSchema.

(** The source answers every query from the table at rest [tbl]: nobody
    writes to the table, the ordering key is stable and unique, and no
    query fails. *)
Definition source_at_rest : Prop :=
  (forall w, exists w',
      oracle_row_count C t w = (Ok (table_row_count tbl), w')) /\
  (forall l o w, exists w',
      oracle_fetch_data C t l o w = (Ok (fetch_data tbl l o), w')).

(** Every page of [batch_size] rows of the table is translated and taken
    by the target. *)
Definition target_accepts : Prop :=
  forall o, 0 <= o ->
    exists data,
      transform_oracle_to_postgres_data
        (fetch_data tbl (batch_size request) o) os ps = Ok data /\
      forall w, exists n w',
        postgres_insert_data C t data w = (Ok n, w').

Lemma fetch_at_rest l o (s : State W) :
  source_at_rest ->
  exists w,
    fetch C t l o s
    = Some (Ok (fetch_data tbl l o), fetched t l o (fetch_data tbl l o) w s).
Proof.
  intros [_ Hfetch]. destruct (Hfetch l o (world s)) as [w Hw].
  exists w. unfold fetch, bind, emit, call, fetched. simpl.
  rewrite Hw. reflexivity.
Qed.

Lemma load_batch_ok rc off mig page data (s : State W) :
  job_ok migration_id s ->
  transform_oracle_to_postgres_data page os ps = Ok data ->
  (forall w, exists n w', postgres_insert_data C t data w = (Ok n, w')) ->
  exists s',
    load_batch C migration_id request t os ps rc off mig page s
    = Some (Ok (off + batch_size request,
                mig + Z.of_nat (List.length page)), s') /\
    job_ok migration_id s' /\
    pages_of (events s') = pages_of (events s).
Proof.
  intros [m [d [Hm Hd]]] Ht Hi.
  destruct (Hi (world s)) as [n [w' Hins]].
  assert (Hrun : exists s',
             load_batch C migration_id request t os ps rc off mig page s
             = Some (Ok (off + batch_size request,
                         mig + Z.of_nat (List.length page)), s') /\
             job_ok migration_id s').
  { unfold load_batch. rewrite Ht.
    rewrite (bind_ok_eq _ _ s data s eq_refl).
    assert (Hinsert : insert C t data s
                      = Some (Ok n, set_world w'
                                      (add_event (EvInsert t data) s))).
    { unfold insert, bind, emit, call. simpl. rewrite Hins. reflexivity. }
    rewrite (bind_ok_eq _ _ _ _ _ Hinsert).
    set (s1 := set_world w' (add_event (EvInsert t data) s)).
    assert (Hstats :
              update_stats migration_id
                (add_rows_migrated (Z.of_nat (List.length page))) s1
              = Some (Ok tt,
                      set_migrations
                        (dict_set migration_id
                           {| status := status m;
                              details :=
                                Some (with_stats
                                        (option_map
                                           (add_rows_migrated
                                              (Z.of_nat (List.length page)))
                                           (details_stats d)) d) |}
                           (migrations s1)) s1)).
    { unfold update_stats, modify. subst s1. simpl. rewrite Hm, Hd.
      reflexivity. }
    rewrite (bind_ok_eq _ _ _ _ _ Hstats).
    set (s2 := set_migrations _ s1).
    unfold store_stats.
    rewrite (bind_ok_eq _ _ _ _ _
               (update_details_ok migration_id (fun d0 => d0) s2 _ _
                  (dict_lookup_set_same _ _ _) eq_refl)).
    set (s3 := set_migrations _ s2).
    unfold publish_progress.
    rewrite (bind_ok_eq _ _ _ _ _
               (bind_ok_eq _ _ _ _ _
                  (update_details_ok migration_id _ s3 _ _
                     (dict_lookup_set_same _ _ _) eq_refl))).
    eexists. split; [reflexivity |].
    eexists _, _. split; [apply dict_lookup_set_same | reflexivity]. }
  destruct Hrun as [s' [Hrun Hj]]. exists s'.
  split; [exact Hrun |]. split; [exact Hj |].
  exact (load_batch_unchanged C migration_id request page_of_event
           _ _ _ _ _ _ _
           ltac:(reflexivity) ltac:(reflexivity) ltac:(reflexivity)
           _ _ _ Hrun).
Qed.

Hypothesis batch_size_positive : 0 < batch_size request.
Hypothesis at_rest : source_at_rest.
Hypothesis accepts : target_accepts.

Lemma at_rest_loop :
  forall fuel off mig (s : State W),
    0 <= off ->
    job_ok migration_id s ->
    (Z.to_nat (table_row_count tbl - off) <= fuel)%nat ->
    exists off' s' pages,
      migrate_batches C migration_id request fuel t os ps
        (table_row_count tbl) off mig s
      = Some (Ok (off',
                  mig + Z.of_nat (List.length (List.concat pages))), s') /\
      pages_of (events s') = (pages_of (events s) ++ pages)%list /\
      List.concat pages = skipn (Z.to_nat off) (table_dicts tbl).
Proof.
  assert (Hlen : table_row_count tbl
                 = Z.of_nat (List.length (table_dicts tbl))).
  { unfold table_row_count, table_dicts. rewrite length_map. reflexivity. }
  induction fuel as [| fuel IH]; intros off mig s Hoff Hj Hfuel;
    cbn [migrate_batches];
    destruct (off <? table_row_count tbl) eqn:E.
  - apply Z.ltb_lt in E. lia.
  - apply Z.ltb_ge in E. exists off, s, [].
    simpl. rewrite app_nil_r, Z.add_0_r, skipn_all2 by lia.
    repeat split.
  - apply Z.ltb_lt in E.
    assert (Hpage : fetch_data tbl (batch_size request) off
                    = firstn (Z.to_nat (batch_size request))
                             (skipn (Z.to_nat off) (table_dicts tbl)))
      by (apply fetch_data_slice; lia).
    destruct (fetch_at_rest (batch_size request) off s at_rest)
      as [w Hfetch].
    destruct (accepts off Hoff) as [data [Hdata Hins]].
    destruct (fetch_data tbl (batch_size request) off) as [| row rest]
      eqn:Ep.
    { exfalso. apply (f_equal (@List.length Row)) in Hpage.
      rewrite length_firstn, length_skipn in Hpage. simpl in Hpage. lia. }
    set (s1 := fetched t (batch_size request) off (row :: rest) w s) in *.
    destruct (load_batch_ok (table_row_count tbl) off mig (row :: rest)
                data s1 Hj Hdata Hins) as [s2 [Hload [Hj2 Hp2]]].
    assert (Hturn :
              migrate_batch C migration_id request t os ps
                (table_row_count tbl) off mig s
              = Some (Ok (Some (off + batch_size request,
                                mig + Z.of_nat (List.length (row :: rest)))),
                      s2)).
    { unfold migrate_batch. rewrite (bind_ok_eq _ _ _ _ _ Hfetch).
      rewrite (bind_ok_eq _ _ _ _ _ Hload). reflexivity. }
    rewrite (bind_ok_eq _ _ _ _ _ Hturn).
    destruct (IH (off + batch_size request)
                 (mig + Z.of_nat (List.length (row :: rest))) s2)
      as [off' [s' [pages [Hrun [Hpages Hcat]]]]]; [lia | exact Hj2 | lia |].
    exists off', s', ((row :: rest) :: pages). split; [| split].
    + rewrite Hrun. cbn [List.concat].
      rewrite length_app, Nat2Z.inj_add, Z.add_assoc. reflexivity.
    + rewrite Hpages, Hp2. subst s1. unfold pages_of.
      rewrite (fetched_proj page_of_event _ _ _ _ w s eq_refl).
      simpl. rewrite <- app_assoc. reflexivity.
    + cbn [List.concat]. rewrite Hcat, Hpage.
      replace (Z.to_nat (off + batch_size request))
        with (Z.to_nat (batch_size request) + Z.to_nat off)%nat by lia.
      rewrite <- skipn_skipn. apply firstn_skipn.
  - apply Z.ltb_ge in E. exists off, s, [].
    simpl. rewrite app_nil_r, Z.add_0_r, skipn_all2 by lia.
    repeat split.
Qed.

End AtRest.

(** C1: with a positive batch size, over a table at rest whose ordered
    rows every query sees alike, and with a target that takes every page,
    the transfer of the table runs to completion once the loop may take as
    many turns as there are rows; the pages it fetched, put end to end, are
    then the rows of the table, each row once and at its place: their
    number is the row count, which is also the count of rows migrated that
    the loop returns, and they are free of duplicates whenever the rows of
    the table are pairwise distinct. *)
Theorem every_row_is_fetched_exactly_once {W} (C : Connectors W)
    (tbl : OracleTable) (migration_id : string)
    (request : MigrationRequest) (fuel : nat) (t : string)
    (os : OracleSchema) (ps : PgSchema) (s : State W) :
  0 < batch_size request ->
  source_at_rest C tbl t ->
  target_accepts C tbl request t os ps ->
  job_ok migration_id s ->
  (List.length (tbl_rows tbl) <= fuel)%nat ->
  exists off s' pages,
    migrate_table_data C migration_id request fuel t os ps s
    = Some (Ok (off, table_row_count tbl), s') /\
    pages_of (events s') = (pages_of (events s) ++ pages)%list /\
    List.concat pages = table_dicts tbl /\
    Z.of_nat (List.length (List.concat pages)) = table_row_count tbl /\
    (NoDup (table_dicts tbl) -> NoDup (List.concat pages)).
Proof.
  intros Hb Hrest Hacc Hj Hfuel. unfold migrate_table_data.
  destruct Hj as [m [d [Hm Hd]]].
  rewrite (bind_ok_eq _ _ _ _ _
             (set_phase_ok migration_id data_migration s m d Hm Hd)).
  set (s1 := add_event (EvPhase data_migration) _).
  destruct (proj1 Hrest (world s1)) as [w Hcount].
  assert (Hcall : call (oracle_row_count C t) s1
                  = Some (Ok (table_row_count tbl), set_world w s1)).
  { unfold call. rewrite Hcount. reflexivity. }
  rewrite (bind_ok_eq _ _ _ _ _ Hcall).
  assert (Hj1 : job_ok migration_id (set_world w s1)).
  { eexists _, _. split; [apply dict_lookup_set_same | reflexivity]. }
  destruct (at_rest_loop C tbl migration_id request t os ps Hb Hrest Hacc
              fuel 0 0 (set_world w s1))
    as [off [s' [pages [Hrun [Hpages Hcat]]]]];
    [lia | exact Hj1 | unfold table_row_count; lia |].
  simpl in Hcat.
  assert (Hlen : Z.of_nat (List.length (List.concat pages))
                 = table_row_count tbl).
  { rewrite Hcat. unfold table_dicts, table_row_count.
    rewrite length_map. reflexivity. }
  exists off, s', pages. split; [| split; [| split; [| split]]].
  - rewrite Hrun, Hlen. reflexivity.
  - rewrite Hpages. subst s1. unfold pages_of. simpl.
    rewrite flat_map_app. simpl. rewrite app_nil_r. reflexivity.
  - exact Hcat.
  - exact Hlen.
  - intros Hnd. rewrite Hcat. exact Hnd.
Qed.

(** Every page of two rows of the three-row table is translated and taken
    by the accepting target. *)
Lemma ids_pages_load :
  target_accepts (quiet_connectors (ids_table 3) ids_schema) (ids_table 3)
    (request_with_batch_size 2) "T" ids_schema
    (convert_oracle_to_postgres_schema ids_schema).
Proof.
  intros o Ho. cbn [batch_size request_with_batch_size].
  rewrite (fetch_data_slice (ids_table 3) 2 o Ho ltac:(lia)).
  destruct (Z.to_nat o) as [| [| [| k]]].
  - eexists. split; [vm_compute; reflexivity |].
    intros []. eexists _, _. vm_compute. reflexivity.
  - eexists. split; [vm_compute; reflexivity |].
    intros []. eexists _, _. vm_compute. reflexivity.
  - eexists. split; [vm_compute; reflexivity |].
    intros []. eexists _, _. vm_compute. reflexivity.
  - replace (skipn (S (S (S k))) (table_dicts (ids_table 3)))
      with (@nil Row) by (destruct k; reflexivity).
    eexists. split; [reflexivity |].
    intros []. eexists _, _. vm_compute. reflexivity.
Qed.

(** Three rows moved two at a time: two pages, of two rows and of one. *)
Lemma every_row_is_fetched_exactly_once_witness :
  exists off s' pages,
    migrate_table_data (quiet_connectors (ids_table 3) ids_schema)
      "migration-1" (request_with_batch_size 2) 3 "T" ids_schema
      (convert_oracle_to_postgres_schema ids_schema)
      (initial_state tt job_store)
    = Some (Ok (off, table_row_count (ids_table 3)), s') /\
    pages_of (events s')
    = (pages_of (events (initial_state tt job_store)) ++ pages)%list /\
    List.concat pages = table_dicts (ids_table 3) /\
    Z.of_nat (List.length (List.concat pages))
    = table_row_count (ids_table 3) /\
    (NoDup (table_dicts (ids_table 3)) -> NoDup (List.concat pages)).
Proof.
  apply (every_row_is_fetched_exactly_once
           (quiet_connectors (ids_table 3) ids_schema) (ids_table 3)
           "migration-1" (request_with_batch_size 2) 3 "T" ids_schema
           (convert_oracle_to_postgres_schema ids_schema)
           (initial_state tt job_store)).
  - reflexivity.
  - split; [intros w | intros l o w]; eexists; reflexivity.
  - exact ids_pages_load.
  - eexists _, _. split; reflexivity.
  - simpl. lia.
Defined.

(** Connectors whose target refuses every insert. *)
Definition refusing_connectors (tbl : OracleTable) (schema : OracleSchema)
  : Connectors unit :=
  {| import_engines := import_engines (quiet_connectors tbl schema);
     oracle_driver_connect :=
       oracle_driver_connect (quiet_connectors tbl schema);
     postgres_driver_connect :=
       postgres_driver_connect (quiet_connectors tbl schema);
     oracle_get_tables := oracle_get_tables (quiet_connectors tbl schema);
     oracle_get_schema := oracle_get_schema (quiet_connectors tbl schema);
     postgres_create_table_from_schema :=
       postgres_create_table_from_schema (quiet_connectors tbl schema);
     oracle_row_count := oracle_row_count (quiet_connectors tbl schema);
     oracle_fetch_data := oracle_fetch_data (quiet_connectors tbl schema);
     postgres_insert_data := fun _ _ w => (Raise "disk full", w);
     oracle_close := oracle_close (quiet_connectors tbl schema);
     postgres_close := postgres_close (quiet_connectors tbl schema) |}.

Example refused_insert_fails_the_job :
  exists s',
    run_oracle_to_postgres_migration
      (refusing_connectors (ids_table 3) ids_schema) "migration-1"
      (request_with_batch_size 2) 3 (initial_state tt job_store)
    = Some (Ok tt, s') /\
    faults_of (events s') = ["disk full"] /\
    closes_of (events s') = [OracleSide; PostgresSide] /\
    oracle s' = Some {| connection := false |} /\
    postgres s' = Some {| connection := false |} /\
    option_map status (dict_lookup "migration-1" (migrations s'))
      = Some "failed".
Proof.
  eexists. split; [vm_compute; reflexivity |]. repeat split.
Qed.

(** The precondition on the record matters: the two writes before the [try]
    are not guarded.  On a record whose details are [None] the phase write
    raises, the exception leaves the run, and the status stays running. *)
Example record_without_details_escapes :
  run_oracle_to_postgres_migration
    (quiet_connectors (ids_table 3) ids_schema) "migration-1"
    (request_with_batch_size 2) 3
    (initial_state tt
       [("migration-1", {| status := "pending"; details := None |})])
  = Some (Raise none_item_assignment,
          {| world := tt;
             migrations :=
               [("migration-1", {| status := "running"; details := None |})];
             oracle := None; postgres := None; migration_log := [];
             events := [EvFault none_item_assignment] |}).
Proof. reflexivity. Qed.

(** * Further properties of the code *)

(** ** Table selection *)

(** The names a request excludes: none when the list is absent or empty. *)
Definition excluded_names (request : MigrationRequest) : list string :=
  match exclude_tables request with
  | Some l => l
  | None => []
  end.

Lemma existsb_eqb_In (t : string) (l : list string) :
  existsb (String.eqb t) l = true <-> In t l.
Proof.
  rewrite existsb_exists. split.
  - intros [x [Hin Heq]]. apply String.eqb_eq in Heq. subst x. exact Hin.
  - intros Hin. exists t. split; [exact Hin | apply String.eqb_refl].
Qed.

Lemma filter_all_true {A} (f : A -> bool) (l : list A) :
  (forall x, In x l -> f x = true) -> filter f l = l.
Proof.
  induction l as [| a rest IH]; intros H; simpl; [reflexivity |].
  rewrite (H a (or_introl eq_refl)). f_equal. apply IH.
  intros x Hx. apply H. right. exact Hx.
Qed.

(** X1. The tables a run works on are those of the include-list when it has
    a name, else those the source connector lists, less the excluded names:
    a table is selected exactly when it is in that base list and not
    excluded, the selected tables keep the order of the base list, and
    excluding names that the base list does not hold changes nothing. *)
Theorem selected_tables_are_the_base_less_the_excluded {W}
    (C : Connectors W) (request : MigrationRequest) (s : State W)
    (names : list string) (s' : State W) :
  select_tables C request s = Some (Ok names, s') ->
  exists base,
    ((exists t ts, tables request = Some (t :: ts) /\ base = t :: ts /\ s' = s)
     \/
     ((tables request = None \/ tables request = Some []) /\
      exists w, oracle_get_tables C (world s) = (Ok base, w) /\
                s' = set_world w s)) /\
    names = filter (fun t => negb (existsb (String.eqb t)
                                           (excluded_names request))) base /\
    (forall t, In t names <->
               In t base /\ ~ In t (excluded_names request)) /\
    ((forall t, In t base -> ~ In t (excluded_names request)) ->
     names = base).
Proof.
  intros Hrun. unfold select_tables in Hrun.
  apply bind_ok_inv in Hrun. destruct Hrun as [base [s1 [Hbase Hrun]]].
  exists base.
  assert (Hnames :
            names = filter (fun t => negb (existsb (String.eqb t)
                                             (excluded_names request))) base
            /\ s' = s1).
  { unfold excluded_names.
    destruct (exclude_tables request) as [[| e es] |];
      apply ret_inv in Hrun; destruct Hrun as [Hn Hs]; inversion Hn; subst;
      (split; [| reflexivity]); try reflexivity;
      symmetry; apply filter_all_true; intros; reflexivity. }
  destruct Hnames as [Hnames Hs']. subst s'.
  split; [| split; [exact Hnames | split]].
  - destruct (tables request) as [[| t ts] |].
    + right. split; [right; reflexivity |].
      unfold call in Hbase.
      destruct (oracle_get_tables C (world s)) as [[l | msg] w];
        simpl in Hbase; inversion Hbase; subst.
      exists w. split; reflexivity.
    + left. apply ret_inv in Hbase. destruct Hbase as [Hb Hs].
      inversion Hb; subst. exists t, ts. repeat split.
    + right. split; [left; reflexivity |].
      unfold call in Hbase.
      destruct (oracle_get_tables C (world s)) as [[l | msg] w];
        simpl in Hbase; inversion Hbase; subst.
      exists w. split; reflexivity.
  - intros t. rewrite Hnames, filter_In, negb_true_iff.
    rewrite <- not_true_iff_false, existsb_eqb_In. reflexivity.
  - intros Hdisj. rewrite Hnames. apply filter_all_true.
    intros t Ht. apply negb_true_iff, not_true_iff_false.
    rewrite existsb_eqb_In. apply Hdisj, Ht.
Qed.

Lemma selected_tables_are_the_base_less_the_excluded_witness :
  exists base,
    ((exists t ts,
        tables {| tables := Some ["A"; "B"; "C"];
                  exclude_tables := Some ["B"; "Z"];
                  only_schema := false; batch_size := 10 |}
        = Some (t :: ts) /\ base = t :: ts /\
        initial_state tt job_store = initial_state tt job_store)
     \/
     ((tables {| tables := Some ["A"; "B"; "C"];
                 exclude_tables := Some ["B"; "Z"];
                 only_schema := false; batch_size := 10 |} = None \/
       tables {| tables := Some ["A"; "B"; "C"];
                 exclude_tables := Some ["B"; "Z"];
                 only_schema := false; batch_size := 10 |} = Some []) /\
      exists w,
        oracle_get_tables (quiet_connectors (ids_table 3) ids_schema)
                          (world (initial_state tt job_store))
        = (Ok base, w) /\
        initial_state tt job_store
        = set_world w (initial_state tt job_store))) /\
    ["A"; "C"]
    = filter (fun t => negb (existsb (String.eqb t)
                (excluded_names
                   {| tables := Some ["A"; "B"; "C"];
                      exclude_tables := Some ["B"; "Z"];
                      only_schema := false; batch_size := 10 |}))) base /\
    (forall t, In t ["A"; "C"] <->
               In t base /\
               ~ In t (excluded_names
                         {| tables := Some ["A"; "B"; "C"];
                            exclude_tables := Some ["B"; "Z"];
                            only_schema := false; batch_size := 10 |})) /\
    ((forall t, In t base ->
                ~ In t (excluded_names
                          {| tables := Some ["A"; "B"; "C"];
                             exclude_tables := Some ["B"; "Z"];
                             only_schema := false; batch_size := 10 |})) ->
     ["A"; "C"] = base).
Proof.
  apply (selected_tables_are_the_base_less_the_excluded
           (quiet_connectors (ids_table 3) ids_schema)
           {| tables := Some ["A"; "B"; "C"];
              exclude_tables := Some ["B"; "Z"];
              only_schema := false; batch_size := 10 |}
           (initial_state tt job_store) ["A"; "C"]
           (initial_state tt job_store)).
  reflexivity.
Defined.

(** X2. An include-list that is empty counts as none: the tables are then
    those the source connector lists, and when that call raises, the
    selection raises with its message, having changed nothing but the
    outside world and the record of the exception. *)
Theorem empty_include_list_asks_the_connector {W} (C : Connectors W)
    (request : MigrationRequest) (s : State W) :
  tables request = Some [] \/ tables request = None ->
  match oracle_get_tables C (world s) with
  | (Ok base, w) =>
      select_tables C request s
      = Some (Ok (filter (fun t => negb (existsb (String.eqb t)
                                           (excluded_names request))) base),
              set_world w s)
  | (Raise msg, w) =>
      select_tables C request s
      = Some (Raise msg, add_event (EvFault msg) (set_world w s))
  end.
Proof.
  intros Hempty. unfold select_tables, excluded_names.
  assert (Hcall :
            match tables request with
            | Some (t :: ts) => ret (t :: ts)
            | _ => call (oracle_get_tables C)
            end = call (oracle_get_tables C)).
  { destruct Hempty as [H | H]; rewrite H; reflexivity. }
  rewrite Hcall. unfold bind, call.
  destruct (oracle_get_tables C (world s)) as [[base | msg] w]; simpl;
    [| reflexivity].
  destruct (exclude_tables request) as [[| e es] |]; simpl; unfold ret;
    try reflexivity;
    rewrite filter_all_true; try reflexivity; intros; reflexivity.
Qed.

Lemma empty_include_list_asks_the_connector_witness :
  select_tables (quiet_connectors (ids_table 3) ids_schema)
    {| tables := Some []; exclude_tables := None; only_schema := false;
       batch_size := 10 |} (initial_state tt job_store)
  = Some (Ok ["T"], initial_state tt job_store).
Proof.
  exact (empty_include_list_asks_the_connector
           (quiet_connectors (ids_table 3) ids_schema)
           {| tables := Some []; exclude_tables := None;
              only_schema := false; batch_size := 10 |}
           (initial_state tt job_store) (or_introl eq_refl)).
Defined.

(** ** The job store and its routes *)

(** [MigrationResponse] *)
Record MigrationResponse : Type := {
  response_migration_id : string;
  response_status : string;
  response_details : option Details
}.

(** [f"migration-{len(migrations) + 1}"] *)
Definition next_migration_id (store : PyDict Migration) : string :=
  "migration-" ++ str_of_int (Z.of_nat (List.length store) + 1).

(** [create_migration]: the store afterwards and the response.  The record
    is stored with status pending and details [None]; the task it schedules
    runs later and is no part of the call. *)
Definition create_migration (store : PyDict Migration)
  : PyDict Migration * MigrationResponse :=
  let migration_id := next_migration_id store in
  (dict_set migration_id {| status := "pending"; details := None |} store,
   {| response_migration_id := migration_id;
      response_status := "pending";
      response_details := None |}).

(** [get_migration]: the 404 is an exception with its detail as message. *)
Definition get_migration (store : PyDict Migration) (migration_id : string)
  : Result MigrationResponse :=
  match dict_lookup migration_id store with
  | None => Raise "Migration not found"
  | Some m =>
      Ok {| response_migration_id := migration_id;
            response_status := status m;
            response_details := details m |}
  end.

(** [list_migrations] *)
Definition list_migrations (store : PyDict Migration)
  : list MigrationResponse :=
  map (fun p => {| response_migration_id := fst p;
                   response_status := status (snd p);
                   response_details := details (snd p) |}) store.

(** The id of the [i]-th job. *)
Definition nth_migration_id (i : nat) : string :=
  "migration-" ++ str_of_int (Z.of_nat i).

(** The keys of the store are migration-1, migration-2, ... in order. *)
Definition numbered (store : PyDict Migration) : Prop :=
  dict_keys store = map nth_migration_id (seq 1 (List.length store)).

Lemma to_int_not_nil z :
  Z.to_int z <> Decimal.Pos Decimal.Nil /\
  Z.to_int z <> Decimal.Neg Decimal.Nil.
Proof.
  destruct z; simpl; split; try discriminate.
  - intros H. injection H as H. exact (Unsigned.to_uint_nonnil _ H).
  - intros H. injection H as H. exact (Unsigned.to_uint_nonnil _ H).
Qed.

Lemma str_of_int_inj a b : str_of_int a = str_of_int b -> a = b.
Proof.
  unfold str_of_int. intros H.
  apply (f_equal NilZero.int_of_string) in H.
  destruct (to_int_not_nil a), (to_int_not_nil b).
  rewrite !NilZero.isi in H by assumption.
  injection H as H. apply DecimalZ.to_int_inj, H.
Qed.

Lemma nth_migration_id_inj i j :
  nth_migration_id i = nth_migration_id j -> i = j.
Proof.
  unfold nth_migration_id. intros H. simpl in H.
  repeat (injection H as H).
  apply str_of_int_inj in H. lia.
Qed.

Lemma NoDup_migration_ids (l : list nat) :
  NoDup l -> NoDup (map nth_migration_id l).
Proof.
  induction l as [| i rest IH]; intros Hnd; simpl; [constructor |].
  inversion Hnd as [| i' rest' Hni Hrest]; subst. constructor.
  - intros Hin. apply in_map_iff in Hin. destruct Hin as [j [Heq Hj]].
    apply nth_migration_id_inj in Heq. subst j. contradiction.
  - apply IH, Hrest.
Qed.

Lemma dict_lookup_not_key {V} (k : string) (d : PyDict V) :
  ~ In k (dict_keys d) -> dict_lookup k d = None.
Proof.
  induction d as [| [k' v] rest IH]; intros Hn; simpl; [reflexivity |].
  destruct (String.eqb k' k) eqn:E.
  - apply String.eqb_eq in E. exfalso. apply Hn. left. exact E.
  - apply IH. intros Hin. apply Hn. right. exact Hin.
Qed.

Lemma dict_set_fresh {V} (k : string) (v : V) (d : PyDict V) :
  ~ In k (dict_keys d) -> dict_set k v d = (d ++ [(k, v)])%list.
Proof.
  induction d as [| [k' v'] rest IH]; intros Hn; simpl; [reflexivity |].
  destruct (String.eqb k' k) eqn:E.
  - apply String.eqb_eq in E. exfalso. apply Hn. left. exact E.
  - rewrite IH; [reflexivity |]. intros Hin. apply Hn. right. exact Hin.
Qed.

Lemma dict_keys_set_present {V} (k : string) (v v' : V) (d : PyDict V) :
  dict_lookup k d = Some v -> dict_keys (dict_set k v' d) = dict_keys d.
Proof.
  induction d as [| [k0 v0] rest IH]; simpl; [discriminate |].
  destruct (String.eqb k0 k) eqn:E; intros H; simpl; [reflexivity |].
  rewrite IH by exact H. reflexivity.
Qed.

(** X3. What [create_migration] stores, [get_migration] gives back: the new
    id answers with status pending and no details, every other id answers
    as before, and an id that is not in the store is a "Migration not
    found" error. *)
Theorem created_job_is_found_pending (store : PyDict Migration) :
  let store' := fst (create_migration store) in
  let migration_id := response_migration_id (snd (create_migration store)) in
  get_migration store' migration_id
    = Ok {| response_migration_id := migration_id;
            response_status := "pending"; response_details := None |} /\
  (forall other, other <> migration_id ->
                 get_migration store' other = get_migration store other) /\
  (forall other, ~ In other (dict_keys store') ->
                 get_migration store' other = Raise "Migration not found").
Proof.
  simpl. unfold get_migration. split; [| split].
  - rewrite dict_lookup_set_same. reflexivity.
  - intros other Hne. rewrite dict_lookup_set_other by exact Hne. reflexivity.
  - intros other Hn. rewrite dict_lookup_not_key by exact Hn. reflexivity.
Qed.

(** X4. In a store whose keys are migration-1 to migration-n in order, as
    [create_migration] alone builds it from the empty store,
    [create_migration] takes an id that no job has, adds the new job at the
    end, leaves every record that was there as it was, and the keys are
    then migration-1 to migration-(n+1): no two jobs share an id. *)
Theorem create_migration_takes_a_fresh_id (store : PyDict Migration) :
  numbered store ->
  let store' := fst (create_migration store) in
  dict_lookup (next_migration_id store) store = None /\
  store' = (store ++ [(next_migration_id store,
                       {| status := "pending"; details := None |})])%list /\
  numbered store' /\
  NoDup (dict_keys store').
Proof.
  intros Hnum.
  assert (Hid : next_migration_id store
                = nth_migration_id (S (List.length store))).
  { unfold next_migration_id, nth_migration_id. do 2 f_equal. lia. }
  assert (Hfresh : ~ In (next_migration_id store) (dict_keys store)).
  { rewrite Hnum, Hid. intros Hin. apply in_map_iff in Hin.
    destruct Hin as [i [Heq Hin]]. apply nth_migration_id_inj in Heq.
    apply in_seq in Hin. lia. }
  assert (Hstore' : fst (create_migration store)
                    = (store ++ [(next_migration_id store,
                                  {| status := "pending";
                                     details := None |})])%list)
    by (simpl; apply dict_set_fresh, Hfresh).
  assert (Hnum' : numbered (fst (create_migration store))).
  { unfold numbered. rewrite Hstore'. unfold dict_keys.
    rewrite map_app, length_app. simpl.
    replace (List.length store + 1)%nat with (S (List.length store)) by lia.
    rewrite seq_S, map_app. simpl. fold (dict_keys store).
    rewrite Hnum, Hid. reflexivity. }
  simpl. split; [apply dict_lookup_not_key, Hfresh |].
  split; [exact Hstore' |]. split; [exact Hnum' |].
  unfold numbered in Hnum'. simpl in Hnum'. rewrite Hnum'.
  apply NoDup_migration_ids, seq_NoDup.
Qed.

Lemma create_migration_takes_a_fresh_id_witness :
  dict_lookup (next_migration_id job_store) job_store = None /\
  fst (create_migration job_store)
  = (job_store ++ [(next_migration_id job_store,
                    {| status := "pending"; details := None |})])%list /\
  numbered (fst (create_migration job_store)) /\
  NoDup (dict_keys (fst (create_migration job_store))).
Proof.
  apply (create_migration_takes_a_fresh_id job_store). reflexivity.
Defined.

(** X5. A job as [create_migration] stores it has details [None], and
    [run_oracle_to_postgres_migration] writes its first phase into the
    details before its [try]: on the created job the run raises a TypeError
    that nothing catches, with the status left at running, no error
    recorded, no connector made and no call to either database. *)
Theorem created_job_escapes_the_oracle_run {W} (C : Connectors W)
    (request : MigrationRequest) (fuel : nat) (w : W)
    (store : PyDict Migration) :
  let store' := fst (create_migration store) in
  let migration_id := response_migration_id (snd (create_migration store)) in
  exists s',
    run_oracle_to_postgres_migration C migration_id request fuel
      (initial_state w store')
    = Some (Raise none_item_assignment, s') /\
    get_migration (migrations s') migration_id
      = Ok {| response_migration_id := migration_id;
              response_status := "running"; response_details := None |} /\
    world s' = w /\ oracle s' = None /\ postgres s' = None /\
    events s' = [EvFault none_item_assignment].
Proof.
  simpl. unfold run_oracle_to_postgres_migration.
  set (mid := next_migration_id store).
  set (store' := dict_set mid {| status := "pending"; details := None |} store).
  assert (Hm : dict_lookup mid (migrations (initial_state w store'))
               = Some {| status := "pending"; details := None |})
    by apply dict_lookup_set_same.
  rewrite (bind_ok_eq _ _ _ _ _
             (set_status_ok mid "running" (initial_state w store') _ Hm)).
  set (sA := set_migrations _ _).
  assert (HmA : dict_lookup mid (migrations sA)
                = Some {| status := "running"; details := None |})
    by apply dict_lookup_set_same.
  assert (Hphase : set_phase mid schema_analysis sA
                   = Some (Raise none_item_assignment,
                           add_event (EvFault none_item_assignment) sA)).
  { unfold set_phase, bind, update_details. rewrite HmA. reflexivity. }
  rewrite (bind_raise_eq _ _ _ _ _ Hphase).
  eexists. split; [reflexivity |].
  split; [| repeat split].
  unfold get_migration. simpl. rewrite dict_lookup_set_same. reflexivity.
Qed.

Lemma dict_lookup_in {V} (k : string) (v : V) (d : PyDict V) :
  NoDup (dict_keys d) -> (In (k, v) d <-> dict_lookup k d = Some v).
Proof.
  induction d as [| [k0 v0] rest IH]; intros Hnd; simpl.
  - split; [intros [] | discriminate].
  - inversion Hnd as [| k1 ks Hni Hrest]; subst.
    destruct (String.eqb k0 k) eqn:E.
    + apply String.eqb_eq in E. subst k0. split.
      * intros [Heq | Hin]; [inversion Heq; reflexivity |].
        exfalso. apply Hni. apply in_map_iff. exists (k, v).
        split; [reflexivity | exact Hin].
      * intros Heq. inversion Heq. left. reflexivity.
    + apply String.eqb_neq in E. rewrite <- (IH Hrest). split.
      * intros [Heq | Hin]; [inversion Heq; congruence | exact Hin].
      * intros Hin. right. exact Hin.
Qed.

(** X6. [list_migrations] and [get_migration] agree: over a store with
    unique keys, a response is listed exactly when asking for its id gives
    that response, and the list has one response per job, in the order of
    the store. *)
Theorem listed_jobs_are_the_found_jobs (store : PyDict Migration) :
  NoDup (dict_keys store) ->
  (forall r, In r (list_migrations store) <->
             get_migration store (response_migration_id r) = Ok r) /\
  map response_migration_id (list_migrations store) = dict_keys store.
Proof.
  intros Hnd. split.
  - intros r. unfold list_migrations, get_migration. rewrite in_map_iff. split.
    + intros [[k m] [Hr Hin]]. subst r. simpl.
      apply (dict_lookup_in k m store Hnd) in Hin. rewrite Hin. reflexivity.
    + destruct (dict_lookup (response_migration_id r) store) as [m |] eqn:Hl;
        [| discriminate].
      intros Hr. inversion Hr as [Heq]. exists (response_migration_id r, m).
      split; [destruct r; simpl in *; inversion Heq; reflexivity |].
      apply (dict_lookup_in _ m store Hnd). exact Hl.
  - unfold list_migrations, dict_keys. rewrite map_map. reflexivity.
Qed.

Lemma listed_jobs_are_the_found_jobs_witness :
  (forall r, In r (list_migrations job_store) <->
             get_migration job_store (response_migration_id r) = Ok r) /\
  map response_migration_id (list_migrations job_store) = dict_keys job_store.
Proof.
  apply (listed_jobs_are_the_found_jobs job_store).
  repeat constructor. intros [].
Defined.

(** ** Pages of the source table *)

Lemma fetch_data_window (tbl : OracleTable) (batch offset : Z) :
  fetch_data tbl batch offset
  = firstn (Z.to_nat (offset + batch) - Z.to_nat offset)
           (skipn (Z.to_nat offset) (table_dicts tbl)).
Proof.
  unfold fetch_data, table_dicts, rownum_page.
  rewrite number_rows_window, skipn_map, firstn_map.
  replace (Z.to_nat (offset + batch - 1 + 1)) with (Z.to_nat (offset + batch))
    by lia.
  replace (Z.to_nat (offset - 1 + 1)) with (Z.to_nat offset) by lia.
  reflexivity.
Qed.

(** X7. A page never holds more rows than the batch size.  From an offset
    that is not negative it holds the rows from that offset on, as many as
    the batch size allows and the table has left; it is empty for a batch
    size of zero or less and for an offset at or past the last row. *)
Theorem page_holds_at_most_batch_size_rows (tbl : OracleTable)
    (batch offset : Z) :
  (List.length (fetch_data tbl batch offset) <= Z.to_nat batch)%nat /\
  (0 <= offset ->
   List.length (fetch_data tbl batch offset)
   = Nat.min (Z.to_nat batch)
             (List.length (tbl_rows tbl) - Z.to_nat offset)) /\
  (batch <= 0 -> fetch_data tbl batch offset = []) /\
  (table_row_count tbl <= offset -> fetch_data tbl batch offset = []).
Proof.
  assert (Hlen : List.length (table_dicts tbl) = List.length (tbl_rows tbl))
    by (unfold table_dicts; apply length_map).
  rewrite fetch_data_window. repeat split.
  - rewrite length_firstn. lia.
  - intros Ho. rewrite length_firstn, length_skipn, Hlen. lia.
  - intros Hb. replace (Z.to_nat (offset + batch) - Z.to_nat offset)%nat
      with 0%nat by lia. reflexivity.
  - intros Ho. unfold table_row_count in Ho.
    rewrite skipn_all2 by lia. apply firstn_nil.
Qed.

Lemma firstn_add {A} (a c : nat) (l : list A) :
  firstn (a + c) l = (firstn a l ++ firstn c (skipn a l))%list.
Proof.
  revert l. induction a as [| a IH]; intros l; simpl; [reflexivity |].
  destruct l as [| x rest]; simpl.
  - rewrite firstn_nil. reflexivity.
  - rewrite IH. reflexivity.
Qed.

(** X8. Two pages fetched one after the other, the second at the offset
    where the first batch ends, are together the one page of both batch
    sizes: pages tile the table with no gap and no overlap. *)
Theorem adjacent_pages_join (tbl : OracleTable) (offset batch batch' : Z) :
  0 <= offset -> 0 <= batch -> 0 <= batch' ->
  (fetch_data tbl batch offset ++ fetch_data tbl batch' (offset + batch))%list
  = fetch_data tbl (batch + batch') offset.
Proof.
  intros Ho Hb Hb'. rewrite !fetch_data_window.
  replace (Z.to_nat (offset + batch) - Z.to_nat offset)%nat
    with (Z.to_nat batch) by lia.
  replace (Z.to_nat (offset + batch + batch') - Z.to_nat (offset + batch))%nat
    with (Z.to_nat batch') by lia.
  replace (Z.to_nat (offset + (batch + batch')) - Z.to_nat offset)%nat
    with (Z.to_nat batch + Z.to_nat batch')%nat by lia.
  replace (Z.to_nat (offset + batch))
    with (Z.to_nat batch + Z.to_nat offset)%nat by lia.
  rewrite <- skipn_skipn. symmetry. apply firstn_add.
Qed.

Lemma adjacent_pages_join_witness :
  (fetch_data (ids_table 5) 2 1 ++ fetch_data (ids_table 5) 3 (1 + 2))%list
  = fetch_data (ids_table 5) (2 + 3) 1.
Proof.
  apply (adjacent_pages_join (ids_table 5) 1 2 3); lia.
Defined.

(** ** From fetched rows to inserted values *)

Lemma fold_dict_set_fresh (pairs : list (string * PyVal)) :
  forall acc : Row,
    NoDup (map fst acc ++ map fst pairs)%list ->
    fold_left (fun d p => dict_set (fst p) (snd p) d) pairs acc
    = (acc ++ pairs)%list.
Proof.
  induction pairs as [| [k v] rest IH]; intros acc Hnd; simpl.
  - rewrite app_nil_r. reflexivity.
  - simpl in Hnd.
    assert (Hfresh : ~ In k (dict_keys acc)).
    { apply NoDup_remove_2 in Hnd. intros Hin. apply Hnd.
      apply in_or_app. left. exact Hin. }
    rewrite (dict_set_fresh k v acc Hfresh), IH.
    + rewrite <- app_assoc. reflexivity.
    + rewrite map_app. simpl. rewrite <- app_assoc. simpl.
      apply NoDup_remove_1 in Hnd as Hnd'.
      assert (Hperm : NoDup (k :: (map fst acc ++ map fst rest)%list)).
      { constructor; [apply NoDup_remove_2 in Hnd; exact Hnd | exact Hnd']. }
      clear - Hnd. exact Hnd.
Qed.

Lemma map_fst_combine {A B} (l : list A) (l' : list B) :
  List.length l = List.length l' -> map fst (combine l l') = l.
Proof.
  revert l'. induction l as [| a rest IH]; intros [| b rest'] H; simpl in *;
    try reflexivity; try discriminate.
  rewrite IH by lia. reflexivity.
Qed.

Lemma row_dict_combine (cols : list string) (vals : list PyVal) :
  NoDup cols -> List.length vals = List.length cols ->
  row_dict cols vals = combine cols vals.
Proof.
  intros Hnd Hlen. unfold row_dict. rewrite fold_dict_set_fresh; [reflexivity |].
  simpl. rewrite map_fst_combine by lia. exact Hnd.
Qed.

Lemma row_values_combine (cols : list string) :
  forall (vals : list PyVal) (pre : Row),
    NoDup cols -> List.length vals = List.length cols ->
    (forall c, In c cols -> ~ In c (dict_keys pre)) ->
    row_values cols (pre ++ combine cols vals)%list = Ok vals.
Proof.
  induction cols as [| c rest IH]; intros vals pre Hnd Hlen Hpre;
    destruct vals as [| v vals]; simpl in *; try discriminate;
    [reflexivity |].
  inversion Hnd as [| c' rest' Hni Hrest]; subst.
  assert (Hlook : dict_lookup c (pre ++ (c, v) :: combine rest vals)%list
                  = Some v).
  { clear - Hpre. assert (Hc : ~ In c (dict_keys pre))
      by (apply Hpre; left; reflexivity).
    induction pre as [| [k0 v0] pre IHp]; simpl.
    - rewrite String.eqb_refl. reflexivity.
    - destruct (String.eqb k0 c) eqn:E.
      + apply String.eqb_eq in E. exfalso. apply Hc. left. exact E.
      + apply IHp.
        * intros c0 Hc0 Hin. apply (Hpre c0 Hc0). right. exact Hin.
        * intros Hin. apply Hc. right. exact Hin. }
  rewrite Hlook.
  replace (pre ++ (c, v) :: combine rest vals)%list
    with ((pre ++ [(c, v)]) ++ combine rest vals)%list
    by (rewrite <- app_assoc; reflexivity).
  rewrite IH; [reflexivity | exact Hrest | lia |].
  intros c0 Hc0 Hin. unfold dict_keys in Hin. rewrite map_app in Hin.
  apply in_app_or in Hin. destruct Hin as [Hin | [Heq | []]].
  - apply (Hpre c0); [right; exact Hc0 | exact Hin].
  - simpl in Heq. subst c0. contradiction.
Qed.

(** X9. What [fetch_data] packs, [insert_data] unpacks: for column names
    without repetition and rows of as many values as there are columns,
    each fetched dictionary has the column names as its keys, in order, and
    the values that [insert_data] reads out of a batch of such dictionaries
    by the keys of the first are the rows as they were. *)
Theorem fetched_rows_unpack_to_their_values (cols : list string)
    (raw : list (list PyVal)) (first : Row) (rest : list Row) :
  NoDup cols ->
  (forall r, In r raw -> List.length r = List.length cols) ->
  map (row_dict cols) raw = first :: rest ->
  dict_keys first = cols /\
  all_row_values (dict_keys first) (first :: rest) = Ok raw.
Proof.
  intros Hnd Harity Hmap.
  assert (Hkeys : dict_keys first = cols).
  { destruct raw as [| r0 raw']; [discriminate |]. simpl in Hmap.
    inversion Hmap as [[Hfirst Hrest]].
    rewrite row_dict_combine by (try exact Hnd; apply Harity; left; reflexivity).
    unfold dict_keys. apply map_fst_combine. symmetry. apply Harity.
    left. reflexivity. }
  split; [exact Hkeys |]. rewrite Hkeys, <- Hmap. clear Hmap Hkeys.
  induction raw as [| r raw' IH]; simpl; [reflexivity |].
  rewrite row_dict_combine by (try exact Hnd; apply Harity; left; reflexivity).
  pose proof (row_values_combine cols r [] Hnd
                (Harity r (or_introl eq_refl)) (fun _ _ H => H)) as Hrow.
  simpl in Hrow. rewrite Hrow.
  rewrite IH; [reflexivity |]. intros r0 Hr0. apply Harity. right. exact Hr0.
Qed.

Lemma fetched_rows_unpack_to_their_values_witness :
  dict_keys [("ID", PyScalar (SInt 1)); ("NAME", PyScalar (SText "a"))]
    = ["ID"; "NAME"] /\
  all_row_values
    (dict_keys [("ID", PyScalar (SInt 1)); ("NAME", PyScalar (SText "a"))])
    [[("ID", PyScalar (SInt 1)); ("NAME", PyScalar (SText "a"))];
     [("ID", PyScalar (SInt 2)); ("NAME", PyNone)]]
  = Ok [[PyScalar (SInt 1); PyScalar (SText "a")]; [PyScalar (SInt 2); PyNone]].
Proof.
  apply (fetched_rows_unpack_to_their_values ["ID"; "NAME"]
           [[PyScalar (SInt 1); PyScalar (SText "a")];
            [PyScalar (SInt 2); PyNone]]).
  - repeat constructor; simpl; intuition discriminate.
  - intros r [H | [H | []]]; subst r; reflexivity.
  - reflexivity.
Defined.

(** ** The calls of insert_data *)

Lemma row_values_spec (cols : list string) (row : Row) :
  forall vs, row_values cols row = Ok vs ->
             Forall2 (fun c v => dict_lookup c row = Some v) cols vs.
Proof.
  induction cols as [| c rest IH]; intros vs H; simpl in H.
  - inversion H. constructor.
  - destruct (dict_lookup c row) as [v |] eqn:Hl; [| discriminate].
    destruct (row_values rest row) as [vs' | msg]; [| discriminate].
    inversion H; subst. constructor; [exact Hl | apply IH; reflexivity].
Qed.

Lemma all_row_values_spec (cols : list string) (data : list Row) :
  forall values,
    all_row_values cols data = Ok values ->
    Forall2 (fun row vs =>
               Forall2 (fun c v => dict_lookup c row = Some v) cols vs)
            data values.
Proof.
  induction data as [| row rest IH]; intros values H; simpl in H.
  - inversion H. constructor.
  - destruct (row_values cols row) as [vs | msg] eqn:Hr; [| discriminate].
    destruct (all_row_values cols rest) as [vss | msg]; [| discriminate].
    inversion H; subst. constructor;
      [apply row_values_spec, Hr | apply IH; reflexivity].
Qed.

Lemma row_values_missing (cols : list string) (row : Row) (c : string) :
  In c cols -> dict_lookup c row = None ->
  exists msg, row_values cols row = Raise msg.
Proof.
  induction cols as [| c0 rest IH]; intros Hin Hl; simpl; [contradiction |].
  destruct (dict_lookup c0 row) as [v |] eqn:Hl0.
  - destruct Hin as [Heq | Hin]; [subst c0; congruence |].
    destruct (IH Hin Hl) as [msg Hmsg]. rewrite Hmsg. eexists. reflexivity.
  - eexists. reflexivity.
Qed.

Lemma all_row_values_missing (cols : list string) (data : list Row)
    (row : Row) (c : string) :
  In row data -> In c cols -> dict_lookup c row = None ->
  exists msg, all_row_values cols data = Raise msg.
Proof.
  induction data as [| r0 rest IH]; intros Hrow Hc Hl; simpl; [contradiction |].
  destruct (row_values cols r0) as [vs |] eqn:Hr0.
  - destruct Hrow as [Heq | Hrow].
    + subst r0. destruct (row_values_missing cols row c Hc Hl) as [msg Hm].
      congruence.
    + destruct (IH Hrow Hc Hl) as [msg Hm]. rewrite Hm. eexists. reflexivity.
  - eexists. reflexivity.
Qed.

Lemma insert_failed_calls {D} (drv : PgDriver D) msg d calls r d' calls' :
  insert_failed drv msg d calls = (r, d', calls') ->
  (exists msg', r = Raise msg') /\ calls' = (calls ++ [CallRollback])%list.
Proof.
  unfold insert_failed. destruct (rollback drv d) as [[u | m] d0];
    intros H; inversion H; subst; split; try reflexivity; eexists; reflexivity.
Qed.

(** X10. A batch with rows is written as one unit.  When [insert_data]
    returns a count it has made exactly one [executemany] and then one
    commit, and the values it hands over are, row by row, the values under
    the keys of the first row: a key that only a later row has is left
    out.  When it raises it has made exactly one rollback, as its last
    call, after nothing, after the statement alone, or after the statement
    and the commit that failed. *)
Theorem insert_data_commits_or_rolls_back {D} (drv : PgDriver D)
    (table_name : string) (first : Row) (rest : list Row) (d : D)
    r d' calls :
  insert_data drv table_name (first :: rest) d = (r, d', calls) ->
  match r with
  | Ok n =>
      exists stmt values,
        calls = [CallExecutemany stmt values; CallCommit] /\
        Forall2 (fun row vs =>
                   Forall2 (fun c v => dict_lookup c row = Some v)
                           (dict_keys first) vs)
                (first :: rest) values
  | Raise msg =>
      exists before,
        calls = (before ++ [CallRollback])%list /\
        (before = [] \/
         (exists stmt values, before = [CallExecutemany stmt values]) \/
         (exists stmt values,
            before = [CallExecutemany stmt values; CallCommit]))
  end.
Proof.
  unfold insert_data.
  destruct (all_row_values (dict_keys first) (first :: rest))
    as [values | msg] eqn:Hvals.
  - destruct (executemany drv _ values d) as [[u | msg] d1].
    + destruct (commit drv d1) as [[u' | msg] d2].
      * intros H. inversion H; subst. eexists _, values.
        split; [reflexivity | apply all_row_values_spec, Hvals].
      * intros H. apply insert_failed_calls in H.
        destruct H as [[msg' Hr] Hc]. subst r calls.
        eexists. split; [reflexivity |]. right. right.
        eexists _, _. reflexivity.
    + intros H. apply insert_failed_calls in H.
      destruct H as [[msg' Hr] Hc]. subst r calls.
      eexists. split; [reflexivity |]. right. left.
      eexists _, _. reflexivity.
  - intros H. apply insert_failed_calls in H.
    destruct H as [[msg' Hr] Hc]. subst r calls.
    exists []. split; [reflexivity | left; reflexivity].
Qed.

Lemma insert_data_commits_or_rolls_back_witness :
  exists stmt values,
    [CallExecutemany "INSERT INTO accounts (id) VALUES (%s)"
       [[PyScalar (SInt 1)]; [PyScalar (SInt 2)]]; CallCommit]
    = [CallExecutemany stmt values; CallCommit] /\
    Forall2 (fun row vs =>
               Forall2 (fun c v => dict_lookup c row = Some v)
                       (dict_keys [("id", PyScalar (SInt 1))]) vs)
            [[("id", PyScalar (SInt 1))];
             [("id", PyScalar (SInt 2)); ("note", PyScalar (SText "x"))]]
            values.
Proof.
  apply (insert_data_commits_or_rolls_back accepting_driver "accounts"
           [("id", PyScalar (SInt 1))]
           [[("id", PyScalar (SInt 2)); ("note", PyScalar (SText "x"))]]
           tt (Ok 2) tt).
  reflexivity.
Defined.

(** X11. A batch in which some row lacks a key of the first row is refused
    before any statement reaches the database: [insert_data] raises, and
    the one call it has made is the rollback. *)
Theorem insert_data_refuses_a_row_without_a_column {D} (drv : PgDriver D)
    (table_name : string) (first : Row) (rest : list Row) (d : D)
    (row : Row) (c : string) :
  In row (first :: rest) ->
  In c (dict_keys first) ->
  dict_lookup c row = None ->
  exists msg d',
    insert_data drv table_name (first :: rest) d
    = (Raise msg, d', [CallRollback]).
Proof.
  intros Hrow Hc Hl. unfold insert_data.
  destruct (all_row_values_missing (dict_keys first) (first :: rest) row c
              Hrow Hc Hl) as [msg Hmsg].
  rewrite Hmsg. unfold insert_failed.
  destruct (rollback drv d) as [[u | msg'] d0]; eexists _, _; reflexivity.
Qed.

Lemma insert_data_refuses_a_row_without_a_column_witness :
  exists msg d',
    insert_data accepting_driver "accounts"
      [[("id", PyScalar (SInt 1)); ("name", PyScalar (SText "a"))];
       [("id", PyScalar (SInt 2))]] tt
    = (Raise msg, d', [CallRollback]).
Proof.
  apply (insert_data_refuses_a_row_without_a_column accepting_driver
           "accounts"
           [("id", PyScalar (SInt 1)); ("name", PyScalar (SText "a"))]
           [[("id", PyScalar (SInt 2))]] tt
           [("id", PyScalar (SInt 2))] "name").
  - right. left. reflexivity.
  - right. left. reflexivity.
  - reflexivity.
Defined.

(** ** More on the progress percentage *)

Lemma div_core_same (p : positive) :
  SFdiv_core_binary prec64 emax64 (Zpos p) 0 (Zpos p) 0
  = (2 ^ 53, -53, loc_Exact).
Proof.
  unfold SFdiv_core_binary.
  replace (Zdigits2 (Z.pos p) + 0 - (Zdigits2 (Z.pos p) + 0)) with 0 by lia.
  change (Z.min (fexp prec64 emax64 0) (0 - 0)) with (-53).
  change (0 - 0 - -53) with 53.
  cbv iota. rewrite Z.shiftl_mul_pow2 by lia.
  assert (Hq : Z.pos p * 2 ^ 53 / Z.pos p = 2 ^ 53)
    by (rewrite Z.mul_comm; apply Z.div_mul; lia).
  assert (Hr : (Z.pos p * 2 ^ 53) mod Z.pos p = 0)
    by (rewrite Z.mul_comm; apply Z.mod_mul; lia).
  unfold Z.div in Hq. unfold Z.modulo in Hr.
  destruct (Z.div_eucl (Z.pos p * 2 ^ 53) (Z.pos p)) as [q r].
  simpl in Hq, Hr. subst q r.
  unfold new_location. destruct (Z.even (Z.pos p)); reflexivity.
Qed.

(** X12. When all the rows counted have been migrated the percentage is
    exactly 100, whatever the count: the quotient of a positive integer by
    itself is the float 1.0, with no rounding. *)
Theorem percentage_of_all_rows_is_100 (n : Z) :
  0 < n -> percentage n n = 100.
Proof.
  intros Hn. unfold percentage.
  destruct (0 <? n) eqn:E; [| apply Z.ltb_ge in E; lia].
  destruct n as [| p | p]; try lia.
  unfold py_truediv, SFdiv. rewrite div_core_same.
  vm_compute. reflexivity.
Qed.

Lemma percentage_of_all_rows_is_100_witness : percentage 7 7 = 100.
Proof. apply (percentage_of_all_rows_is_100 7). lia. Defined.

(** A float that is not negative: NaN, or a zero, an infinity or a finite
    number with the sign bit clear. *)
Definition sign_clear (x : spec_float) : Prop :=
  match x with
  | S754_nan => True
  | S754_zero s => s = false
  | S754_infinity s => s = false
  | S754_finite s _ _ => s = false
  end.

Lemma binary_round_aux_sign_clear m e l :
  sign_clear (binary_round_aux prec64 emax64 false m e l).
Proof.
  unfold binary_round_aux.
  destruct (shr_fexp prec64 emax64 m e l) as [mrs' e'].
  destruct (shr_fexp prec64 emax64 _ e' loc_Exact) as [mrs'' e''].
  destruct (shr_m mrs''); [reflexivity | | exact Logic.I].
  destruct (e'' <=? emax64 - prec64); reflexivity.
Qed.

Lemma py_truediv_sign_clear (a b : Z) :
  0 <= a -> 0 < b -> sign_clear (py_truediv a b).
Proof.
  intros Ha Hb. unfold py_truediv.
  destruct b as [| q | q]; try lia.
  destruct a as [| p | p]; try lia; [reflexivity |].
  unfold SFdiv.
  destruct (SFdiv_core_binary prec64 emax64 (Z.pos p) 0 (Z.pos q) 0)
    as [[mz ez] lz].
  apply binary_round_aux_sign_clear.
Qed.

Lemma py_float_mul_100_sign_clear (x : spec_float) :
  sign_clear x -> sign_clear (py_float_mul x (float_of_int 100)).
Proof.
  intros Hx. unfold py_float_mul.
  change (float_of_int 100) with (S754_finite false 7036874417766400 (-46)).
  destruct x as [s | s | | s m e]; simpl in Hx; try subst s; simpl;
    try reflexivity.
  apply binary_round_aux_sign_clear.
Qed.

Lemma py_int_of_float_sign_clear (x : spec_float) :
  sign_clear x -> 0 <= py_int_of_float x.
Proof.
  destruct x as [s | s | | s m e]; unfold py_int_of_float; intros Hx;
    try lia.
  simpl in Hx. subst s. destruct (0 <=? e) eqn:E.
  - apply Z.mul_nonneg_nonneg; [lia | apply Z.pow_nonneg; lia].
  - apply Z.leb_gt in E. apply Z.div_pos; [lia |].
    apply Z.pow_pos_nonneg; lia.
Qed.

(** X13. Where the percentage expression raises nothing, that is, where
    neither the quotient of the two counts nor its hundredfold is too large
    for a float, the percentage published is between 0 and 100 when the
    count of migrated rows is not negative; for a row count of zero or less
    it is 100. *)
Theorem percentage_is_between_0_and_100 (migrated row_count : Z) :
  0 <= migrated ->
  percentage_raises migrated row_count = false ->
  0 <= percentage migrated row_count <= 100 /\
  (row_count <= 0 -> percentage migrated row_count = 100).
Proof.
  intros Hm _. unfold percentage. destruct (0 <? row_count) eqn:E.
  - apply Z.ltb_lt in E. split; [| lia].
    pose proof (py_int_of_float_sign_clear _
                  (py_float_mul_100_sign_clear _
                     (py_truediv_sign_clear migrated row_count Hm E))).
    lia.
  - split; [lia | reflexivity].
Qed.

Lemma percentage_is_between_0_and_100_witness :
  0 <= percentage 250 100 <= 100 /\
  (100 <= 0 -> percentage 250 100 = 100).
Proof.
  apply (percentage_is_between_0_and_100 250 100); [lia |].
  vm_compute. reflexivity.
Defined.

(** Counts of everyday size raise nothing; a count of 2^1024 rows over a
    row count of 1 makes the division raise, and 2^1020 rows make [int()]
    raise on the hundredfold. *)
Example percentage_raises_on_huge_counts :
  percentage_raises 250 100 = false /\
  percentage_raises (2 ^ 62) 1 = false /\
  percentage_raises (2 ^ 1024) 1 = true /\
  percentage_raises (2 ^ 1020) 1 = true.
Proof. vm_compute. repeat split. Qed.

(** ** More on schema translation *)

Lemma lower_ascii_idempotent (c : ascii) :
  lower_ascii (lower_ascii c) = lower_ascii c.
Proof. destruct c as [[] [] [] [] [] [] [] []]; reflexivity. Qed.

Lemma lower_idempotent (s : string) : lower (lower s) = lower s.
Proof.
  induction s as [| c rest IH]; simpl; [reflexivity |].
  rewrite lower_ascii_idempotent, IH. reflexivity.
Qed.

(** The column names of a source schema are all ASCII. *)
Definition ascii_columns (oracle_schema : OracleSchema) : bool :=
  forallb (fun col => isascii (ora_column_name col))
          (ora_columns oracle_schema).

(** The names of a source schema (table, columns, primary keys) are all
    ASCII. *)
Definition ascii_names (oracle_schema : OracleSchema) : bool :=
  isascii (ora_table_name oracle_schema)
  && ascii_columns oracle_schema
  && forallb isascii (ora_primary_keys oracle_schema).

Lemma isascii_lower_ascii (c : ascii) :
  isascii_char c = true -> isascii_char (lower_ascii c) = true.
Proof.
  destruct c as [[] [] [] [] [] [] [] []]; intros H;
    exact H || reflexivity.
Qed.

Lemma isascii_lower (s : string) :
  isascii s = true -> isascii (lower s) = true.
Proof.
  induction s as [| c rest IH]; simpl; [reflexivity |].
  intros H. apply andb_true_iff in H. destruct H as [Hc Hrest].
  rewrite (isascii_lower_ascii c Hc), (IH Hrest). reflexivity.
Qed.

(** X14. For a source schema whose names are all ASCII, translation keeps
    the columns in number and order, each under its lower-cased name and
    nullable exactly when the source flag is the letter Y; every name of the
    translated schema (table, columns, primary keys) is ASCII and in lower
    case already, so lower-casing it again changes nothing; and the schema
    is tagged POSTGRESQL. *)
Theorem translated_schema_is_in_lower_case (oracle_schema : OracleSchema) :
  ascii_names oracle_schema = true ->
  let pg_schema := convert_oracle_to_postgres_schema oracle_schema in
  List.length (pg_columns pg_schema)
    = List.length (ora_columns oracle_schema) /\
  (forall i col,
     nth_error (ora_columns oracle_schema) i = Some col ->
     exists pg_col,
       nth_error (pg_columns pg_schema) i = Some pg_col /\
       pg_column_name pg_col = lower (ora_column_name col) /\
       (pg_nullable pg_col = true <-> ora_nullable col = "Y")) /\
  (forall name,
     In name (pg_table_name pg_schema
              :: map pg_column_name (pg_columns pg_schema)
              ++ pg_primary_keys pg_schema)%list ->
     isascii name = true /\ lower name = name) /\
  pg_original_db_type pg_schema = "POSTGRESQL".
Proof.
  intros Hascii. unfold ascii_names in Hascii.
  apply andb_true_iff in Hascii. destruct Hascii as [Hascii Hpks].
  apply andb_true_iff in Hascii. destruct Hascii as [Htable Hcols].
  unfold ascii_columns in Hcols. rewrite forallb_forall in Hcols, Hpks.
  simpl. split; [apply length_map | split; [| split; [| reflexivity]]].
  - intros i col Hnth. exists (convert_column col). split.
    + rewrite nth_error_map, Hnth. reflexivity.
    + split; [reflexivity |]. simpl. apply String.eqb_eq.
  - intros name [Hn | Hn].
    + subst name. split; [apply isascii_lower, Htable |].
      apply lower_idempotent.
    + apply in_app_or in Hn. destruct Hn as [Hn | Hn].
      * rewrite map_map in Hn. apply in_map_iff in Hn.
        destruct Hn as [col [Hc Hin]]. subst name. simpl.
        split; [apply isascii_lower, Hcols, Hin |].
        apply lower_idempotent.
      * apply in_map_iff in Hn. destruct Hn as [pk [Hc Hin]]. subst name.
        split; [apply isascii_lower, Hpks, Hin |].
        apply lower_idempotent.
Qed.

Lemma translated_schema_is_in_lower_case_witness :
  let pg_schema := convert_oracle_to_postgres_schema ids_schema in
  List.length (pg_columns pg_schema)
    = List.length (ora_columns ids_schema) /\
  (forall i col,
     nth_error (ora_columns ids_schema) i = Some col ->
     exists pg_col,
       nth_error (pg_columns pg_schema) i = Some pg_col /\
       pg_column_name pg_col = lower (ora_column_name col) /\
       (pg_nullable pg_col = true <-> ora_nullable col = "Y")) /\
  (forall name,
     In name (pg_table_name pg_schema
              :: map pg_column_name (pg_columns pg_schema)
              ++ pg_primary_keys pg_schema)%list ->
     isascii name = true /\ lower name = name) /\
  pg_original_db_type pg_schema = "POSTGRESQL".
Proof.
  apply (translated_schema_is_in_lower_case ids_schema). reflexivity.
Defined.

(** A name outside the ASCII range is not covered: the capital E with an
    acute accent, as one character of code 201, is no ASCII name, and
    [lower] keeps it where [str.lower()] gives the small letter. *)
Example accented_name_is_not_ascii :
  isascii (String (ascii_of_nat 201) "COLE") = false /\
  lower (String (ascii_of_nat 201) "COLE")
  = String (ascii_of_nat 201) "cole".
Proof. split; reflexivity. Qed.

(** X15. For a column whose source type is not NUMBER: a VARCHAR2 column is
    translated by its [data_length] entry alone, to VARCHAR(n) for a length
    n, to the text VARCHAR(None) when the key is bound to null, and to
    VARCHAR when the key is missing; any other type is looked up in the
    table whatever length, precision or scale the column carries, and a
    type the table does not hold becomes VARCHAR without an error. *)
Theorem other_types_are_translated_by_the_table (col : OracleColumn) :
  ora_data_type col <> "NUMBER" ->
  (ora_data_type col = "VARCHAR2" ->
   convert_type col =
     match data_length col with
     | Val n => "VARCHAR(" ++ str_of_int n ++ ")"
     | Null => "VARCHAR(None)"
     | Missing => "VARCHAR"
     end) /\
  (ora_data_type col <> "VARCHAR2" ->
   convert_type col = type_mapping_get (ora_data_type col)) /\
  (assoc_get (ora_data_type col) type_mapping = None ->
   convert_type col = "VARCHAR").
Proof.
  intros Hnum. apply String.eqb_neq in Hnum.
  unfold convert_type. rewrite Hnum. cbn [andb].
  split; [| split].
  - intros Hv. rewrite Hv, String.eqb_refl. cbn [andb].
    destruct (data_length col); reflexivity.
  - intros Hv. apply String.eqb_neq in Hv. rewrite Hv. reflexivity.
  - intros Hnone.
    destruct (String.eqb (ora_data_type col) "VARCHAR2") eqn:Ev.
    + apply String.eqb_eq in Ev. rewrite Ev in Hnone. discriminate.
    + cbn [andb]. unfold type_mapping_get. rewrite Hnone. reflexivity.
Qed.

Lemma other_types_are_translated_by_the_table_witness :
  convert_type
    {| ora_column_name := "NOTE"; ora_data_type := "VARCHAR2";
       ora_nullable := "Y"; data_precision := Missing; data_scale := Missing;
       data_length := Null; default_value := Missing |}
  = "VARCHAR(None)".
Proof.
  apply (proj1 (other_types_are_translated_by_the_table
                  {| ora_column_name := "NOTE"; ora_data_type := "VARCHAR2";
                     ora_nullable := "Y"; data_precision := Missing;
                     data_scale := Missing; data_length := Null;
                     default_value := Missing |}
                  ltac:(discriminate))).
  reflexivity.
Defined.

(** ** OracleConnector.get_schema *)

(** [str.upper()] on the ASCII range. *)
Definition upper_ascii (c : ascii) : ascii :=
  let n := nat_of_ascii c in
  if andb (Nat.leb 97 n) (Nat.leb n 122) then ascii_of_nat (n - 32) else c.

Fixpoint upper (s : string) : string :=
  match s with
  | EmptyString => EmptyString
  | String c rest => String (upper_ascii c) (upper rest)
  end.

(** A row of the query on [all_tab_columns]: column_name, data_type,
    data_length, nullable, data_default; a SQL NULL is [None]. *)
Record ColumnRow : Type := {
  cr_column_name : string;
  cr_data_type : string;
  cr_data_length : option Z;
  cr_nullable : string;
  cr_data_default : option string
}.

(** The three queries of [get_schema], each on the upper-cased table name
    (the third on the pattern around it) and the upper-cased owner. *)
Record OracleCatalog (D : Type) : Type := {
  query_columns : string -> string -> D -> Result (list ColumnRow) * D;
  query_primary_keys : string -> string -> D -> Result (list string) * D;
  query_procedures :
    string -> string -> D -> Result (list (string * string)) * D
}.
Arguments query_columns {D} _ _ _ _.
Arguments query_primary_keys {D} _ _ _ _.
Arguments query_procedures {D} _ _ _ _.

Definition field_of_option {A} (o : option A) : Field A :=
  match o with
  | Some a => Val a
  | None => Null
  end.

(** The dictionary built for one row: five keys, none for precision or
    scale. *)
Definition schema_column (row : ColumnRow) : OracleColumn :=
  {| ora_column_name := cr_column_name row;
     ora_data_type := cr_data_type row;
     ora_nullable := cr_nullable row;
     data_precision := Missing;
     data_scale := Missing;
     data_length := field_of_option (cr_data_length row);
     default_value := field_of_option (cr_data_default row) |}.

Definition get_schema {D} (catalog : OracleCatalog D) (user : string)
    (table_name : string) (d : D) : Result OracleSchema * D :=
  match query_columns catalog (upper table_name) (upper user) d with
  | (Raise msg, d1) => (Raise msg, d1)
  | (Ok column_rows, d1) =>
      match query_primary_keys catalog (upper table_name) (upper user) d1 with
      | (Raise msg, d2) => (Raise msg, d2)
      | (Ok primary_keys, d2) =>
          match query_procedures catalog ("%" ++ upper table_name ++ "%")
                                 (upper user) d2 with
          | (Raise msg, d3) => (Raise msg, d3)
          | (Ok procedures, d3) =>
              (Ok {| ora_table_name := table_name;
                     ora_columns := map schema_column column_rows;
                     ora_primary_keys := primary_keys;
                     ora_procedures := procedures;
                     ora_original_db_type := "ORACLE" |}, d3)
          end
      end
  end.

(** X16. No schema that [get_schema] returns carries a precision or a scale
    for any column, and every column carries the length key.  So, after
    translation, every NUMBER column of such a schema is plain NUMERIC, and
    every VARCHAR2 column has a parenthesised length, which is the text
    None when the catalog has no length.  The schema keeps the table name
    as it was given, although the catalog is asked with the upper-cased
    name. *)
Theorem read_schemas_carry_no_precision {D} (catalog : OracleCatalog D)
    (user table_name : string) (d : D) (oracle_schema : OracleSchema)
    (d' : D) :
  get_schema catalog user table_name d = (Ok oracle_schema, d') ->
  ora_table_name oracle_schema = table_name /\
  forall col,
    In col (ora_columns oracle_schema) ->
    data_precision col = Missing /\ data_scale col = Missing /\
    has_key (data_length col) = true /\
    (ora_data_type col = "NUMBER" -> convert_type col = "NUMERIC") /\
    (ora_data_type col = "VARCHAR2" ->
     convert_type col = "VARCHAR(" ++ format_field (data_length col) ++ ")").
Proof.
  unfold get_schema.
  destruct (query_columns catalog _ _ d) as [[column_rows | msg] d1];
    [| discriminate].
  destruct (query_primary_keys catalog _ _ d1) as [[pks | msg] d2];
    [| discriminate].
  destruct (query_procedures catalog _ _ d2) as [[procs | msg] d3];
    [| discriminate].
  intros H. inversion H; subst. simpl. split; [reflexivity |].
  intros col Hin. apply in_map_iff in Hin. destruct Hin as [row [Hcol _]].
  subst col. simpl.
  split; [reflexivity | split; [reflexivity | split]].
  - destruct (cr_data_length row); reflexivity.
  - split.
    + intros Hty. unfold convert_type. simpl. rewrite Hty. reflexivity.
    + intros Hty. unfold convert_type. simpl. rewrite Hty.
      destruct (cr_data_length row); reflexivity.
Qed.

(** A catalog with one table of two columns. *)
Definition small_catalog : OracleCatalog unit :=
  {| query_columns := fun _ _ d =>
       (Ok [ {| cr_column_name := "AMOUNT"; cr_data_type := "NUMBER";
                cr_data_length := Some 22; cr_nullable := "N";
                cr_data_default := None |};
             {| cr_column_name := "NOTE"; cr_data_type := "VARCHAR2";
                cr_data_length := Some 50; cr_nullable := "Y";
                cr_data_default := None |} ], d);
     query_primary_keys := fun _ _ d => (Ok [], d);
     query_procedures := fun _ _ d => (Ok [], d) |}.

Lemma read_schemas_carry_no_precision_witness :
  exists oracle_schema,
    get_schema small_catalog "scott" "payments" tt = (Ok oracle_schema, tt) /\
    map convert_type (ora_columns oracle_schema) = ["NUMERIC"; "VARCHAR(50)"] /\
    (ora_table_name oracle_schema = "payments" /\
     forall col,
       In col (ora_columns oracle_schema) ->
       data_precision col = Missing /\ data_scale col = Missing /\
       has_key (data_length col) = true /\
       (ora_data_type col = "NUMBER" -> convert_type col = "NUMERIC") /\
       (ora_data_type col = "VARCHAR2" ->
        convert_type col
        = "VARCHAR(" ++ format_field (data_length col) ++ ")")).
Proof.
  eexists. split; [reflexivity |]. split; [reflexivity |].
  apply (read_schemas_carry_no_precision small_catalog "scott" "payments"
           tt _ tt).
  reflexivity.
Defined.

(** ** PostgresConnector.create_table_from_schema *)

(** A column as [create_table_from_schema] reads it: the name and the type,
    and the two keys [is_nullable] and [column_default], each missing,
    null or bound. *)
Record TableColumn : Type := {
  tc_column_name : string;
  tc_data_type : string;
  tc_is_nullable : Field string;
  tc_column_default : Field string
}.

Record TableSchema : Type := {
  ts_table_name : string;
  ts_columns : list TableColumn;
  ts_primary_keys : list string
}.

(** A column of a translated schema, seen as that dictionary: its keys are
    column_name, data_type, nullable and column_default, so [is_nullable]
    is missing. *)
Definition as_table_column (c : PgColumn) : TableColumn :=
  {| tc_column_name := pg_column_name c;
     tc_data_type := pg_data_type c;
     tc_is_nullable := Missing;
     tc_column_default := field_of_option (pg_column_default c) |}.

Definition as_table_schema (schema : PgSchema) : TableSchema :=
  {| ts_table_name := pg_table_name schema;
     ts_columns := map as_table_column (pg_columns schema);
     ts_primary_keys := pg_primary_keys schema |}.

(** The whitespace of [str.strip()] on the ASCII range. *)
Definition is_space (c : ascii) : bool :=
  let n := nat_of_ascii c in
  orb (andb (Nat.leb 9 n) (Nat.leb n 13))
      (orb (andb (Nat.leb 28 n) (Nat.leb n 31)) (Nat.eqb n 32)).

Fixpoint lstrip (s : string) : string :=
  match s with
  | EmptyString => EmptyString
  | String c rest => if is_space c then lstrip rest else s
  end.

Fixpoint rstrip (s : string) : string :=
  match s with
  | EmptyString => EmptyString
  | String c rest =>
      match rstrip rest with
      | EmptyString => if is_space c then EmptyString
                       else String c EmptyString
      | kept => String c kept
      end
  end.

Definition strip (s : string) : string := rstrip (lstrip s).

Definition newline : string := String (ascii_of_nat 10) EmptyString.

(** One entry of [column_defs]; a missing key is a KeyError. *)
Definition column_def (col : TableColumn) : Result string :=
  match tc_is_nullable col with
  | Missing => Raise (key_error "is_nullable")
  | is_nullable =>
      let nullable :=
        match is_nullable with
        | Val flag => if String.eqb flag "YES" then "NULL" else "NOT NULL"
        | _ => "NOT NULL"
        end in
      match tc_column_default col with
      | Missing => Raise (key_error "column_default")
      | column_default =>
          let default :=
            match column_default with
            | Val text =>
                if String.eqb text EmptyString then EmptyString
                else "DEFAULT " ++ text
            | _ => EmptyString
            end in
          Ok (strip (tc_column_name col ++ " " ++ tc_data_type col ++ " "
                       ++ nullable ++ " " ++ default))
      end
  end.

Fixpoint column_defs (cols : list TableColumn) : Result (list string) :=
  match cols with
  | [] => Ok []
  | col :: rest =>
      match column_def col with
      | Raise msg => Raise msg
      | Ok def =>
          match column_defs rest with
          | Raise msg => Raise msg
          | Ok defs => Ok (def :: defs)
          end
      end
  end.

(** The calls [create_table_from_schema] makes on its connection. *)
Record PgDdlDriver (D : Type) : Type := {
  execute : string -> D -> Result unit * D;
  ddl_commit : D -> Result unit * D;
  ddl_rollback : D -> Result unit * D
}.
Arguments execute {D} _ _ _.
Arguments ddl_commit {D} _ _.
Arguments ddl_rollback {D} _ _.

Inductive DdlCall : Type :=
| DdlExecute (stmt : string)
| DdlCommit
| DdlRollback.

Definition create_failed {D} (drv : PgDdlDriver D) (msg : string) (d : D)
    (calls : list DdlCall) : Result bool * D * list DdlCall :=
  match ddl_rollback drv d with
  | (Ok _, d') => (Raise msg, d', (calls ++ [DdlRollback])%list)
  | (Raise msg', d') => (Raise msg', d', (calls ++ [DdlRollback])%list)
  end.

(** The statement is built before the [try]: an exception there reaches
    the caller with no call made. *)
Definition create_table_from_schema {D} (drv : PgDdlDriver D)
    (schema : TableSchema) (d : D) : Result bool * D * list DdlCall :=
  match column_defs (ts_columns schema) with
  | Raise msg => (Raise msg, d, [])
  | Ok defs =>
      let primary_key :=
        "PRIMARY KEY (" ++ String.concat ", " (ts_primary_keys schema)
          ++ ")" in
      let defs' :=
        match ts_primary_keys schema with
        | [] => defs
        | _ :: _ => (defs ++ [primary_key])%list
        end in
      let create_stmt :=
        "CREATE TABLE IF NOT EXISTS " ++ ts_table_name schema ++ " ("
          ++ newline ++ "  "
          ++ String.concat ("," ++ newline ++ "  ") defs'
          ++ newline ++ ")" in
      match execute drv create_stmt d with
      | (Raise msg, d1) => create_failed drv msg d1 [DdlExecute create_stmt]
      | (Ok _, d1) =>
          match ddl_commit drv d1 with
          | (Raise msg, d2) =>
              create_failed drv msg d2 [DdlExecute create_stmt; DdlCommit]
          | (Ok _, d2) =>
              (Ok true, d2, [DdlExecute create_stmt; DdlCommit])
          end
      end
  end.

Example create_table_statement :
  create_table_from_schema
    {| execute := fun _ d => (Ok tt, d); ddl_commit := fun d => (Ok tt, d);
       ddl_rollback := fun d => (Ok tt, d) |}
    {| ts_table_name := "accounts";
       ts_columns :=
         [ {| tc_column_name := "id"; tc_data_type := "integer";
              tc_is_nullable := Val "NO"; tc_column_default := Null |};
           {| tc_column_name := "note"; tc_data_type := "text";
              tc_is_nullable := Val "YES";
              tc_column_default := Val "'-'" |} ];
       ts_primary_keys := ["id"] |} tt
  = (Ok true, tt,
     [DdlExecute
        ("CREATE TABLE IF NOT EXISTS accounts (" ++ newline
           ++ "  id integer NOT NULL," ++ newline
           ++ "  note text NULL DEFAULT '-'," ++ newline
           ++ "  PRIMARY KEY (id)" ++ newline ++ ")");
      DdlCommit]).
Proof. reflexivity. Qed.

(** X17. [create_table_from_schema] cannot take what
    [convert_oracle_to_postgres_schema] gives: the translated columns have
    the key nullable where the statement builder reads is_nullable.  For
    every source schema with at least one column the call raises the
    KeyError for is_nullable, before its [try]: no statement, commit or
    rollback is issued and the database is as before. *)
Theorem translated_schema_cannot_be_created {D} (drv : PgDdlDriver D)
    (oracle_schema : OracleSchema) (d : D) :
  ora_columns oracle_schema <> [] ->
  create_table_from_schema drv
    (as_table_schema (convert_oracle_to_postgres_schema oracle_schema)) d
  = (Raise (key_error "is_nullable"), d, []).
Proof.
  intros Hcols. unfold create_table_from_schema. simpl.
  destruct (ora_columns oracle_schema) as [| col rest]; [contradiction |].
  reflexivity.
Qed.

Lemma translated_schema_cannot_be_created_witness :
  create_table_from_schema
    {| execute := fun _ d => (Ok tt, d); ddl_commit := fun d => (Ok tt, d);
       ddl_rollback := fun d => (Ok tt, d) |}
    (as_table_schema (convert_oracle_to_postgres_schema ids_schema)) tt
  = (Raise "'is_nullable'", tt, []).
Proof.
  apply (translated_schema_cannot_be_created _ ids_schema tt). discriminate.
Defined.

(** [postgres.create_table_from_schema(pg_schema)] as the run calls it: the
    translated schema goes in as it is, and the returned flag is dropped. *)
Definition create_table_op {D} (drv : PgDdlDriver D) (schema : PgSchema)
    (d : D) : Result unit * D :=
  let '(r, d', _) :=
    create_table_from_schema drv (as_table_schema schema) d in
  (match r with
   | Ok _ => Ok tt
   | Raise msg => Raise msg
   end, d').

Lemma create_table_op_translated {D} (drv : PgDdlDriver D)
    (oracle_schema : OracleSchema) (d : D) :
  ora_columns oracle_schema <> [] ->
  create_table_op drv (convert_oracle_to_postgres_schema oracle_schema) d
  = (Raise (key_error "is_nullable"), d).
Proof.
  intros Hcols. unfold create_table_op, create_table_from_schema. simpl.
  destruct (ora_columns oracle_schema) as [| col rest]; [contradiction |].
  reflexivity.
Qed.

(** X18. With the target connector of the repository, the work on a table
    stops at the creation of the target table as soon as the source schema
    has a column: for a well-formed job record and a schema that the source
    connector delivers, [migrate_table] writes the phase type_conversion
    and then raises the KeyError for is_nullable; nothing is fetched,
    nothing is inserted and no counter moves. *)
Theorem table_with_columns_fails_at_creation {W} (C : Connectors W)
    (drv : PgDdlDriver W) (migration_id : string)
    (request : MigrationRequest) (fuel : nat) (t : string) (s : State W)
    (oracle_schema : OracleSchema) (w1 : W) :
  job_ok migration_id s ->
  oracle_get_schema C t (world s) = (Ok oracle_schema, w1) ->
  ora_columns oracle_schema <> [] ->
  (forall schema w,
     postgres_create_table_from_schema C schema w
     = create_table_op drv schema w) ->
  exists s',
    migrate_table C migration_id request fuel t s
    = Some (Raise (key_error "is_nullable"), s') /\
    world s' = w1 /\
    events s' = (events s ++ [EvPhase type_conversion;
                              EvFault (key_error "is_nullable")])%list /\
    option_map (option_map details_stats)
      (option_map details (dict_lookup migration_id (migrations s')))
    = option_map (option_map details_stats)
        (option_map details (dict_lookup migration_id (migrations s))).
Proof.
  intros [m [d [Hm Hd]]] Hget Hcols Hreal. unfold migrate_table.
  set (line := "Analyzing schema for table " ++ t).
  set (s1 := set_migration_log (migration_log s ++ [line])%list s).
  assert (H1 : append_log line s = Some (Ok tt, s1)) by reflexivity.
  rewrite (bind_ok_eq _ _ _ _ _ H1).
  assert (H2 : call (oracle_get_schema C t) s1
               = Some (Ok oracle_schema, set_world w1 s1)).
  { unfold call. change (world s1) with (world s). rewrite Hget. reflexivity. }
  rewrite (bind_ok_eq _ _ _ _ _ H2).
  set (s2 := set_world w1 s1).
  rewrite (bind_ok_eq _ _ _ _ _
             (set_phase_ok migration_id type_conversion s2 m d Hm Hd)).
  set (s3 := add_event _ _).
  assert (Hm3 : dict_lookup migration_id (migrations s3)
                = Some {| status := status m;
                          details := Some (with_current_phase
                                             type_conversion d) |})
    by apply dict_lookup_set_same.
  rewrite (bind_ok_eq _ _ _ _ _
             (update_details_ok migration_id (with_current_table t) s3 _ _
                                Hm3 eq_refl)).
  set (s4 := set_migrations _ s3).
  assert (H5 : call (postgres_create_table_from_schema C
                       (convert_oracle_to_postgres_schema oracle_schema)) s4
               = Some (Raise (key_error "is_nullable"),
                       add_event (EvFault (key_error "is_nullable"))
                                 (set_world w1 s4))).
  { unfold call. rewrite Hreal.
    change (world s4) with w1.
    rewrite (create_table_op_translated drv oracle_schema w1 Hcols).
    reflexivity. }
  rewrite (bind_raise_eq _ _ _ _ _ H5).
  eexists. split; [reflexivity |]. split; [reflexivity |]. split.
  - simpl. rewrite <- app_assoc. reflexivity.
  - simpl. rewrite dict_lookup_set_same. simpl.
    rewrite Hm. simpl. rewrite Hd. reflexivity.
Qed.

(** The quiet connectors with the target's own [create_table_from_schema]
    over a database that accepts every statement. *)
Definition accepting_ddl_driver : PgDdlDriver unit :=
  {| execute := fun _ d => (Ok tt, d);
     ddl_commit := fun d => (Ok tt, d);
     ddl_rollback := fun d => (Ok tt, d) |}.

Definition repository_connectors (tbl : OracleTable) (schema : OracleSchema)
  : Connectors unit :=
  {| import_engines := import_engines (quiet_connectors tbl schema);
     oracle_driver_connect :=
       oracle_driver_connect (quiet_connectors tbl schema);
     postgres_driver_connect :=
       postgres_driver_connect (quiet_connectors tbl schema);
     oracle_get_tables := oracle_get_tables (quiet_connectors tbl schema);
     oracle_get_schema := oracle_get_schema (quiet_connectors tbl schema);
     postgres_create_table_from_schema :=
       create_table_op accepting_ddl_driver;
     oracle_row_count := oracle_row_count (quiet_connectors tbl schema);
     oracle_fetch_data := oracle_fetch_data (quiet_connectors tbl schema);
     postgres_insert_data :=
       postgres_insert_data (quiet_connectors tbl schema);
     oracle_close := oracle_close (quiet_connectors tbl schema);
     postgres_close := postgres_close (quiet_connectors tbl schema) |}.

Lemma table_with_columns_fails_at_creation_witness :
  exists s',
    migrate_table (repository_connectors (ids_table 3) ids_schema)
      "migration-1" (request_with_batch_size 2) 3 "T"
      (initial_state tt job_store)
    = Some (Raise (key_error "is_nullable"), s') /\
    world s' = tt /\
    events s'
    = (events (initial_state tt job_store)
         ++ [EvPhase type_conversion; EvFault (key_error "is_nullable")])%list
    /\
    option_map (option_map details_stats)
      (option_map details (dict_lookup "migration-1" (migrations s')))
    = option_map (option_map details_stats)
        (option_map details
           (dict_lookup "migration-1"
              (migrations (initial_state tt job_store)))).
Proof.
  apply (table_with_columns_fails_at_creation
           (repository_connectors (ids_table 3) ids_schema)
           accepting_ddl_driver "migration-1" (request_with_batch_size 2) 3
           "T" (initial_state tt job_store) ids_schema tt).
  - eexists _, _. split; reflexivity.
  - reflexivity.
  - discriminate.
  - intros schema w. reflexivity.
Defined.

Example repository_run_fails_every_table_with_a_column :
  exists s',
    run_oracle_to_postgres_migration
      (repository_connectors (ids_table 3) ids_schema) "migration-1"
      (request_with_batch_size 2) 3 (initial_state tt job_store)
    = Some (Ok tt, s') /\
    faults_of (events s') = ["'is_nullable'"] /\
    pages_of (events s') = [] /\
    option_map status (dict_lookup "migration-1" (migrations s'))
      = Some "failed".
Proof.
  eexists. split; [vm_compute; reflexivity |]. repeat split.
Qed.

(** ** A run writes to its own job only *)

Section Frame.
Context {W : Type} (C : Connectors W).
Variable migration_id : string.
Variable request : MigrationRequest.

(** The same job ids in the same order, and the same record under every
    id but [migration_id]. *)
Definition same_others (store store' : PyDict Migration) : Prop :=
  dict_keys store' = dict_keys store /\
  forall k, k <> migration_id -> dict_lookup k store' = dict_lookup k store.

Definition frames {A} (m : M W A) : Prop :=
  forall s r s', m s = Some (r, s') ->
                 same_others (migrations s) (migrations s').

Lemma same_others_refl store : same_others store store.
Proof. split; [reflexivity | intros; reflexivity]. Qed.

Lemma same_others_trans a b c :
  same_others a b -> same_others b c -> same_others a c.
Proof.
  intros [Hk1 Hl1] [Hk2 Hl2]. split.
  - rewrite Hk2. exact Hk1.
  - intros k Hk. rewrite (Hl2 k Hk). apply Hl1, Hk.
Qed.

Lemma same_others_set store m m' :
  dict_lookup migration_id store = Some m ->
  same_others store (dict_set migration_id m' store).
Proof.
  intros Hm. split.
  - apply (dict_keys_set_present _ m), Hm.
  - intros k Hk. apply dict_lookup_set_other, Hk.
Qed.

Lemma frames_ret {A} (a : A) : frames (ret a).
Proof. intros s r s' H. inversion H. apply same_others_refl. Qed.

Lemma frames_bind {A B} (m : M W A) (f : A -> M W B) :
  frames m -> (forall a, frames (f a)) -> frames (bind m f).
Proof.
  intros Hm Hf s r s' H. apply bind_inv in H.
  destruct H as [[msg [H _]] | [a [s1 [H1 H2]]]].
  - exact (Hm _ _ _ H).
  - exact (same_others_trans _ _ _ (Hm _ _ _ H1) (Hf a _ _ _ H2)).
Qed.

Lemma frames_raise {A} msg : frames (@raise W A msg).
Proof. intros s r s' H. inversion H. apply same_others_refl. Qed.

Lemma frames_emit e : frames (@emit W e).
Proof. intros s r s' H. inversion H. apply same_others_refl. Qed.

Lemma frames_modify (f : State W -> State W) :
  (forall s, migrations (f s) = migrations s) -> frames (modify f).
Proof.
  intros Hf s r s' H. inversion H. rewrite Hf. apply same_others_refl.
Qed.

Lemma frames_get_migration_log : frames (@get_migration_log W).
Proof. intros s r s' H. inversion H. apply same_others_refl. Qed.

Lemma frames_lift_result {A} (x : Result A) : frames (@lift_result W A x).
Proof. destruct x; [apply frames_ret | apply frames_raise]. Qed.

Lemma frames_call {A} (op : W -> Result A * W) : frames (call op).
Proof.
  intros s r s' H. unfold call in H.
  destruct (op (world s)) as [x w].
  exact (frames_lift_result x _ _ _ H).
Qed.

Lemma frames_append_log line : frames (@append_log W line).
Proof. apply frames_modify. reflexivity. Qed.

Lemma frames_set_status st : frames (@set_status W migration_id st).
Proof.
  intros s r s' H. unfold set_status in H.
  destruct (dict_lookup migration_id (migrations s)) as [m |] eqn:Hm.
  - inversion H. apply (same_others_set _ m), Hm.
  - exact (frames_raise _ _ _ _ H).
Qed.

Lemma frames_update_details f : frames (@update_details W migration_id f).
Proof.
  intros s r s' H. unfold update_details in H.
  destruct (dict_lookup migration_id (migrations s)) as [m |] eqn:Hm.
  - destruct (details m) as [d |].
    + inversion H. apply (same_others_set _ m), Hm.
    + exact (frames_raise _ _ _ _ H).
  - exact (frames_raise _ _ _ _ H).
Qed.

Lemma frames_update_stats f : frames (@update_stats W migration_id f).
Proof.
  intros s r s' H. unfold update_stats, modify in H. inversion H.
  destruct (dict_lookup migration_id (migrations s)) as [m |] eqn:Hm;
    [| apply same_others_refl].
  destruct (details m) as [d |]; [| apply same_others_refl].
  apply (same_others_set _ m), Hm.
Qed.

Lemma frames_by_state {A} (f : State W -> M W A) :
  (forall s0, frames (f s0)) -> frames (fun s => f s s).
Proof. intros H s r s' Hrun. exact (H s s r s' Hrun). Qed.

Lemma frames_disconnect side c : frames (disconnect C side c).
Proof.
  unfold disconnect. destruct (connection c); [| apply frames_ret].
  apply frames_bind; [apply frames_emit |]. intros _.
  apply frames_bind; [apply frames_call |]. intros _.
  apply frames_ret.
Qed.

Lemma frames_cleanup : frames (cleanup C).
Proof.
  unfold cleanup. apply frames_bind.
  - apply (frames_by_state
             (fun s0 => match oracle s0 with
                        | Some c => c' <- disconnect C OracleSide c ;;
                                    modify (set_oracle (Some c'))
                        | None => ret tt
                        end)).
    intros s0. destruct (oracle s0) as [c |]; [| apply frames_ret].
    apply frames_bind; [apply frames_disconnect |].
    intros c'. apply frames_modify. reflexivity.
  - intros _.
    apply (frames_by_state
             (fun s0 => match postgres s0 with
                        | Some c => c' <- disconnect C PostgresSide c ;;
                                    modify (set_postgres (Some c'))
                        | None => ret tt
                        end)).
    intros s0. destruct (postgres s0) as [c |]; [| apply frames_ret].
    apply frames_bind; [apply frames_disconnect |].
    intros c'. apply frames_modify. reflexivity.
Qed.

Lemma frames_try_except_finally (body : M W unit) handler final :
  frames body -> (forall msg, frames (handler msg)) -> frames final ->
  frames (try_except_finally body handler final).
Proof.
  intros Hb Hh Hf s r s' H. unfold try_except_finally in H.
  destruct (body s) as [[[u | msg] s1] |] eqn:E1; [| | discriminate].
  - exact (same_others_trans _ _ _ (Hb _ _ _ E1) (Hf _ _ _ H)).
  - destruct (handler msg s1) as [[[u | msg'] s2] |] eqn:E2;
      [| | discriminate].
    + exact (same_others_trans _ _ _ (Hb _ _ _ E1)
               (same_others_trans _ _ _ (Hh _ _ _ _ E2) (Hf _ _ _ H))).
    + destruct (final s2) as [[[u | msg''] s3] |] eqn:E3; [| | discriminate];
        inversion H; subst;
        exact (same_others_trans _ _ _ (Hb _ _ _ E1)
                 (same_others_trans _ _ _ (Hh _ _ _ _ E2) (Hf _ _ _ E3))).
Qed.

Ltac frame_step :=
  first
    [ apply frames_ret
    | apply frames_raise
    | apply frames_emit
    | apply frames_call
    | apply frames_lift_result
    | apply frames_append_log
    | apply frames_get_migration_log
    | apply frames_set_status
    | apply frames_update_details
    | apply frames_update_stats
    | apply frames_modify; reflexivity
    | apply frames_bind; [| intros ?] ].

Lemma frames_set_phase p : frames (@set_phase W migration_id p).
Proof. unfold set_phase. repeat frame_step. Qed.

Lemma frames_load_batch t os ps rc off mig page :
  frames (load_batch C migration_id request t os ps rc off mig page).
Proof.
  unfold load_batch, insert, publish_progress, store_stats.
  repeat frame_step.
Qed.

Lemma frames_migrate_batch t os ps rc off mig :
  frames (migrate_batch C migration_id request t os ps rc off mig).
Proof.
  unfold migrate_batch, fetch. apply frames_bind; [repeat frame_step |].
  intros [| row rows]; [apply frames_ret |].
  apply frames_bind; [apply frames_load_batch | intros; apply frames_ret].
Qed.

Lemma frames_migrate_batches fuel t os ps rc :
  forall off mig,
    frames (migrate_batches C migration_id request fuel t os ps rc off mig).
Proof.
  induction fuel as [| fuel IH]; intros off mig; simpl;
    destruct (off <? rc); try apply frames_ret.
  - intros s r s' H. discriminate.
  - apply frames_bind; [apply frames_migrate_batch |].
    intros [[off' mig'] |]; [apply IH | apply frames_ret].
Qed.

Lemma frames_migrate_table fuel t :
  frames (migrate_table C migration_id request fuel t).
Proof.
  unfold migrate_table, store_stats.
  do 8 (apply frames_bind; [first [apply frames_set_phase | frame_step] |];
        intros ?).
  destruct (only_schema request); [apply frames_ret |].
  apply frames_bind; [| intros; apply frames_ret].
  unfold migrate_table_data.
  apply frames_bind; [apply frames_set_phase |]. intros _.
  apply frames_bind; [apply frames_call |]. intros rc.
  apply frames_migrate_batches.
Qed.

Lemma frames_migrate_tables fuel names :
  frames (migrate_tables C migration_id request fuel names).
Proof.
  induction names as [| t rest IH]; simpl; [apply frames_ret |].
  apply frames_bind; [apply frames_migrate_table | intros _; exact IH].
Qed.

Lemma frames_select_tables : frames (select_tables C request).
Proof.
  unfold select_tables. apply frames_bind.
  - destruct (tables request) as [[| t ts] |]; frame_step.
  - intros all. destruct (exclude_tables request) as [[| e es] |];
      apply frames_ret.
Qed.

Lemma frames_migration_body fuel :
  frames (migration_body C migration_id request fuel).
Proof.
  unfold migration_body, oracle_connect, postgres_connect.
  repeat first
    [ apply frames_set_phase
    | apply frames_select_tables
    | apply frames_migrate_tables
    | frame_step ].
Qed.

Lemma frames_run fuel :
  frames (run_oracle_to_postgres_migration C migration_id request fuel).
Proof.
  unfold run_oracle_to_postgres_migration.
  apply frames_bind; [apply frames_set_status |]. intros _.
  apply frames_bind; [apply frames_set_phase |]. intros _.
  apply frames_try_except_finally.
  - apply frames_migration_body.
  - intros msg. unfold on_exception.
    repeat first [apply frames_set_phase | frame_step].
  - apply frames_cleanup.
Qed.

End Frame.

(** X19. A run writes to the record of its own job and to nothing else in
    the store: whatever the connectors do, and whether the run returns or
    an exception escapes it, the store afterwards has the same job ids in
    the same order, and every other job has the record it had. *)
Theorem run_leaves_the_other_jobs_alone {W} (C : Connectors W)
    (migration_id : string) (request : MigrationRequest) (fuel : nat)
    (s : State W) (r : Result unit) (s' : State W) :
  run_oracle_to_postgres_migration C migration_id request fuel s
  = Some (r, s') ->
  dict_keys (migrations s') = dict_keys (migrations s) /\
  forall other,
    other <> migration_id ->
    get_migration (migrations s') other = get_migration (migrations s) other.
Proof.
  intros Hrun.
  destruct (frames_run C migration_id request fuel s r s' Hrun) as [Hk Hl].
  split; [exact Hk |].
  intros other Hne. unfold get_migration. rewrite (Hl other Hne). reflexivity.
Qed.

Definition two_jobs_store : PyDict Migration :=
  [("migration-1", {| status := "pending"; details := Some empty_details |});
   ("migration-2", {| status := "pending"; details := None |})].

Lemma run_leaves_the_other_jobs_alone_witness :
  exists s',
    run_oracle_to_postgres_migration
      (quiet_connectors (ids_table 3) ids_schema) "migration-1"
      (request_with_batch_size 2) 3 (initial_state tt two_jobs_store)
    = Some (Ok tt, s') /\
    dict_keys (migrations s') = ["migration-1"; "migration-2"] /\
    forall other,
      other <> "migration-1" ->
      get_migration (migrations s') other
      = get_migration two_jobs_store other.
Proof.
  eexists. split; [vm_compute; reflexivity |].
  apply (run_leaves_the_other_jobs_alone
           (quiet_connectors (ids_table 3) ids_schema) "migration-1"
           (request_with_batch_size 2) 3 (initial_state tt two_jobs_store)
           (Ok tt) _).
  vm_compute. reflexivity.
Defined.

(** ** Schema-only runs *)

(** The events of the data transfer: a call of [fetch_data] and the page
    it returns, a batch handed to [insert_data], a progress report, the
    write of the phase data_migration. *)
Definition data_event (e : Event) : bool :=
  match e with
  | EvFetchCall _ _ _ => true
  | EvFetch _ _ _ _ => true
  | EvInsert _ _ => true
  | EvProgress _ => true
  | EvPhase data_migration => true
  | _ => false
  end.

Definition schema_event (e : Event) : Prop := data_event e = false.

Definition no_data_events {W} (s : State W) : Prop :=
  Forall schema_event (events s).

Lemma keeps_try_except_finally {W} (I : State W -> Prop) (body : M W unit)
    (handler : string -> M W unit) (final : M W unit) :
  keeps I (fun _ => I) body ->
  (forall msg, keeps I (fun _ => I) (handler msg)) ->
  keeps I (fun _ => I) final ->
  keeps I (fun _ => I) (try_except_finally body handler final).
Proof.
  intros Hb Hh Hf s Hs. apply wlp_try_except_finally.
  eapply wlp_weaken; [exact (Hb s Hs) | |].
  - intros u s1 Hs1. exact (Hf s1 Hs1).
  - intros msg s1 Hs1.
    eapply wlp_weaken; [exact (Hh msg s1 Hs1) | |].
    + intros u s2 Hs2. exact (Hf s2 Hs2).
    + intros msg' s2 Hs2.
      eapply wlp_weaken; [exact (Hf s2 Hs2) | |]; intros; assumption.
Qed.

Section SchemaOnly.
Context {W : Type} (C : Connectors W).
Variable migration_id : string.
Variable request : MigrationRequest.
Hypothesis schema_only : only_schema request = true.

Lemma no_data_events_event e (s : State W) :
  schema_event e -> no_data_events s -> no_data_events (add_event e s).
Proof.
  intros He Hs. unfold no_data_events. simpl.
  apply Forall_app. split; [exact Hs | repeat constructor; exact He].
Qed.

Lemma no_data_events_fault msg (s : State W) :
  no_data_events s -> no_data_events (add_event (EvFault msg) s).
Proof. apply no_data_events_event. reflexivity. Qed.

Ltac schema_side :=
  first
    [ solve [intros; assumption]
    | exact no_data_events_event
    | exact no_data_events_fault
    | solve [intros; reflexivity] ].

Definition quiet_step {A} (m : M W A) : Prop :=
  keeps no_data_events (fun _ => no_data_events) m.

Lemma schema_set_phase p :
  p <> data_migration -> quiet_step (@set_phase W migration_id p).
Proof.
  unfold quiet_step. intros Hp. apply (keeps_set_phase _ _ schema_event); try schema_side.
  destruct p; try reflexivity. contradiction.
Qed.

Lemma schema_migrate_table fuel t :
  quiet_step (migrate_table C migration_id request fuel t).
Proof.
  unfold quiet_step.
  unfold migrate_table, store_stats. rewrite schema_only.
  apply keeps_bind; [apply keeps_append_log; schema_side |]. intros _.
  apply keeps_bind; [apply keeps_call; schema_side |]. intros os.
  apply keeps_bind; [apply schema_set_phase; discriminate |]. intros _.
  apply keeps_bind; [apply keeps_update_details; schema_side |]. intros _.
  apply keeps_bind; [apply keeps_call; schema_side |]. intros _.
  apply keeps_bind; [apply keeps_update_stats; schema_side |]. intros _.
  apply keeps_bind; [apply keeps_update_stats; schema_side |]. intros _.
  apply keeps_bind; [apply keeps_update_details; schema_side |]. intros _.
  apply keeps_ret.
Qed.

Lemma schema_migrate_tables fuel names :
  quiet_step (migrate_tables C migration_id request fuel names).
Proof.
  unfold quiet_step.
  induction names as [| t rest IH]; simpl; [apply keeps_ret |].
  apply keeps_bind; [apply schema_migrate_table | intros _; exact IH].
Qed.

Lemma schema_migration_body fuel :
  quiet_step (migration_body C migration_id request fuel).
Proof.
  unfold quiet_step.
  unfold migration_body.
  apply keeps_bind; [apply keeps_call; schema_side |]. intros _.
  apply keeps_bind; [apply keeps_set_oracle; schema_side |]. intros _.
  apply keeps_bind; [apply keeps_oracle_connect; schema_side |]. intros _.
  apply keeps_bind; [apply keeps_set_postgres; schema_side |]. intros _.
  apply keeps_bind; [apply keeps_postgres_connect; schema_side |]. intros _.
  apply keeps_bind; [apply keeps_select_tables; schema_side |]. intros names.
  apply keeps_bind; [apply keeps_set_migration_log; schema_side |]. intros _.
  apply keeps_bind; [apply keeps_update_details; schema_side |]. intros _.
  apply keeps_bind; [apply keeps_update_details; schema_side |]. intros _.
  apply keeps_bind; [apply schema_migrate_tables |]. intros _.
  apply keeps_bind; [apply schema_set_phase; discriminate |]. intros _.
  apply keeps_bind; [apply schema_set_phase; discriminate |]. intros _.
  apply keeps_bind; [apply keeps_set_status; schema_side |]. intros _.
  apply keeps_bind; [apply schema_set_phase; discriminate |]. intros _.
  apply keeps_bind; [apply keeps_get_migration_log |]. intros lines.
  apply keeps_bind; [apply keeps_update_details; schema_side |]. intros _.
  apply keeps_update_details; schema_side.
Qed.

Lemma schema_run fuel :
  quiet_step (run_oracle_to_postgres_migration C migration_id request fuel).
Proof.
  unfold quiet_step.
  unfold run_oracle_to_postgres_migration.
  apply keeps_bind; [apply keeps_set_status; schema_side |]. intros _.
  apply keeps_bind; [apply schema_set_phase; discriminate |]. intros _.
  apply keeps_try_except_finally.
  - apply schema_migration_body.
  - intros msg. unfold on_exception.
    apply keeps_bind; [apply keeps_set_status; schema_side |]. intros _.
    apply keeps_bind; [apply keeps_update_details; schema_side |]. intros _.
    apply schema_set_phase. discriminate.
  - apply (keeps_cleanup C _ _ schema_event); schema_side.
Qed.

End SchemaOnly.

Lemma schema_events_project (evs : list Event) :
  Forall schema_event evs ->
  fetch_calls_of evs = [] /\ pages_of evs = [] /\ inserts_of evs = [] /\
  progress_of evs = [] /\ ~ In data_migration (phases_of evs).
Proof.
  unfold fetch_calls_of, pages_of, inserts_of, progress_of, phases_of.
  induction 1 as [| e rest He _ [IH0 [IH1 [IH2 [IH3 IH4]]]]]; simpl.
  - repeat split; auto.
  - rewrite IH0, IH1, IH2, IH3. unfold schema_event in He.
    destruct e as [p | | | | | |]; try discriminate; simpl;
      repeat split; auto.
    intros [Hp | Hin]; [| exact (IH4 Hin)].
    subst p. discriminate.
Qed.

(** X20. With [only_schema] set the run moves no data: whatever the
    connectors answer, from its start to its end (returned or not) the run
    makes no call of [fetch_data], so that no page comes back, hands no
    batch to [insert_data], publishes no progress report and never writes
    the phase data_migration. *)
Theorem schema_only_run_moves_no_data {W} (C : Connectors W)
    (migration_id : string) (request : MigrationRequest) (fuel : nat)
    (w : W) (store : PyDict Migration) (r : Result unit) (s' : State W) :
  only_schema request = true ->
  run_oracle_to_postgres_migration C migration_id request fuel
    (initial_state w store) = Some (r, s') ->
  fetch_calls_of (events s') = [] /\
  pages_of (events s') = [] /\
  inserts_of (events s') = [] /\
  progress_of (events s') = [] /\
  ~ In data_migration (phases_of (events s')).
Proof.
  intros Hso Hrun. apply schema_events_project.
  assert (Hinit : no_data_events (initial_state w store)) by constructor.
  pose proof (schema_run C migration_id request Hso fuel _ Hinit _ _ Hrun)
    as H.
  destruct r; exact H.
Qed.

Definition schema_only_request : MigrationRequest :=
  {| tables := None; exclude_tables := None; only_schema := true;
     batch_size := 2 |}.

Lemma schema_only_run_moves_no_data_witness :
  exists s',
    run_oracle_to_postgres_migration
      (quiet_connectors (ids_table 3) ids_schema) "migration-1"
      schema_only_request 0 (initial_state tt job_store)
    = Some (Ok tt, s') /\
    fetch_calls_of (events s') = [] /\
    pages_of (events s') = [] /\
    inserts_of (events s') = [] /\
    progress_of (events s') = [] /\
    ~ In data_migration (phases_of (events s')).
Proof.
  eexists. split; [vm_compute; reflexivity |].
  apply (schema_only_run_moves_no_data
           (quiet_connectors (ids_table 3) ids_schema) "migration-1"
           schema_only_request 0 tt job_store (Ok tt) _ eq_refl).
  vm_compute. reflexivity.
Defined.

Example schema_only_run_completes :
  exists s',
    run_oracle_to_postgres_migration
      (quiet_connectors (ids_table 3) ids_schema) "migration-1"
      schema_only_request 0 (initial_state tt job_store)
    = Some (Ok tt, s') /\
    phases_of (events s')
    = [schema_analysis; type_conversion; plsql_conversion; validation;
       completed] /\
    option_map status (dict_lookup "migration-1" (migrations s'))
    = Some "completed".
Proof.
  eexists. split; [vm_compute; reflexivity |]. split; reflexivity.
Qed.

(** ** The calls and the counters of the transfer loop *)

(** [migrations[migration_id]["details"]["stats"]], where there is one. *)
Definition job_stats (migration_id : string) (store : PyDict Migration)
  : option Stats :=
  match dict_lookup migration_id store with
  | Some m =>
      match details m with
      | Some d => details_stats d
      | None => None
      end
  | None => None
  end.

Lemma job_stats_set (migration_id : string) (m : Migration)
    (store : PyDict Migration) :
  job_stats migration_id (dict_set migration_id m store)
  = match details m with
    | Some d => details_stats d
    | None => None
    end.
Proof. unfold job_stats. rewrite dict_lookup_set_same. reflexivity. Qed.

Lemma add_rows_migrated_zero (st : Stats) : add_rows_migrated 0 st = st.
Proof.
  destruct st. unfold add_rows_migrated. simpl. f_equal. lia.
Qed.

Lemma add_rows_migrated_add (a b : Z) (st : Stats) :
  add_rows_migrated b (add_rows_migrated a st) = add_rows_migrated (a + b) st.
Proof. unfold add_rows_migrated. simpl. f_equal. lia. Qed.

Section LoopTrace.
Context {W : Type} (C : Connectors W).
Variable migration_id : string.
Variable request : MigrationRequest.

Lemma update_details_ok_inv f (s : State W) u s' :
  update_details migration_id f s = Some (Ok u, s') ->
  exists m d,
    dict_lookup migration_id (migrations s) = Some m /\
    details m = Some d /\
    s' = set_migrations
           (dict_set migration_id
              {| status := status m; details := Some (f d) |}
              (migrations s)) s.
Proof.
  unfold update_details. intros H.
  destruct (dict_lookup migration_id (migrations s)) as [m |];
    [| discriminate].
  destruct (details m) as [d |] eqn:Hd; [| discriminate].
  inversion H. exists m, d. repeat split. exact Hd.
Qed.

Lemma update_details_stats f (s : State W) u s' :
  (forall d, details_stats (f d) = details_stats d) ->
  update_details migration_id f s = Some (Ok u, s') ->
  job_stats migration_id (migrations s')
  = job_stats migration_id (migrations s) /\
  events s' = events s.
Proof.
  intros Hf H. apply update_details_ok_inv in H.
  destruct H as [m [d [Hm [Hd Hs]]]]. subst s'. simpl.
  rewrite job_stats_set. simpl. unfold job_stats. rewrite Hm, Hd.
  split; [apply Hf | reflexivity].
Qed.

Lemma update_stats_inv f (s : State W) r s' :
  update_stats migration_id f s = Some (r, s') ->
  job_stats migration_id (migrations s')
  = option_map f (job_stats migration_id (migrations s)) /\
  events s' = events s.
Proof.
  unfold update_stats, modify. intros H. inversion H. clear H.
  unfold job_stats at 2.
  destruct (dict_lookup migration_id (migrations s)) as [m |] eqn:Hm.
  - destruct (details m) as [d |] eqn:Hd.
    + simpl. rewrite job_stats_set. split; reflexivity.
    + unfold job_stats. rewrite Hm, Hd. split; reflexivity.
  - unfold job_stats. rewrite Hm. split; reflexivity.
Qed.

Lemma call_ok_inv {A} (op : W -> Result A * W) (s : State W) a s' :
  call op s = Some (Ok a, s') ->
  exists w, op (world s) = (Ok a, w) /\ s' = set_world w s.
Proof.
  unfold call. destruct (op (world s)) as [[a' | msg] w]; simpl; intros H;
    inversion H.
  exists w. split; reflexivity.
Qed.

Lemma insert_ok_inv t data (s : State W) n s' :
  insert C t data s = Some (Ok n, s') ->
  migrations s' = migrations s /\
  events s' = (events s ++ [EvInsert t data])%list.
Proof.
  unfold insert. intros H.
  apply bind_ok_inv in H. destruct H as [u [s1 [Hemit H]]].
  inversion Hemit. subst s1.
  apply call_ok_inv in H. destruct H as [w [_ Hs]]. subst s'.
  split; reflexivity.
Qed.

(** A turn's work on a page that has been fetched, when it succeeds. *)
Lemma load_batch_ok_inv t os ps rc off mig page (s : State W) v s' :
  load_batch C migration_id request t os ps rc off mig page s
  = Some (Ok v, s') ->
  exists data pr,
    transform_oracle_to_postgres_data page os ps = Ok data /\
    events s' = (events s ++ [EvInsert t data; EvProgress pr])%list /\
    pr = {| progress_table := t;
            rows_processed := mig + Z.of_nat (List.length page);
            total_rows := rc;
            progress_percentage :=
              percentage (mig + Z.of_nat (List.length page)) rc |} /\
    job_stats migration_id (migrations s')
    = option_map (add_rows_migrated (Z.of_nat (List.length page)))
        (job_stats migration_id (migrations s)).
Proof.
  unfold load_batch, store_stats, publish_progress. intros H.
  apply bind_ok_inv in H. destruct H as [data [s1 [Ht H]]].
  destruct (transform_oracle_to_postgres_data page os ps) as [data' | msg]
    eqn:Etr; [| discriminate].
  simpl in Ht. inversion Ht. subst data' s1. clear Ht.
  apply bind_ok_inv in H. destruct H as [n [s2 [Hins H]]].
  apply insert_ok_inv in Hins. destruct Hins as [Hm2 He2].
  apply bind_ok_inv in H. destruct H as [u3 [s3 [Hst H]]].
  apply update_stats_inv in Hst. destruct Hst as [Hj3 He3].
  apply bind_ok_inv in H. destruct H as [u4 [s4 [Hsto H]]].
  apply update_details_stats in Hsto; [| reflexivity].
  destruct Hsto as [Hj4 He4].
  apply bind_ok_inv in H. destruct H as [u5 [s5 [Hpub H]]].
  apply bind_ok_inv in Hpub. destruct Hpub as [u5' [s5' [Hupd Hemit]]].
  apply update_details_stats in Hupd; [| reflexivity].
  destruct Hupd as [Hj5 He5].
  inversion Hemit. subst s5. clear Hemit.
  apply bind_ok_inv in H. destruct H as [u6 [s6 [Hlog H]]].
  inversion Hlog. subst s6. clear Hlog.
  apply ret_inv in H. destruct H as [_ Hs]. subst s'.
  eexists data, _. split; [reflexivity |]. split; [| split].
  - simpl. rewrite He5, He4, He3, He2, <- app_assoc. reflexivity.
  - reflexivity.
  - simpl. rewrite Hj5, Hj4, Hj3, Hm2. reflexivity.
Qed.

Lemma fetch_inv t l o (s : State W) r s' :
  fetch C t l o s = Some (r, s') ->
  (exists msg w, r = Raise msg /\
                 s' = add_event (EvFault msg)
                        (set_world w (add_event (EvFetchCall t l o) s))) \/
  (exists page w, r = Ok page /\ s' = fetched t l o page w s).
Proof.
  unfold fetch, bind, call, emit, ret, fetched. simpl.
  destruct (oracle_fetch_data C t l o (world s)) as [[page | msg] w]; simpl;
    intros H; inversion H.
  - right. exists page, w. split; reflexivity.
  - left. exists msg, w. split; reflexivity.
Qed.

(** What [g] sees of a fetch, returned or not, when it sees neither pages
    nor exceptions. *)
Lemma fetch_proj {T} (g : Event -> list T) t l o (s : State W) r s' :
  (forall page, g (EvFetch t l o page) = []) ->
  (forall msg, g (EvFault msg) = []) ->
  fetch C t l o s = Some (r, s') ->
  flat_map g (events s')
  = (flat_map g (events s) ++ g (EvFetchCall t l o))%list.
Proof.
  intros Hpage Hfault H. apply fetch_inv in H.
  destruct H as [[msg [w [_ Hs]]] | [page [w [_ Hs]]]]; subst s'.
  - rewrite (proj_add_event g _
               (set_world w (add_event (EvFetchCall t l o) s))).
    change (events (set_world w (add_event (EvFetchCall t l o) s)))
      with (events (add_event (EvFetchCall t l o) s)).
    rewrite (proj_add_event g _ s), Hfault, app_nil_r. reflexivity.
  - unfold fetched.
    rewrite (proj_add_event g _
               (set_world w (add_event (EvFetchCall t l o) s))).
    change (events (set_world w (add_event (EvFetchCall t l o) s)))
      with (events (add_event (EvFetchCall t l o) s)).
    rewrite (proj_add_event g _ s), Hpage, app_nil_r. reflexivity.
Qed.

(** The fetch calls of one turn, however it ends: the one at the current
    offset, made before anything else. *)
Lemma migrate_batch_calls t os ps rc off mig (s : State W) r s' :
  migrate_batch C migration_id request t os ps rc off mig s = Some (r, s') ->
  fetch_calls_of (events s')
  = (fetch_calls_of (events s) ++ [(t, batch_size request, off)])%list.
Proof.
  unfold migrate_batch. intros H. apply bind_inv in H.
  destruct H as [[msg [Hf Hr]] | [page [s1 [Hf H]]]].
  - exact (fetch_proj fetch_call_of_event _ _ _ _ _ _
             ltac:(reflexivity) ltac:(reflexivity) Hf).
  - pose proof (fetch_proj fetch_call_of_event _ _ _ _ _ _
                  ltac:(reflexivity) ltac:(reflexivity) Hf) as Hs1.
    fold (fetch_calls_of (events s1)) in Hs1.
    fold (fetch_calls_of (events s)) in Hs1.
    change (fetch_call_of_event (EvFetchCall t (batch_size request) off))
      with [(t, batch_size request, off)] in Hs1.
    destruct page as [| row rest].
    + apply ret_inv in H. destruct H as [_ H]. subst s'. exact Hs1.
    + rewrite <- Hs1. apply bind_inv in H.
      destruct H as [[msg [Hl _]] | [v [s2 [Hl H]]]].
      * exact (load_batch_unchanged C migration_id request
                 fetch_call_of_event _ _ _ _ _ _ _
                 ltac:(reflexivity) ltac:(reflexivity) ltac:(reflexivity)
                 _ _ _ Hl).
      * apply ret_inv in H. destruct H as [_ H]. subst s'.
        exact (load_batch_unchanged C migration_id request
                 fetch_call_of_event _ _ _ _ _ _ _
                 ltac:(reflexivity) ltac:(reflexivity) ltac:(reflexivity)
                 _ _ _ Hl).
Qed.

Definition nth_call (t : string) (off : Z) (i : nat) : string * Z * Z :=
  (t, batch_size request, off + Z.of_nat i * batch_size request).

Lemma nth_call_shift t off (k : nat) :
  (nth_call t off 0 :: map (nth_call t (off + batch_size request)) (seq 0 k))
  = map (nth_call t off) (seq 0 (S k)).
Proof.
  simpl. f_equal.
  rewrite <- seq_shift, map_map. apply map_ext. intros i.
  unfold nth_call. f_equal. rewrite Nat2Z.inj_succ. lia.
Qed.

Lemma migrate_batches_calls fuel t os ps rc :
  forall off mig (s : State W) r s',
    migrate_batches C migration_id request fuel t os ps rc off mig s
    = Some (r, s') ->
    exists k : nat,
      fetch_calls_of (events s')
      = (fetch_calls_of (events s) ++ map (nth_call t off) (seq 0 k))%list /\
      forall i : nat,
        (i < k)%nat -> off + Z.of_nat i * batch_size request < rc.
Proof.
  induction fuel as [| fuel IH]; intros off mig s r s' H; simpl in H;
    destruct (off <? rc) eqn:Hlt.
  - discriminate.
  - apply ret_inv in H. destruct H as [_ H]. subst s'.
    exists 0%nat. simpl. rewrite app_nil_r. split; [reflexivity | lia].
  - apply Z.ltb_lt in Hlt. apply bind_inv in H.
    assert (Hone : forall s1 : State W,
              fetch_calls_of (events s1)
              = (fetch_calls_of (events s)
                   ++ [(t, batch_size request, off)])%list ->
              fetch_calls_of (events s1)
              = (fetch_calls_of (events s)
                   ++ map (nth_call t off) (seq 0 1))%list /\
              forall i : nat,
                (i < 1)%nat -> off + Z.of_nat i * batch_size request < rc).
    { intros s1 Hs1. split.
      - rewrite Hs1. simpl. unfold nth_call. simpl.
        replace (off + 0) with off by lia. reflexivity.
      - intros i Hi. assert (i = 0%nat) by lia. subst i. simpl. lia. }
    destruct H as [[msg [Hb Hr]] | [next [s1 [Hb H]]]].
    + apply migrate_batch_calls in Hb. exists 1%nat. apply Hone, Hb.
    + pose proof (migrate_batch_calls _ _ _ _ _ _ _ _ _ Hb) as Hadd.
      destruct next as [[off' mig'] |].
      * apply migrate_batch_offset in Hb. subst off'.
        apply IH in H. destruct H as [k [Hk Hbound]].
        exists (S k). split.
        -- rewrite Hk, Hadd, <- app_assoc, <- nth_call_shift.
           simpl. unfold nth_call at 2. simpl.
           replace (off + 0) with off by lia. reflexivity.
        -- intros [| i] Hi; [simpl; lia |].
           assert (Hi' : (i < k)%nat) by lia.
           specialize (Hbound i Hi'). rewrite Nat2Z.inj_succ. lia.
      * apply ret_inv in H. destruct H as [_ H]. subst s'.
        exists 1%nat. apply Hone, Hadd.
  - apply ret_inv in H. destruct H as [_ H]. subst s'.
    exists 0%nat. simpl. rewrite app_nil_r. split; [reflexivity | lia].
Qed.

End LoopTrace.

(** X21. The calls of [fetch_data] that the transfer of one table makes,
    each counted when it is made, whether it returns or raises, whatever
    the connectors answer and however the transfer ends: they are all for
    that table, all with the request's batch size as the limit, at the
    offsets 0, batch size, twice the batch size, and so on, in this order
    and with none left out, and every one of these offsets is below the row
    count that the source reported for the table. *)
Theorem fetches_step_by_batch_size_below_row_count {W} (C : Connectors W)
    (migration_id : string) (request : MigrationRequest) (fuel : nat)
    (t : string) (os : OracleSchema) (ps : PgSchema) (s : State W)
    (r : Result (Z * Z)) (s' : State W) :
  migrate_table_data C migration_id request fuel t os ps s = Some (r, s') ->
  exists k : nat,
    fetch_calls_of (events s')
    = (fetch_calls_of (events s)
         ++ map (fun i : nat =>
                   (t, batch_size request,
                    Z.of_nat i * batch_size request))
                (seq 0 k))%list /\
    forall i : nat,
      (i < k)%nat ->
      exists rc w,
        oracle_row_count C t (world s) = (Ok rc, w) /\
        Z.of_nat i * batch_size request < rc.
Proof.
  intros H. unfold migrate_table_data in H.
  assert (Hnone : forall s1 : State W,
            fetch_calls_of (events s1) = fetch_calls_of (events s) ->
            exists k : nat,
              fetch_calls_of (events s1)
              = (fetch_calls_of (events s)
                   ++ map (fun i : nat =>
                             (t, batch_size request,
                              Z.of_nat i * batch_size request))
                          (seq 0 k))%list /\
              forall i : nat,
                (i < k)%nat ->
                exists rc w,
                  oracle_row_count C t (world s) = (Ok rc, w) /\
                  Z.of_nat i * batch_size request < rc).
  { intros s1 Hs1. exists 0%nat. simpl. rewrite app_nil_r.
    split; [exact Hs1 | lia]. }
  apply bind_inv in H. destruct H as [[msg [Hp _]] | [u [s1 [Hp H]]]].
  - apply set_phase_inv in Hp.
    destruct Hp as [_ [[msg' [_ Hev]] | [Hr _]]]; [| discriminate].
    apply Hnone. unfold fetch_calls_of.
    rewrite Hev, flat_map_app. apply app_nil_r.
  - apply set_phase_inv in Hp.
    destruct Hp as [Hw [[msg' [Hr _]] | [_ Hev]]]; [discriminate |].
    assert (Hc1 : fetch_calls_of (events s1) = fetch_calls_of (events s)).
    { unfold fetch_calls_of. rewrite Hev, flat_map_app. apply app_nil_r. }
    apply bind_inv in H. destruct H as [[msg [Hcall _]] | [rc [s2 [Hcall H]]]].
    + apply Hnone. rewrite <- Hc1.
      unfold call in Hcall.
      destruct (oracle_row_count C t (world s1)) as [[rc | msg'] w];
        simpl in Hcall; inversion Hcall.
      unfold fetch_calls_of.
      rewrite (proj_add_event fetch_call_of_event _ (set_world w s1)).
      apply app_nil_r.
    + apply call_ok_inv in Hcall. destruct Hcall as [w [Hrc Hs2]].
      rewrite Hw in Hrc.
      apply (migrate_batches_calls C migration_id request) in H.
      destruct H as [k [Hk Hbound]]. exists k. split.
      * rewrite Hk. subst s2. change (events (set_world w s1)) with (events s1).
        rewrite Hc1. reflexivity.
      * intros i Hi. exists rc, w. split; [exact Hrc |].
        specialize (Hbound i Hi). lia.
Qed.

Lemma fetches_step_by_batch_size_below_row_count_witness :
  exists s',
    migrate_table_data (quiet_connectors (ids_table 3) ids_schema)
      "migration-1" (request_with_batch_size 2) 3 "T" ids_schema
      (convert_oracle_to_postgres_schema ids_schema)
      (initial_state tt job_store)
    = Some (Ok (4, 3), s') /\
    exists k : nat,
      fetch_calls_of (events s')
      = (fetch_calls_of (events (initial_state tt job_store))
           ++ map (fun i : nat =>
                     ("T", batch_size (request_with_batch_size 2),
                      Z.of_nat i * batch_size (request_with_batch_size 2)))
                  (seq 0 k))%list /\
      forall i : nat,
        (i < k)%nat ->
        exists rc w,
          oracle_row_count (quiet_connectors (ids_table 3) ids_schema) "T"
            (world (initial_state tt job_store)) = (Ok rc, w) /\
          Z.of_nat i * batch_size (request_with_batch_size 2) < rc.
Proof.
  eexists. split; [vm_compute; reflexivity |].
  apply (fetches_step_by_batch_size_below_row_count
           (quiet_connectors (ids_table 3) ids_schema) "migration-1"
           (request_with_batch_size 2) 3 "T" ids_schema
           (convert_oracle_to_postgres_schema ids_schema)
           (initial_state tt job_store) (Ok (4, 3)) _).
  vm_compute. reflexivity.
Defined.

(** ** What a successful transfer has moved and counted *)

Section Account.
Context {W : Type} (C : Connectors W).
Variable migration_id : string.
Variable request : MigrationRequest.

Lemma option_map_add_zero (x : option Stats) :
  option_map (add_rows_migrated 0) x = x.
Proof. destruct x; simpl; [rewrite add_rows_migrated_zero |]; reflexivity. Qed.

Lemma option_map_add_add (a b : Z) (x : option Stats) :
  option_map (add_rows_migrated b) (option_map (add_rows_migrated a) x)
  = option_map (add_rows_migrated (a + b)) x.
Proof. destruct x; simpl; [rewrite add_rows_migrated_add |]; reflexivity. Qed.

(** One turn that returns: the page it fetched, and, unless the page was
    empty, the batch it handed over and what it counted. *)
Lemma migrate_batch_ok_inv t os ps rc off mig (s : State W) next s' :
  migrate_batch C migration_id request t os ps rc off mig s
  = Some (Ok next, s') ->
  exists page,
    pages_of (events s') = (pages_of (events s) ++ [page])%list /\
    match next with
    | None =>
        page = [] /\
        inserts_of (events s') = inserts_of (events s) /\
        job_stats migration_id (migrations s')
        = job_stats migration_id (migrations s)
    | Some (off', mig') =>
        off' = off + batch_size request /\
        mig' = mig + Z.of_nat (List.length page) /\
        exists data,
          transform_oracle_to_postgres_data page os ps = Ok data /\
          inserts_of (events s') = (inserts_of (events s) ++ [data])%list /\
          job_stats migration_id (migrations s')
          = option_map (add_rows_migrated (Z.of_nat (List.length page)))
              (job_stats migration_id (migrations s))
    end.
Proof.
  unfold migrate_batch. intros H.
  apply bind_ok_inv in H. destruct H as [page [s1 [Hfetch H]]].
  apply fetch_ok in Hfetch. destruct Hfetch as [w [_ Hs1]].
  exists page. destruct page as [| row rest].
  - apply ret_inv in H. destruct H as [Hv Hs]. inversion Hv. subst next s' s1.
    unfold pages_of, inserts_of. simpl. rewrite !flat_map_app. simpl.
    rewrite !app_nil_r. repeat split.
  - apply bind_ok_inv in H. destruct H as [v [s2 [Hload H]]].
    pose proof (load_batch_value _ _ _ _ _ _ _ _ _ _ _ _ _ Hload) as Hv.
    apply load_batch_ok_inv in Hload.
    destruct Hload as [data [pr [Htr [Hev [_ Hst]]]]].
    apply ret_inv in H. destruct H as [Hn Hs]. inversion Hn. subst next s' v.
    subst s1. simpl in Hev.
    unfold pages_of, inserts_of. rewrite Hev, !flat_map_app. simpl.
    rewrite !app_nil_r. split; [reflexivity |].
    split; [reflexivity |]. split; [reflexivity |].
    exists data. split; [exact Htr |]. split; [reflexivity |].
    exact Hst.
Qed.

Lemma migrate_batches_account fuel t os ps rc :
  forall off mig (s : State W) off' mig' s',
    migrate_batches C migration_id request fuel t os ps rc off mig s
    = Some (Ok (off', mig'), s') ->
    exists loaded batches,
      (pages_of (events s') = (pages_of (events s) ++ loaded)%list \/
       pages_of (events s')
       = (pages_of (events s) ++ loaded ++ [[]])%list) /\
      Forall2 (fun page data =>
                 transform_oracle_to_postgres_data page os ps = Ok data)
              loaded batches /\
      inserts_of (events s') = (inserts_of (events s) ++ batches)%list /\
      mig' = mig + Z.of_nat (List.length (List.concat loaded)) /\
      job_stats migration_id (migrations s')
      = option_map
          (add_rows_migrated (Z.of_nat (List.length (List.concat loaded))))
          (job_stats migration_id (migrations s)).
Proof.
  assert (Hstop : forall (s : State W) mig,
            exists loaded batches,
              (pages_of (events s) = (pages_of (events s) ++ loaded)%list \/
               pages_of (events s)
               = (pages_of (events s) ++ loaded ++ [[]])%list) /\
              Forall2 (fun page data =>
                         transform_oracle_to_postgres_data page os ps
                         = Ok data)
                      loaded batches /\
              inserts_of (events s) = (inserts_of (events s) ++ batches)%list
              /\
              mig = mig + Z.of_nat (List.length (List.concat loaded)) /\
              job_stats migration_id (migrations s)
              = option_map
                  (add_rows_migrated
                     (Z.of_nat (List.length (List.concat loaded))))
                  (job_stats migration_id (migrations s))).
  { intros s mig. exists [], []. simpl. rewrite !app_nil_r.
    split; [left; reflexivity |]. split; [constructor |].
    split; [reflexivity |]. split; [lia |].
    symmetry. apply option_map_add_zero. }
  induction fuel as [| fuel IH]; intros off mig s off' mig' s' H; simpl in H;
    destruct (off <? rc) eqn:Hlt.
  - discriminate.
  - apply ret_inv in H. destruct H as [Hv Hs]. inversion Hv. subst.
    apply Hstop.
  - apply bind_ok_inv in H. destruct H as [next [s1 [Hb H]]].
    apply migrate_batch_ok_inv in Hb. destruct Hb as [page [Hpages Hnext]].
    destruct next as [[off1 mig1] |].
    + destruct Hnext as [Hoff [Hmig [data [Htr [Hins Hst]]]]].
      apply IH in H.
      destruct H as [loaded [batches [Hp [Hf [Hi [Hm Hj]]]]]].
      exists (page :: loaded), (data :: batches).
      split; [| split; [| split; [| split]]].
      * destruct Hp as [Hp | Hp]; [left | right]; rewrite Hp, Hpages;
          rewrite <- app_assoc; reflexivity.
      * constructor; assumption.
      * rewrite Hi, Hins, <- app_assoc. reflexivity.
      * rewrite Hm, Hmig. cbn [List.concat].
        rewrite length_app, Nat2Z.inj_add. lia.
      * rewrite Hj, Hst, option_map_add_add. cbn [List.concat].
        rewrite length_app, Nat2Z.inj_add. reflexivity.
    + destruct Hnext as [Hpage [Hins Hst]]. subst page.
      apply ret_inv in H. destruct H as [Hv Hs]. inversion Hv. subst.
      exists [], []. simpl. split; [right; exact Hpages |].
      split; [constructor |]. rewrite app_nil_r.
      split; [exact Hins |]. split; [lia |].
      rewrite Hst. symmetry. apply option_map_add_zero.
  - apply ret_inv in H. destruct H as [Hv Hs]. inversion Hv. subst.
    apply Hstop.
Qed.

End Account.

(** X22. What the transfer of one table has done when it returns: every
    page it fetched, but possibly a last empty one, went through
    [transform_oracle_to_postgres_data] and was handed to the target, in
    the order of the fetches and once each; the number of rows it returns
    is the number of rows in these pages; and the rows_migrated counter of
    the job has grown by exactly that number, with the other counters left
    as they were.  What [insert_data] answers is not looked at. *)
Theorem returned_transfer_has_counted_what_it_moved {W} (C : Connectors W)
    (migration_id : string) (request : MigrationRequest) (fuel : nat)
    (t : string) (os : OracleSchema) (ps : PgSchema) (s : State W)
    (off' mig' : Z) (s' : State W) :
  migrate_table_data C migration_id request fuel t os ps s
  = Some (Ok (off', mig'), s') ->
  exists loaded batches,
    (pages_of (events s') = (pages_of (events s) ++ loaded)%list \/
     pages_of (events s') = (pages_of (events s) ++ loaded ++ [[]])%list) /\
    Forall2 (fun page data =>
               transform_oracle_to_postgres_data page os ps = Ok data)
            loaded batches /\
    inserts_of (events s') = (inserts_of (events s) ++ batches)%list /\
    mig' = Z.of_nat (List.length (List.concat loaded)) /\
    job_stats migration_id (migrations s')
    = option_map (add_rows_migrated mig')
        (job_stats migration_id (migrations s)).
Proof.
  intros H. unfold migrate_table_data, set_phase in H.
  apply bind_ok_inv in H. destruct H as [u [s1 [Hp H]]].
  apply bind_ok_inv in Hp. destruct Hp as [u' [s0 [Hupd Hemit]]].
  apply update_details_stats in Hupd; [| reflexivity].
  destruct Hupd as [Hj0 He0]. inversion Hemit. subst s1. clear Hemit.
  apply bind_ok_inv in H. destruct H as [rc [s2 [Hcall H]]].
  apply call_ok_inv in Hcall. destruct Hcall as [w [_ Hs2]]. subst s2.
  apply migrate_batches_account in H.
  destruct H as [loaded [batches [Hpg [Hf [Hi [Hm Hj]]]]]].
  exists loaded, batches.
  assert (Hpages : pages_of (events (set_world w (add_event
                      (EvPhase data_migration) s0)))
                   = pages_of (events s)).
  { unfold pages_of. simpl. rewrite flat_map_app, He0. apply app_nil_r. }
  assert (Hins : inserts_of (events (set_world w (add_event
                    (EvPhase data_migration) s0)))
                 = inserts_of (events s)).
  { unfold inserts_of. simpl. rewrite flat_map_app, He0. apply app_nil_r. }
  rewrite Hpages in Hpg. rewrite Hins in Hi.
  split; [exact Hpg |]. split; [exact Hf |]. split; [exact Hi |].
  split; [lia |].
  rewrite Hj. simpl. rewrite Hj0. f_equal. f_equal. lia.
Qed.

Lemma returned_transfer_has_counted_what_it_moved_witness :
  exists s',
    migrate_table_data (quiet_connectors (ids_table 3) ids_schema)
      "migration-1" (request_with_batch_size 2) 3 "T" ids_schema
      (convert_oracle_to_postgres_schema ids_schema)
      (initial_state tt job_store)
    = Some (Ok (4, 3), s') /\
    exists loaded batches,
      (pages_of (events s')
       = (pages_of (events (initial_state tt job_store)) ++ loaded)%list \/
       pages_of (events s')
       = (pages_of (events (initial_state tt job_store))
            ++ loaded ++ [[]])%list) /\
      Forall2 (fun page data =>
                 transform_oracle_to_postgres_data page ids_schema
                   (convert_oracle_to_postgres_schema ids_schema) = Ok data)
              loaded batches /\
      inserts_of (events s')
      = (inserts_of (events (initial_state tt job_store)) ++ batches)%list /\
      3 = Z.of_nat (List.length (List.concat loaded)) /\
      job_stats "migration-1" (migrations s')
      = option_map (add_rows_migrated 3)
          (job_stats "migration-1"
             (migrations (initial_state tt job_store))).
Proof.
  eexists. split; [vm_compute; reflexivity |].
  apply (returned_transfer_has_counted_what_it_moved
           (quiet_connectors (ids_table 3) ids_schema) "migration-1"
           (request_with_batch_size 2) 3 "T" ids_schema
           (convert_oracle_to_postgres_schema ids_schema)
           (initial_state tt job_store) 4 3 _).
  vm_compute. reflexivity.
Defined.

(** ** Connections that are refused *)

Section Refused.
Context {W : Type} (C : Connectors W).
Variable migration_id : string.
Variable request : MigrationRequest.

(** The state at the start of the [try] block. *)
Definition started (w : W) (store : PyDict Migration) (m0 : Migration)
    (d0 : Details) : State W :=
  add_event (EvPhase schema_analysis)
    (set_migrations
       (dict_set migration_id
          {| status := status {| status := "running";
                                 details := details m0 |};
             details := Some (with_current_phase schema_analysis d0) |}
          (migrations
             (set_migrations
                (dict_set migration_id
                   {| status := "running"; details := details m0 |}
                   store)
                (initial_state w store))))
       (set_migrations
          (dict_set migration_id
             {| status := "running"; details := details m0 |} store)
          (initial_state w store))).

Lemma run_from_started fuel w store m0 d0 :
  dict_lookup migration_id store = Some m0 ->
  details m0 = Some d0 ->
  run_oracle_to_postgres_migration C migration_id request fuel
    (initial_state w store)
  = try_except_finally (migration_body C migration_id request fuel)
      (on_exception migration_id) (cleanup C) (started w store m0 d0).
Proof.
  intros Hm0 Hd0. unfold run_oracle_to_postgres_migration.
  rewrite (bind_ok_eq _ _ _ _ _
             (set_status_ok migration_id "running" (initial_state w store)
                            m0 Hm0)).
  set (sA := set_migrations _ (initial_state w store)).
  assert (HmA : dict_lookup migration_id (migrations sA)
                = Some {| status := "running"; details := details m0 |})
    by apply dict_lookup_set_same.
  rewrite (bind_ok_eq _ _ _ _ _
             (set_phase_ok migration_id schema_analysis sA _ d0 HmA Hd0)).
  reflexivity.
Qed.

(** The [except] block on a record with details, step by step. *)
Lemma on_exception_ok msg (s : State W) m d :
  dict_lookup migration_id (migrations s) = Some m ->
  details m = Some d ->
  on_exception migration_id msg s
  = Some (Ok tt,
          add_event (EvPhase failed)
            (set_migrations
               (dict_set migration_id
                  {| status := "failed";
                     details := Some (with_current_phase failed
                                        (with_error msg d)) |}
                  (dict_set migration_id
                     {| status := "failed";
                        details := Some (with_error msg d) |}
                     (dict_set migration_id
                        {| status := "failed"; details := details m |}
                        (migrations s))))
               s)).
Proof.
  intros Hm Hd. unfold on_exception.
  rewrite (bind_ok_eq _ _ _ _ _ (set_status_ok migration_id "failed" s m Hm)).
  set (s1 := set_migrations _ s).
  assert (Hm1 : dict_lookup migration_id (migrations s1)
                = Some {| status := "failed"; details := details m |})
    by apply dict_lookup_set_same.
  rewrite (bind_ok_eq _ _ _ _ _
             (update_details_ok migration_id (with_error msg) s1 _ d Hm1 Hd)).
  set (s2 := set_migrations _ s1).
  assert (Hm2 : dict_lookup migration_id (migrations s2)
                = Some {| status := "failed";
                          details := Some (with_error msg d) |})
    by apply dict_lookup_set_same.
  rewrite (set_phase_ok migration_id failed s2 _ _ Hm2 eq_refl).
  reflexivity.
Qed.

End Refused.

(** X23. When the source refuses the connection, the job fails with the
    driver's message and nothing more happens: for a job record with
    details, a run whose import succeeds and whose Oracle driver raises
    returns normally with the job at status failed, phase failed and the
    message as its error; the target connector is never made, no call to
    either database follows, and nothing is closed, as no connection was
    ever open. *)
Theorem refused_source_connection_fails_the_job {W} (C : Connectors W)
    (migration_id : string) (request : MigrationRequest) (fuel : nat)
    (w : W) (store : PyDict Migration) (m0 : Migration) (d0 : Details)
    (w1 : W) (msg : string) (w2 : W) :
  dict_lookup migration_id store = Some m0 ->
  details m0 = Some d0 ->
  import_engines C w = (Ok tt, w1) ->
  oracle_driver_connect C w1 = (Raise msg, w2) ->
  exists s',
    run_oracle_to_postgres_migration C migration_id request fuel
      (initial_state w store) = Some (Ok tt, s') /\
    get_migration (migrations s') migration_id
    = Ok {| response_migration_id := migration_id;
            response_status := "failed";
            response_details :=
              Some (with_current_phase failed
                      (with_error msg
                         (with_current_phase schema_analysis d0))) |} /\
    events s' = [EvPhase schema_analysis; EvFault msg; EvPhase failed] /\
    world s' = w2 /\
    oracle s' = Some {| connection := false |} /\
    postgres s' = None.
Proof.
  intros Hm0 Hd0 Himp Hconn.
  rewrite (run_from_started C migration_id request fuel w store m0 d0 Hm0 Hd0).
  set (sB := started migration_id w store m0 d0).
  assert (HmB : dict_lookup migration_id (migrations sB)
                = Some {| status := "running";
                          details := Some (with_current_phase
                                             schema_analysis d0) |})
    by apply dict_lookup_set_same.
  assert (Hbody : migration_body C migration_id request fuel sB
                  = Some (Raise msg,
                          add_event (EvFault msg)
                            (set_world w2
                               (set_oracle (Some {| connection := false |})
                                  (set_world w1 sB))))).
  { unfold migration_body.
    assert (H1 : call (import_engines C) sB = Some (Ok tt, set_world w1 sB)).
    { unfold call. change (world sB) with w. rewrite Himp. reflexivity. }
    rewrite (bind_ok_eq _ _ _ _ _ H1).
    assert (H2 : modify (set_oracle (Some {| connection := false |}))
                   (set_world w1 sB)
                 = Some (Ok tt,
                         set_oracle (Some {| connection := false |})
                           (set_world w1 sB))) by reflexivity.
    rewrite (bind_ok_eq _ _ _ _ _ H2).
    apply bind_raise_eq. unfold oracle_connect. apply bind_raise_eq.
    unfold call. simpl. rewrite Hconn. reflexivity. }
  unfold try_except_finally. rewrite Hbody.
  set (s3 := add_event (EvFault msg) _).
  rewrite (on_exception_ok migration_id msg s3 _ _ HmB eq_refl).
  eexists. split; [reflexivity |].
  split; [| repeat split].
  unfold get_migration. simpl. rewrite dict_lookup_set_same. reflexivity.
Qed.

(** The quiet connectors, but with drivers that refuse the connection when
    told so. *)
Definition refusing_driver (refuse : bool) (msg : string) (w : unit)
  : Result unit * unit :=
  if refuse then (Raise msg, w) else (Ok tt, w).

Definition unreachable_connectors (source target : bool)
  : Connectors unit :=
  {| import_engines := import_engines (quiet_connectors (ids_table 3)
                                         ids_schema);
     oracle_driver_connect := refusing_driver source "ORA-12541";
     postgres_driver_connect := refusing_driver target "connection refused";
     oracle_get_tables :=
       oracle_get_tables (quiet_connectors (ids_table 3) ids_schema);
     oracle_get_schema :=
       oracle_get_schema (quiet_connectors (ids_table 3) ids_schema);
     postgres_create_table_from_schema :=
       postgres_create_table_from_schema
         (quiet_connectors (ids_table 3) ids_schema);
     oracle_row_count :=
       oracle_row_count (quiet_connectors (ids_table 3) ids_schema);
     oracle_fetch_data :=
       oracle_fetch_data (quiet_connectors (ids_table 3) ids_schema);
     postgres_insert_data :=
       postgres_insert_data (quiet_connectors (ids_table 3) ids_schema);
     oracle_close :=
       oracle_close (quiet_connectors (ids_table 3) ids_schema);
     postgres_close :=
       postgres_close (quiet_connectors (ids_table 3) ids_schema) |}.

Lemma refused_source_connection_fails_the_job_witness :
  exists s',
    run_oracle_to_postgres_migration (unreachable_connectors true false)
      "migration-1" (request_with_batch_size 2) 3
      (initial_state tt job_store) = Some (Ok tt, s') /\
    get_migration (migrations s') "migration-1"
    = Ok {| response_migration_id := "migration-1";
            response_status := "failed";
            response_details :=
              Some (with_current_phase failed
                      (with_error "ORA-12541"
                         (with_current_phase schema_analysis
                            empty_details))) |} /\
    events s'
    = [EvPhase schema_analysis; EvFault "ORA-12541"; EvPhase failed] /\
    world s' = tt /\
    oracle s' = Some {| connection := false |} /\
    postgres s' = None.
Proof.
  apply (refused_source_connection_fails_the_job
           (unreachable_connectors true false) "migration-1"
           (request_with_batch_size 2) 3 tt job_store
           {| status := "pending"; details := Some empty_details |}
           empty_details tt "ORA-12541" tt);
    reflexivity.
Defined.

(** X24. When the target refuses the connection, the source connection
    that is already open is closed, once: for a job record with details, a
    run whose import and source connection succeed and whose PostgreSQL
    driver raises marks the job failed with the driver's message and looks
    at no table; its [finally] block then calls [close()] on the source
    connection, exactly once, and makes no such call for the target, which
    has no connection.  When that [close()] returns, the run returns
    normally and the source connector holds no connection; when it raises,
    its exception leaves the run and the connection stays set. *)
Theorem refused_target_connection_closes_the_source {W} (C : Connectors W)
    (migration_id : string) (request : MigrationRequest) (fuel : nat)
    (w : W) (store : PyDict Migration) (m0 : Migration) (d0 : Details)
    (w1 w2 : W) (msg : string) (w3 : W) (closed : Result unit) (w4 : W) :
  dict_lookup migration_id store = Some m0 ->
  details m0 = Some d0 ->
  import_engines C w = (Ok tt, w1) ->
  oracle_driver_connect C w1 = (Ok tt, w2) ->
  postgres_driver_connect C w2 = (Raise msg, w3) ->
  oracle_close C w3 = (closed, w4) ->
  exists s',
    run_oracle_to_postgres_migration C migration_id request fuel
      (initial_state w store)
    = Some (match closed with
            | Ok _ => Ok tt
            | Raise msg' => Raise msg'
            end, s') /\
    get_migration (migrations s') migration_id
    = Ok {| response_migration_id := migration_id;
            response_status := "failed";
            response_details :=
              Some (with_current_phase failed
                      (with_error msg
                         (with_current_phase schema_analysis d0))) |} /\
    events s'
    = ([EvPhase schema_analysis; EvFault msg; EvPhase failed;
        EvClose OracleSide]
         ++ match closed with
            | Ok _ => []
            | Raise msg' => [EvFault msg']
            end)%list /\
    world s' = w4 /\
    oracle s'
    = Some {| connection := match closed with
                            | Ok _ => false
                            | Raise _ => true
                            end |} /\
    postgres s' = Some {| connection := false |}.
Proof.
  intros Hm0 Hd0 Himp Hora Hpg Hclose.
  rewrite (run_from_started C migration_id request fuel w store m0 d0 Hm0 Hd0).
  set (sB := started migration_id w store m0 d0).
  assert (HmB : dict_lookup migration_id (migrations sB)
                = Some {| status := "running";
                          details := Some (with_current_phase
                                             schema_analysis d0) |})
    by apply dict_lookup_set_same.
  assert (Hbody : migration_body C migration_id request fuel sB
                  = Some (Raise msg,
                          add_event (EvFault msg)
                            (set_world w3
                               (set_postgres
                                  (Some {| connection := false |})
                                  (set_oracle
                                     (Some {| connection := true |})
                                     (set_world w2
                                        (set_oracle
                                           (Some {| connection := false |})
                                           (set_world w1 sB)))))))).
  { unfold migration_body.
    assert (H1 : call (import_engines C) sB = Some (Ok tt, set_world w1 sB)).
    { unfold call. change (world sB) with w. rewrite Himp. reflexivity. }
    rewrite (bind_ok_eq _ _ _ _ _ H1).
    assert (H2 : modify (set_oracle (Some {| connection := false |}))
                   (set_world w1 sB)
                 = Some (Ok tt,
                         set_oracle (Some {| connection := false |})
                           (set_world w1 sB))) by reflexivity.
    rewrite (bind_ok_eq _ _ _ _ _ H2).
    assert (H3 : oracle_connect C
                   (set_oracle (Some {| connection := false |})
                      (set_world w1 sB))
                 = Some (Ok tt,
                         set_oracle (Some {| connection := true |})
                           (set_world w2
                              (set_oracle (Some {| connection := false |})
                                 (set_world w1 sB))))).
    { unfold oracle_connect, bind, call. simpl. rewrite Hora. reflexivity. }
    rewrite (bind_ok_eq _ _ _ _ _ H3).
    set (s3 := set_oracle (Some {| connection := true |}) _).
    assert (H4 : modify (set_postgres (Some {| connection := false |})) s3
                 = Some (Ok tt,
                         set_postgres (Some {| connection := false |}) s3))
      by reflexivity.
    rewrite (bind_ok_eq _ _ _ _ _ H4).
    apply bind_raise_eq. unfold postgres_connect. apply bind_raise_eq.
    unfold call. simpl. rewrite Hpg. reflexivity. }
  unfold try_except_finally. rewrite Hbody.
  set (s5 := add_event (EvFault msg) _).
  rewrite (on_exception_ok migration_id msg s5 _ _ HmB eq_refl).
  unfold cleanup, disconnect, bind, call, emit, modify, ret. simpl.
  rewrite Hclose.
  destruct closed as [[] | msg']; simpl;
    (eexists; split; [reflexivity |]);
    (split; [| repeat split]);
    unfold get_migration; simpl; rewrite dict_lookup_set_same; reflexivity.
Qed.

Lemma refused_target_connection_closes_the_source_witness :
  exists s',
    run_oracle_to_postgres_migration (unreachable_connectors false true)
      "migration-1" (request_with_batch_size 2) 3
      (initial_state tt job_store) = Some (Ok tt, s') /\
    get_migration (migrations s') "migration-1"
    = Ok {| response_migration_id := "migration-1";
            response_status := "failed";
            response_details :=
              Some (with_current_phase failed
                      (with_error "connection refused"
                         (with_current_phase schema_analysis
                            empty_details))) |} /\
    events s'
    = ([EvPhase schema_analysis; EvFault "connection refused";
        EvPhase failed; EvClose OracleSide] ++ [])%list /\
    world s' = tt /\
    oracle s' = Some {| connection := false |} /\
    postgres s' = Some {| connection := false |}.
Proof.
  apply (refused_target_connection_closes_the_source
           (unreachable_connectors false true) "migration-1"
           (request_with_batch_size 2) 3 tt job_store
           {| status := "pending"; details := Some empty_details |}
           empty_details tt tt "connection refused" tt (Ok tt) tt);
    reflexivity.
Defined.

(** ** Translated rows under the translated schema *)

Lemma find_first_by_key {A} (f : A -> string) (l : list A) (x : A) :
  NoDup (map f l) -> In x l ->
  find (fun c => String.eqb (f c) (f x)) l = Some x.
Proof.
  induction l as [| y rest IH]; intros Hnd Hin; [contradiction |].
  simpl in Hnd. inversion Hnd as [| ? ? Hny Hrest]; subst. simpl.
  destruct (String.eqb (f y) (f x)) eqn:E.
  - apply String.eqb_eq in E. destruct Hin as [Heq | Hin]; [congruence |].
    exfalso. apply Hny. rewrite E. apply in_map, Hin.
  - apply String.eqb_neq in E. destruct Hin as [Heq | Hin]; [congruence |].
    apply IH; assumption.
Qed.

Lemma convert_value_none (oracle_type : string) :
  convert_value oracle_type PyNone = Ok PyNone.
Proof.
  unfold convert_value.
  destruct (String.eqb oracle_type "CLOB"); [reflexivity |].
  destruct (String.eqb oracle_type "BLOB"); reflexivity.
Qed.

Lemma convert_value_plain (oracle_type : string) (value : PyVal) :
  oracle_type <> "CLOB" -> oracle_type <> "BLOB" ->
  convert_value oracle_type value = Ok value.
Proof.
  intros Hc Hb. unfold convert_value.
  apply String.eqb_neq in Hc. apply String.eqb_neq in Hb.
  rewrite Hc, Hb. reflexivity.
Qed.

(** What the target column of a source column receives, when no other
    source column has the same lower-cased name. *)
Lemma matched_value_of_column (oracle_schema : OracleSchema) (row : Row)
    (col : OracleColumn) :
  NoDup (map (fun c => lower (ora_column_name c))
             (ora_columns oracle_schema)) ->
  In col (ora_columns oracle_schema) ->
  ora_column_name col <> EmptyString ->
  matched_value oracle_schema row (lower (ora_column_name col))
  = match dict_lookup (ora_column_name col) row with
    | None => Ok None
    | Some value =>
        match convert_value (ora_data_type col) value with
        | Ok value' => Ok (Some value')
        | Raise msg => Raise msg
        end
    end.
Proof.
  intros Hnd Hin Hname. unfold matched_value, find_oracle_col_name.
  rewrite (find_first_by_key (fun c => lower (ora_column_name c)) _ col
             Hnd Hin).
  simpl. apply String.eqb_neq in Hname. rewrite Hname.
  destruct (dict_lookup (ora_column_name col) row) as [value |];
    [| reflexivity].
  assert (Hnd' : NoDup (map ora_column_name (ora_columns oracle_schema))).
  { apply (NoDup_map_inv lower). rewrite map_map. exact Hnd. }
  unfold find_oracle_type.
  rewrite (find_first_by_key ora_column_name _ col Hnd' Hin).
  destruct value as [| x | x]; [| reflexivity | reflexivity].
  rewrite convert_value_none. reflexivity.
Qed.

(** X25. Translating the schema and then the rows loses no column: for a
    source schema whose column names are all ASCII and in which no two
    columns share a lower-cased name, every row that
    [transform_oracle_to_postgres_data] returns under the translated
    schema holds, for each named source column that is a key of
    the source row, the converted value under the lower-cased name (the
    value itself when it is null or the column is neither CLOB nor BLOB);
    a source column that is no key of the row gives no key; and the row
    has no key but lower-cased column names. *)
Theorem translated_rows_hold_every_column (oracle_schema : OracleSchema)
    (oracle_data result : list Row) :
  ascii_columns oracle_schema = true ->
  NoDup (map (fun c => lower (ora_column_name c))
             (ora_columns oracle_schema)) ->
  transform_oracle_to_postgres_data oracle_data oracle_schema
    (convert_oracle_to_postgres_schema oracle_schema) = Ok result ->
  Forall2
    (fun row pg_row =>
       (forall col,
          In col (ora_columns oracle_schema) ->
          ora_column_name col <> EmptyString ->
          match dict_lookup (ora_column_name col) row with
          | None => dict_lookup (lower (ora_column_name col)) pg_row = None
          | Some value =>
              exists value',
                dict_lookup (lower (ora_column_name col)) pg_row
                = Some value' /\
                convert_value (ora_data_type col) value = Ok value' /\
                (value = PyNone \/
                 (ora_data_type col <> "CLOB" /\
                  ora_data_type col <> "BLOB") ->
                 value' = value)
          end) /\
       (forall k,
          ~ In k (map (fun c => lower (ora_column_name c))
                      (ora_columns oracle_schema)) ->
          dict_lookup k pg_row = None))
    oracle_data result.
Proof.
  intros _ Hnd Hrun. apply transform_data_rows in Hrun.
  eapply Forall2_impl; [| exact Hrun].
  intros row pg_row Hrow. unfold transform_row in Hrow. simpl in Hrow.
  assert (Hnames : map pg_column_name
                     (map convert_column (ora_columns oracle_schema))
                   = map (fun c => lower (ora_column_name c))
                         (ora_columns oracle_schema))
    by (rewrite map_map; reflexivity).
  split.
  - intros col Hin Hname.
    destruct (transform_cells_lookup oracle_schema row _ _ _ Hrow
                (lower (ora_column_name col))) as [Hk _].
    rewrite Hnames in Hk.
    destruct (Hk (in_map (fun c => lower (ora_column_name c)) _ _ Hin))
      as [ov [Hov Hval]].
    rewrite (matched_value_of_column oracle_schema row col Hnd Hin Hname)
      in Hov.
    destruct (dict_lookup (ora_column_name col) row) as [value |].
    + destruct (convert_value (ora_data_type col) value) as [value' | msg]
        eqn:Hc; [| discriminate].
      inversion Hov; subst. exists value'.
      split; [exact Hval |]. split; [reflexivity |].
      intros [Hnone | [Hclob Hblob]].
      * subst value. rewrite convert_value_none in Hc. congruence.
      * rewrite (convert_value_plain _ _ Hclob Hblob) in Hc. congruence.
    + inversion Hov; subst. exact Hval.
  - intros k Hk.
    destruct (transform_cells_lookup oracle_schema row _ _ _ Hrow k)
      as [_ Hout].
    rewrite Hnames in Hout. rewrite (Hout Hk). reflexivity.
Qed.

Lemma translated_rows_hold_every_column_witness :
  Forall2
    (fun row pg_row =>
       (forall col,
          In col (ora_columns nclob_schema) ->
          ora_column_name col <> EmptyString ->
          match dict_lookup (ora_column_name col) row with
          | None => dict_lookup (lower (ora_column_name col)) pg_row = None
          | Some value =>
              exists value',
                dict_lookup (lower (ora_column_name col)) pg_row
                = Some value' /\
                convert_value (ora_data_type col) value = Ok value' /\
                (value = PyNone \/
                 (ora_data_type col <> "CLOB" /\
                  ora_data_type col <> "BLOB") ->
                 value' = value)
          end) /\
       (forall k,
          ~ In k (map (fun c => lower (ora_column_name c))
                      (ora_columns nclob_schema)) ->
          dict_lookup k pg_row = None))
    [[("DOC", PyLob (Ok (SText "minutes")));
      ("BODY", PyLob (Ok (SText "agenda")))]]
    [[("doc", PyLob (Ok (SText "minutes")));
      ("body", PyScalar (SText "agenda"))]].
Proof.
  apply (translated_rows_hold_every_column nclob_schema).
  - reflexivity.
  - repeat constructor; simpl; intuition discriminate.
  - reflexivity.
Defined.

(** Without that condition a column is lost: of two source columns whose
    names differ by case only, the translated row has one key, with the
    value of the first. *)
Example columns_that_differ_by_case_collapse :
  let schema :=
    {| ora_table_name := "T";
       ora_columns :=
         [ {| ora_column_name := "Id"; ora_data_type := "NUMBER";
              ora_nullable := "N"; data_precision := Missing;
              data_scale := Missing; data_length := Missing;
              default_value := Missing |};
           {| ora_column_name := "ID"; ora_data_type := "NUMBER";
              ora_nullable := "N"; data_precision := Missing;
              data_scale := Missing; data_length := Missing;
              default_value := Missing |} ];
       ora_primary_keys := []; ora_procedures := [];
       ora_original_db_type := "ORACLE" |} in
  transform_oracle_to_postgres_data
    [[("Id", PyScalar (SInt 1)); ("ID", PyScalar (SInt 2))]]
    schema (convert_oracle_to_postgres_schema schema)
  = Ok [[("id", PyScalar (SInt 1))]].
Proof. reflexivity. Qed.

(** *** Which batches the transformer takes *)

(** A value that can be taken as it is or read: anything but a handle
    whose [read()] raises. *)
Definition reads (value : PyVal) : bool :=
  match value with
  | PyLob (Raise _) => false
  | _ => true
  end.

Definition row_reads (row : Row) : Prop :=
  forall k value, dict_lookup k row = Some value -> reads value = true.

Lemma row_reads_of_values (row : Row) :
  forallb (fun kv => reads (snd kv)) row = true -> row_reads row.
Proof.
  intros Hall k value. induction row as [| [k' v] rest IH]; simpl in *.
  - discriminate.
  - apply andb_true_iff in Hall. destruct Hall as [Hv Hrest].
    destruct (String.eqb k' k).
    + intros H. inversion H. subst. exact Hv.
    + apply IH, Hrest.
Qed.

Lemma convert_value_not_blob (oracle_type : string) (value : PyVal) :
  oracle_type <> "BLOB" ->
  reads value = true ->
  exists value', convert_value oracle_type value = Ok value'.
Proof.
  intros Hb Hr. unfold convert_value. apply String.eqb_neq in Hb.
  destruct (String.eqb oracle_type "CLOB").
  - destruct value as [| x | [x | msg]]; try discriminate;
      eexists; reflexivity.
  - rewrite Hb. eexists. reflexivity.
Qed.

Lemma matched_value_without_blob (oracle_schema : OracleSchema) (row : Row)
    (col_name : string) :
  (forall col, In col (ora_columns oracle_schema) ->
               ora_data_type col <> "BLOB") ->
  row_reads row ->
  exists ov, matched_value oracle_schema row col_name = Ok ov.
Proof.
  intros Hb Hreads. unfold matched_value, find_oracle_col_name.
  destruct (find (fun c => String.eqb (lower (ora_column_name c)) col_name)
                 (ora_columns oracle_schema)) as [c |] eqn:Hfind; simpl;
    [| eexists; reflexivity].
  destruct (String.eqb (ora_column_name c) EmptyString);
    [eexists; reflexivity |].
  destruct (dict_lookup (ora_column_name c) row) as [value |] eqn:Hrow;
    [| eexists; reflexivity].
  pose proof (Hreads _ _ Hrow) as Hvalue.
  assert (Htype : exists c', In c' (ora_columns oracle_schema) /\
                             find_oracle_type oracle_schema (ora_column_name c)
                             = Ok (ora_data_type c')).
  { unfold find_oracle_type.
    destruct (find (fun c0 => String.eqb (ora_column_name c0)
                                         (ora_column_name c))
                   (ora_columns oracle_schema)) as [c' |] eqn:Hty.
    - exists c'. split; [| reflexivity].
      apply find_some in Hty. exact (proj1 Hty).
    - exfalso. apply find_some in Hfind. destruct Hfind as [Hin _].
      apply (find_none _ _ Hty) in Hin.
      rewrite String.eqb_refl in Hin. discriminate. }
  destruct Htype as [c' [Hin' Hty]]. rewrite Hty.
  destruct (convert_value_not_blob (ora_data_type c') value (Hb c' Hin')
              Hvalue) as [value' Hc].
  rewrite Hc. destruct value; eexists; reflexivity.
Qed.

(** X26. What can make the transformer fail is a BLOB column or a
    large-object handle that cannot be read: for a source schema whose
    column names are all ASCII, without a column of type BLOB, and rows that
    hold no handle whose [read()] raises,
    [transform_oracle_to_postgres_data] returns rows, one per source row,
    for every target schema. *)
Theorem transform_fails_on_blob_columns_only (oracle_schema : OracleSchema)
    (pg_schema : PgSchema) (oracle_data : list Row) :
  ascii_columns oracle_schema = true ->
  (forall col, In col (ora_columns oracle_schema) ->
               ora_data_type col <> "BLOB") ->
  (forall row, In row oracle_data -> row_reads row) ->
  exists result,
    transform_oracle_to_postgres_data oracle_data oracle_schema pg_schema
    = Ok result /\
    List.length result = List.length oracle_data.
Proof.
  intros _ Hb.
  assert (Hcells : forall row cols acc,
            row_reads row ->
            exists out,
              transform_cells oracle_schema row acc cols = Ok out).
  { intros row cols. induction cols as [| pg_col rest IH]; intros acc Hr;
      simpl.
    - eexists. reflexivity.
    - unfold transform_cell.
      destruct (matched_value_without_blob oracle_schema row
                  (pg_column_name pg_col) Hb Hr) as [ov Hov].
      rewrite Hov. destruct ov as [v |]; apply IH, Hr. }
  induction oracle_data as [| row rest IH]; intros Hreads; simpl.
  - exists []. split; reflexivity.
  - unfold transform_row.
    destruct (Hcells row (pg_columns pg_schema) []
                (Hreads row (or_introl eq_refl))) as [pg_row Hrow].
    rewrite Hrow.
    destruct (IH (fun r Hr => Hreads r (or_intror Hr)))
      as [result [Hres Hlen]].
    rewrite Hres. exists (pg_row :: result). split; [reflexivity |].
    simpl. rewrite Hlen. reflexivity.
Qed.

Lemma transform_fails_on_blob_columns_only_witness :
  exists result,
    transform_oracle_to_postgres_data
      [[("DOC", PyLob (Ok (SText "minutes")));
        ("BODY", PyLob (Ok (SText "agenda")))]]
      nclob_schema (convert_oracle_to_postgres_schema nclob_schema)
    = Ok result /\
    List.length result = 1%nat.
Proof.
  apply (transform_fails_on_blob_columns_only nclob_schema
           (convert_oracle_to_postgres_schema nclob_schema)
           [[("DOC", PyLob (Ok (SText "minutes")));
             ("BODY", PyLob (Ok (SText "agenda")))]]).
  - reflexivity.
  - intros col [Hc | [Hc | []]]; subst col; discriminate.
  - intros row [Hrow | []]. subst row.
    apply row_reads_of_values. reflexivity.
Defined.

(** A handle in a CLOB column whose [read()] raises fails the whole batch,
    with the message of the read. *)
Example unreadable_clob_fails_the_batch :
  transform_oracle_to_postgres_data
    [[("DOC", PyNone); ("BODY", PyLob (Raise "ORA-03113"))]]
    nclob_schema (convert_oracle_to_postgres_schema nclob_schema)
  = Raise "ORA-03113".
Proof. reflexivity. Qed.

(** A BLOB column that holds text fails the whole batch. *)
Example text_in_a_blob_column_fails_the_batch :
  let schema :=
    {| ora_table_name := "T";
       ora_columns :=
         [ {| ora_column_name := "PHOTO"; ora_data_type := "BLOB";
              ora_nullable := "Y"; data_precision := Missing;
              data_scale := Missing; data_length := Missing;
              default_value := Missing |} ];
       ora_primary_keys := []; ora_procedures := [];
       ora_original_db_type := "ORACLE" |} in
  transform_oracle_to_postgres_data
    [[("PHOTO", PyNone)]; [("PHOTO", PyScalar (SText "n/a"))]]
    schema (convert_oracle_to_postgres_schema schema)
  = Raise "string argument without an encoding".
Proof. reflexivity. Qed.

(** ** The record of a job that ran without an exception *)

(** [migrations[migration_id]["details"]], where there is one. *)
Definition job_details (migration_id : string) (store : PyDict Migration)
  : option Details :=
  match dict_lookup migration_id store with
  | Some m => details m
  | None => None
  end.

(** [n] more tables, each with its schema conversion, and [r] more rows. *)
Definition add_counts (n r : Z) (st : Stats) : Stats :=
  {| tables_processed := tables_processed st + n;
     rows_migrated := rows_migrated st + r;
     schema_conversions := schema_conversions st + n;
     type_conversions := type_conversions st;
     stored_procedures := stored_procedures st |}.

Lemma add_counts_zero (st : Stats) : add_counts 0 0 st = st.
Proof. destruct st. unfold add_counts. simpl. f_equal; lia. Qed.

Lemma add_counts_add (n1 r1 n2 r2 : Z) (st : Stats) :
  add_counts n2 r2 (add_counts n1 r1 st) = add_counts (n1 + n2) (r1 + r2) st.
Proof. unfold add_counts. simpl. f_equal; lia. Qed.

Section Completed.
Context {W : Type} (C : Connectors W).
Variable migration_id : string.
Variable request : MigrationRequest.

(** From [s] to [s'] the pages [pages] were fetched and the counters of the
    job went through [g], with the list of tables and the error of the
    record left as they were. *)
Definition moved (g : Stats -> Stats) (pages : list (list Row))
    (s s' : State W) : Prop :=
  pages_of (events s') = (pages_of (events s) ++ pages)%list /\
  forall d,
    job_details migration_id (migrations s) = Some d ->
    exists d',
      job_details migration_id (migrations s') = Some d' /\
      details_tables d' = details_tables d /\
      details_error d' = details_error d /\
      details_stats d' = option_map g (details_stats d).

Lemma moved_still (s s' : State W) :
  migrations s' = migrations s ->
  pages_of (events s') = pages_of (events s) ->
  moved (fun st => st) [] s s'.
Proof.
  intros Hm He. split; [rewrite He, app_nil_r; reflexivity |].
  intros d Hd. exists d. rewrite Hm.
  split; [exact Hd |]. split; [reflexivity |]. split; [reflexivity |].
  destruct (details_stats d); reflexivity.
Qed.

Lemma moved_trans g1 p1 g2 p2 (s s1 s2 : State W) :
  moved g1 p1 s s1 -> moved g2 p2 s1 s2 ->
  moved (fun st => g2 (g1 st)) (p1 ++ p2) s s2.
Proof.
  intros [Hp1 H1] [Hp2 H2]. split.
  - rewrite Hp2, Hp1, app_assoc. reflexivity.
  - intros d Hd.
    destruct (H1 d Hd) as [d1 [Hd1 [Ht1 [He1 Hs1]]]].
    destruct (H2 d1 Hd1) as [d2 [Hd2 [Ht2 [He2 Hs2]]]].
    exists d2. split; [exact Hd2 |].
    split; [congruence |]. split; [congruence |].
    rewrite Hs2, Hs1. destruct (details_stats d); reflexivity.
Qed.

Lemma moved_ext g g' p p' (s s' : State W) :
  (forall st, g st = g' st) -> p = p' ->
  moved g p s s' -> moved g' p' s s'.
Proof.
  intros Hg Hp [Hpg H]. subst p'. split; [exact Hpg |].
  intros d Hd. destruct (H d Hd) as [d' [Hd' [Ht [He Hs]]]].
  exists d'. split; [exact Hd' |]. split; [exact Ht |]. split; [exact He |].
  rewrite Hs. destruct (details_stats d); simpl; [rewrite Hg |]; reflexivity.
Qed.

Lemma moved_call {A} (op : W -> Result A * W) (s : State W) a s' :
  call op s = Some (Ok a, s') -> moved (fun st => st) [] s s'.
Proof.
  intros H. apply call_ok_inv in H. destruct H as [w [_ Hs]]. subst s'.
  apply moved_still; reflexivity.
Qed.

Lemma moved_emit e (s : State W) u s' :
  page_of_event e = [] ->
  emit e s = Some (Ok u, s') -> moved (fun st => st) [] s s'.
Proof.
  intros He H. inversion H. apply moved_still; [reflexivity |].
  unfold pages_of. rewrite (proj_add_event page_of_event e s), He.
  apply app_nil_r.
Qed.

Lemma moved_modify (f : State W -> State W) (s : State W) u s' :
  (forall s0, migrations (f s0) = migrations s0) ->
  (forall s0, events (f s0) = events s0) ->
  modify f s = Some (Ok u, s') -> moved (fun st => st) [] s s'.
Proof.
  intros Hm He H. inversion H. apply moved_still; [apply Hm |].
  rewrite He. reflexivity.
Qed.

Lemma moved_update_details f (s : State W) u s' :
  (forall d, details_tables (f d) = details_tables d /\
             details_error (f d) = details_error d /\
             details_stats (f d) = details_stats d) ->
  update_details migration_id f s = Some (Ok u, s') ->
  moved (fun st => st) [] s s'.
Proof.
  intros Hf H. apply update_details_ok_inv in H.
  destruct H as [m [d [Hm [Hd Hs]]]]. subst s'. split.
  - simpl. rewrite app_nil_r. reflexivity.
  - intros d1 Hd1. unfold job_details in Hd1. rewrite Hm, Hd in Hd1.
    inversion Hd1; subst d1. exists (f d). split.
    + unfold job_details. simpl. rewrite dict_lookup_set_same. reflexivity.
    + destruct (Hf d) as [Ht [He Hst]].
      split; [exact Ht |]. split; [exact He |]. rewrite Hst.
      destruct (details_stats d); reflexivity.
Qed.

Lemma moved_update_stats g (s : State W) r s' :
  update_stats migration_id g s = Some (r, s') -> moved g [] s s'.
Proof.
  unfold update_stats, modify. intros H. inversion H. clear H. split.
  - destruct (dict_lookup migration_id (migrations s)) as [m |];
      [destruct (details m) |]; simpl; rewrite app_nil_r; reflexivity.
  - intros d Hd. unfold job_details in Hd.
    destruct (dict_lookup migration_id (migrations s)) as [m |] eqn:Hm;
      [| discriminate].
    rewrite Hd. exists (with_stats (option_map g (details_stats d)) d).
    split; [| repeat split].
    unfold job_details. simpl. rewrite dict_lookup_set_same. reflexivity.
Qed.

Lemma moved_set_phase p (s : State W) u s' :
  set_phase migration_id p s = Some (Ok u, s') ->
  moved (fun st => st) [] s s'.
Proof.
  unfold set_phase. intros H.
  apply bind_ok_inv in H. destruct H as [u1 [s1 [H1 H2]]].
  apply moved_update_details in H1; [| intros d; repeat split].
  apply moved_emit in H2; [| reflexivity].
  exact (moved_trans _ _ _ _ _ _ _ H1 H2).
Qed.

Lemma moved_fetch t l o (s : State W) page s' :
  fetch C t l o s = Some (Ok page, s') -> moved (fun st => st) [page] s s'.
Proof.
  intros H. apply fetch_ok in H. destruct H as [w [_ Hs]]. subst s'. split.
  - unfold pages_of.
    exact (fetched_proj page_of_event _ _ _ _ w s eq_refl).
  - intros d Hd. exists d. split; [exact Hd |]. repeat split.
    destruct (details_stats d); reflexivity.
Qed.

Lemma moved_load_batch t os ps rc off mig page (s : State W) v s' :
  load_batch C migration_id request t os ps rc off mig page s
  = Some (Ok v, s') ->
  moved (add_rows_migrated (Z.of_nat (List.length page))) [] s s'.
Proof.
  unfold load_batch, store_stats, publish_progress. intros H.
  apply bind_ok_inv in H. destruct H as [data [s1 [Ht H]]].
  destruct (transform_oracle_to_postgres_data page os ps) as [data' | msg];
    [| discriminate].
  simpl in Ht. inversion Ht. subst data' s1. clear Ht.
  apply bind_ok_inv in H. destruct H as [n [s2 [H2 H]]].
  apply insert_ok_inv in H2. destruct H2 as [Hm2 He2].
  assert (M2 : moved (fun st => st) [] s s2).
  { apply moved_still; [exact Hm2 |].
    unfold pages_of. rewrite He2, flat_map_app. apply app_nil_r. }
  apply bind_ok_inv in H. destruct H as [u3 [s3 [H3 H]]].
  apply moved_update_stats in H3.
  apply bind_ok_inv in H. destruct H as [u4 [s4 [H4 H]]].
  apply moved_update_details in H4; [| intros d; repeat split].
  apply bind_ok_inv in H. destruct H as [u5 [s5 [H5 H]]].
  apply bind_ok_inv in H5. destruct H5 as [u5' [s5' [H5a H5b]]].
  apply moved_update_details in H5a; [| intros d; repeat split].
  apply moved_emit in H5b; [| reflexivity].
  apply bind_ok_inv in H. destruct H as [u6 [s6 [H6 H]]].
  apply moved_modify in H6; [| reflexivity | reflexivity].
  apply ret_inv in H. destruct H as [_ Hs]. subst s'.
  pose proof (moved_trans _ _ _ _ _ _ _ M2
               (moved_trans _ _ _ _ _ _ _ H3
                  (moved_trans _ _ _ _ _ _ _ H4
                     (moved_trans _ _ _ _ _ _ _ H5a
                        (moved_trans _ _ _ _ _ _ _ H5b H6))))) as Hall.
  eapply moved_ext; [| | exact Hall]; [intros st |]; reflexivity.
Qed.

Lemma moved_migrate_batch t os ps rc off mig (s : State W) next s' :
  migrate_batch C migration_id request t os ps rc off mig s
  = Some (Ok next, s') ->
  exists page,
    moved (add_rows_migrated (Z.of_nat (List.length page))) [page] s s'.
Proof.
  unfold migrate_batch. intros H.
  apply bind_ok_inv in H. destruct H as [page [s1 [Hf H]]].
  apply moved_fetch in Hf. exists page. destruct page as [| row rest].
  - apply ret_inv in H. destruct H as [_ Hs]. subst s'.
    eapply moved_ext; [| | exact Hf]; [intros st | reflexivity].
    symmetry. apply add_rows_migrated_zero.
  - apply bind_ok_inv in H. destruct H as [v [s2 [Hl H]]].
    apply moved_load_batch in Hl.
    apply ret_inv in H. destruct H as [_ Hs]. subst s'.
    pose proof (moved_trans _ _ _ _ _ _ _ Hf Hl) as Hall.
    eapply moved_ext; [| | exact Hall]; [intros st |]; reflexivity.
Qed.

Lemma moved_migrate_batches fuel t os ps rc :
  forall off mig (s : State W) v s',
    migrate_batches C migration_id request fuel t os ps rc off mig s
    = Some (Ok v, s') ->
    exists pages,
      moved (add_rows_migrated
               (Z.of_nat (List.length (List.concat pages)))) pages s s'.
Proof.
  assert (Hstop : forall s : State W,
            exists pages,
              moved (add_rows_migrated
                       (Z.of_nat (List.length (List.concat pages))))
                    pages s s).
  { intros s. exists [].
    eapply moved_ext; [| | apply (moved_still s s); reflexivity];
      [intros st | reflexivity].
    symmetry. apply add_rows_migrated_zero. }
  induction fuel as [| fuel IH]; intros off mig s v s' H; simpl in H;
    destruct (off <? rc).
  - discriminate.
  - apply ret_inv in H. destruct H as [_ Hs]. subst s'. apply Hstop.
  - apply bind_ok_inv in H. destruct H as [next [s1 [Hb H]]].
    apply moved_migrate_batch in Hb. destruct Hb as [page Hpage].
    destruct next as [[off1 mig1] |].
    + apply IH in H. destruct H as [pages Hrest].
      exists (page :: pages).
      pose proof (moved_trans _ _ _ _ _ _ _ Hpage Hrest) as Hall.
      eapply moved_ext; [| | exact Hall]; [intros st | reflexivity].
      cbv beta. rewrite add_rows_migrated_add. cbn [List.concat].
      rewrite length_app, Nat2Z.inj_add. reflexivity.
    + apply ret_inv in H. destruct H as [_ Hs]. subst s'.
      exists [page].
      eapply moved_ext; [| | exact Hpage]; [intros st | reflexivity].
      cbn [List.concat]. rewrite app_nil_r. reflexivity.
  - apply ret_inv in H. destruct H as [_ Hs]. subst s'. apply Hstop.
Qed.

Lemma moved_migrate_table fuel t (s : State W) u s' :
  migrate_table C migration_id request fuel t s = Some (Ok u, s') ->
  exists pages,
    moved (add_counts 1 (Z.of_nat (List.length (List.concat pages))))
          pages s s'.
Proof.
  unfold migrate_table, store_stats. intros H.
  apply bind_ok_inv in H. destruct H as [u1 [s1 [H1 H]]].
  apply moved_modify in H1; [| reflexivity | reflexivity].
  apply bind_ok_inv in H. destruct H as [os [s2 [H2 H]]].
  apply moved_call in H2.
  apply bind_ok_inv in H. destruct H as [u3 [s3 [H3 H]]].
  apply moved_set_phase in H3.
  apply bind_ok_inv in H. destruct H as [u4 [s4 [H4 H]]].
  apply moved_update_details in H4; [| intros d; repeat split].
  apply bind_ok_inv in H. destruct H as [u5 [s5 [H5 H]]].
  apply moved_call in H5.
  apply bind_ok_inv in H. destruct H as [u6 [s6 [H6 H]]].
  apply moved_update_stats in H6.
  apply bind_ok_inv in H. destruct H as [u7 [s7 [H7 H]]].
  apply moved_update_stats in H7.
  apply bind_ok_inv in H. destruct H as [u8 [s8 [H8 H]]].
  apply moved_update_details in H8; [| intros d; repeat split].
  pose proof (moved_trans _ _ _ _ _ _ _ H1
               (moved_trans _ _ _ _ _ _ _ H2
                  (moved_trans _ _ _ _ _ _ _ H3
                     (moved_trans _ _ _ _ _ _ _ H4
                        (moved_trans _ _ _ _ _ _ _ H5
                           (moved_trans _ _ _ _ _ _ _ H6
                              (moved_trans _ _ _ _ _ _ _ H7 H8)))))))
    as Hschema.
  destruct (only_schema request).
  - apply ret_inv in H. destruct H as [_ Hs]. subst s'. exists [].
    eapply moved_ext; [| | exact Hschema]; [intros st | reflexivity].
    unfold add_counts, add_schema_conversions, add_tables_processed. simpl.
    f_equal. lia.
  - apply bind_ok_inv in H. destruct H as [v [s9 [H9 H]]].
    apply ret_inv in H. destruct H as [_ Hs]. subst s'.
    unfold migrate_table_data in H9.
    apply bind_ok_inv in H9. destruct H9 as [u9 [s9a [H9a H9]]].
    apply moved_set_phase in H9a.
    apply bind_ok_inv in H9. destruct H9 as [rc [s9b [H9b H9]]].
    apply moved_call in H9b.
    apply moved_migrate_batches in H9. destruct H9 as [pages Hpages].
    exists pages.
    pose proof (moved_trans _ _ _ _ _ _ _ Hschema
                 (moved_trans _ _ _ _ _ _ _ H9a
                    (moved_trans _ _ _ _ _ _ _ H9b Hpages))) as Hall.
    eapply moved_ext; [| | exact Hall]; [intros st |]; reflexivity.
Qed.

Lemma moved_migrate_tables fuel names :
  forall (s : State W) u s',
    migrate_tables C migration_id request fuel names s = Some (Ok u, s') ->
    exists pages,
      moved (add_counts (Z.of_nat (List.length names))
               (Z.of_nat (List.length (List.concat pages))))
            pages s s'.
Proof.
  induction names as [| t rest IH]; intros s u s' H; simpl in H.
  - apply ret_inv in H. destruct H as [_ Hs]. subst s'. exists [].
    eapply moved_ext; [| | apply (moved_still s s); reflexivity];
      [intros st | reflexivity].
    symmetry. apply add_counts_zero.
  - apply bind_ok_inv in H. destruct H as [u1 [s1 [H1 H]]].
    apply moved_migrate_table in H1. destruct H1 as [pages1 H1].
    apply IH in H. destruct H as [pages2 H2].
    exists (pages1 ++ pages2)%list.
    pose proof (moved_trans _ _ _ _ _ _ _ H1 H2) as Hall.
    eapply moved_ext; [| | exact Hall]; [intros st | reflexivity].
    cbv beta. rewrite add_counts_add. f_equal.
    + cbn [List.length]. lia.
    + rewrite concat_app, length_app. lia.
Qed.

Lemma moved_select_tables (s : State W) names s' :
  select_tables C request s = Some (Ok names, s') ->
  moved (fun st => st) [] s s'.
Proof.
  unfold select_tables. intros H.
  apply bind_ok_inv in H. destruct H as [all [s1 [H1 H]]].
  assert (M1 : moved (fun st => st) [] s s1).
  { destruct (tables request) as [[| t ts] |].
    - exact (moved_call _ _ _ _ H1).
    - apply ret_inv in H1. destruct H1 as [_ Hs]. subst s1.
      apply moved_still; reflexivity.
    - exact (moved_call _ _ _ _ H1). }
  destruct (exclude_tables request) as [[| e es] |];
    apply ret_inv in H; destruct H as [_ Hs]; subst s'; exact M1.
Qed.

Lemma moved_connect (op : W -> Result unit * W) (f : State W -> State W)
    (s : State W) u s' :
  (forall s0, migrations (f s0) = migrations s0) ->
  (forall s0, events (f s0) = events s0) ->
  (call op ;; modify f) s = Some (Ok u, s') ->
  moved (fun st => st) [] s s'.
Proof.
  intros Hm He H.
  apply bind_ok_inv in H. destruct H as [u1 [s1 [H1 H2]]].
  apply moved_call in H1. apply moved_modify in H2; [| exact Hm | exact He].
  exact (moved_trans _ _ _ _ _ _ _ H1 H2).
Qed.

(** The [try] block when it returns. *)
Lemma migration_body_completes fuel (s : State W) u s' d0 :
  job_details migration_id (migrations s) = Some d0 ->
  migration_body C migration_id request fuel s = Some (Ok u, s') ->
  exists names pages lines d,
    pages_of (events s') = (pages_of (events s) ++ pages)%list /\
    get_migration (migrations s') migration_id
    = Ok {| response_migration_id := migration_id;
            response_status := "completed";
            response_details :=
              Some (with_duration (calculate_duration migration_id)
                      (with_migration_log lines
                         (with_current_phase completed d))) |} /\
    details_tables d = Some names /\
    details_error d = details_error d0 /\
    details_stats d
    = Some (add_counts (Z.of_nat (List.length names))
              (Z.of_nat (List.length (List.concat pages))) zero_stats).
Proof.
  intros Hd0 H. unfold migration_body in H.
  apply bind_ok_inv in H. destruct H as [u1 [s1 [H1 H]]].
  apply moved_call in H1.
  apply bind_ok_inv in H. destruct H as [u2 [s2 [H2 H]]].
  apply moved_modify in H2; [| reflexivity | reflexivity].
  apply bind_ok_inv in H. destruct H as [u3 [s3 [H3 H]]].
  apply moved_connect in H3; [| reflexivity | reflexivity].
  apply bind_ok_inv in H. destruct H as [u4 [s4 [H4 H]]].
  apply moved_modify in H4; [| reflexivity | reflexivity].
  apply bind_ok_inv in H. destruct H as [u5 [s5 [H5 H]]].
  apply moved_connect in H5; [| reflexivity | reflexivity].
  apply bind_ok_inv in H. destruct H as [names [s6 [H6 H]]].
  apply moved_select_tables in H6.
  apply bind_ok_inv in H. destruct H as [u7 [s7 [H7 H]]].
  apply moved_modify in H7; [| reflexivity | reflexivity].
  pose proof (moved_trans _ _ _ _ _ _ _ H1
               (moved_trans _ _ _ _ _ _ _ H2
                  (moved_trans _ _ _ _ _ _ _ H3
                     (moved_trans _ _ _ _ _ _ _ H4
                        (moved_trans _ _ _ _ _ _ _ H5
                           (moved_trans _ _ _ _ _ _ _ H6 H7))))))
    as [Hp7 Hd7].
  destruct (Hd7 d0 Hd0) as [d7 [Hj7 [_ [He7 _]]]].
  simpl in Hp7. rewrite app_nil_r in Hp7.
  apply bind_ok_inv in H. destruct H as [u8 [s8 [H8 H]]].
  apply update_details_ok_inv in H8. destruct H8 as [m8 [d8 [Hm8 [Hd8 Hs8]]]].
  assert (d8 = d7).
  { unfold job_details in Hj7. rewrite Hm8, Hd8 in Hj7. congruence. }
  subst d8.
  apply bind_ok_inv in H. destruct H as [u9 [s9 [H9 H]]].
  apply update_details_ok_inv in H9. destruct H9 as [m9 [d9 [Hm9 [Hd9 Hs9]]]].
  assert (Hm9' : m9 = {| status := status m8;
                         details := Some (with_tables names d7) |}).
  { subst s8. simpl in Hm9. rewrite dict_lookup_set_same in Hm9. congruence. }
  subst m9. simpl in Hd9. inversion Hd9. subst d9. clear Hd9.
  assert (Hj9 : job_details migration_id (migrations s9)
                = Some (with_stats (Some zero_stats)
                          (with_tables names d7))).
  { subst s9. unfold job_details. simpl. rewrite dict_lookup_set_same.
    reflexivity. }
  assert (Hp9 : pages_of (events s9) = pages_of (events s)).
  { subst s9 s8. simpl. exact Hp7. }
  apply bind_ok_inv in H. destruct H as [u10 [s10 [H10 H]]].
  apply moved_migrate_tables in H10. destruct H10 as [pages H10].
  apply bind_ok_inv in H. destruct H as [u11 [s11 [H11 H]]].
  apply moved_set_phase in H11.
  apply bind_ok_inv in H. destruct H as [u12 [s12 [H12 H]]].
  apply moved_set_phase in H12.
  pose proof (moved_trans _ _ _ _ _ _ _ H10
               (moved_trans _ _ _ _ _ _ _ H11 H12)) as [Hp12 Hd12].
  destruct (Hd12 _ Hj9) as [d12 [Hj12 [Ht12 [He12 Hs12]]]].
  simpl in Ht12, He12, Hs12. rewrite !app_nil_r in Hp12.
  apply bind_ok_inv in H. destruct H as [u13 [s13 [H13 H]]].
  unfold set_status in H13.
  destruct (dict_lookup migration_id (migrations s12)) as [m12 |] eqn:Hm12;
    [| discriminate].
  inversion H13. subst s13. clear H13.
  assert (Hdm12 : details m12 = Some d12).
  { unfold job_details in Hj12. rewrite Hm12 in Hj12. exact Hj12. }
  unfold set_phase in H.
  apply bind_ok_inv in H. destruct H as [u14 [s14 [H14 H]]].
  apply bind_ok_inv in H14. destruct H14 as [u14' [s14' [H14a H14b]]].
  apply update_details_ok_inv in H14a.
  destruct H14a as [m14 [d14 [Hm14 [Hd14 Hs14]]]].
  simpl in Hm14. rewrite dict_lookup_set_same in Hm14.
  inversion Hm14. subst m14. clear Hm14.
  simpl in Hd14. rewrite Hdm12 in Hd14. inversion Hd14. subst d14. clear Hd14.
  inversion H14b. subst s14. clear H14b.
  apply bind_ok_inv in H. destruct H as [lines [s15 [H15 H]]].
  inversion H15. subst s15. clear H15.
  apply bind_ok_inv in H. destruct H as [u16 [s16 [H16 H]]].
  apply update_details_ok_inv in H16.
  destruct H16 as [m16 [d16 [Hm16 [Hd16 Hs16]]]].
  subst s14'. simpl in Hm16. rewrite dict_lookup_set_same in Hm16.
  inversion Hm16. subst m16. clear Hm16.
  simpl in Hd16. inversion Hd16. subst d16. clear Hd16.
  apply update_details_ok_inv in H.
  destruct H as [m17 [d17 [Hm17 [Hd17 Hs17]]]].
  subst s16. simpl in Hm17. rewrite dict_lookup_set_same in Hm17.
  inversion Hm17. subst m17. clear Hm17.
  simpl in Hd17. inversion Hd17. subst d17. clear Hd17.
  eexists names, pages, _, d12. split.
  - subst s'. simpl. unfold pages_of in *. rewrite flat_map_app. simpl.
    rewrite app_nil_r. rewrite Hp12, Hp9. reflexivity.
  - split.
    + subst s'. unfold get_migration. simpl.
      rewrite dict_lookup_set_same. reflexivity.
    + split; [exact Ht12 |]. split; [congruence |]. exact Hs12.
Qed.

End Completed.

(** The [finally] block writes no record and fetches no page; what it can
    add to the log of exceptions is the exception of a [close()]. *)
Lemma cleanup_keeps_pages {W} (C : Connectors W) (s : State W) :
  exists r s' extra,
    cleanup C s = Some (r, s') /\
    migrations s' = migrations s /\
    pages_of (events s') = pages_of (events s) /\
    faults_of (events s') = (faults_of (events s) ++ extra)%list.
Proof.
  destruct (total_cleanup C s) as [r [s' Hrun]].
  set (I := fun s0 : State W =>
              migrations s0 = migrations s /\
              pages_of (events s0) = pages_of (events s) /\
              exists extra,
                faults_of (events s0) = (faults_of (events s) ++ extra)%list).
  assert (HI : I s').
  { assert (Hk : wlp (cleanup C) (fun _ s0 => I s0) (fun _ s0 => I s0) s).
    { apply (keeps_cleanup C I (fun _ s0 => I s0)
               (fun e => page_of_event e = [])).
      - intros w s0 H. exact H.
      - intros c s0 H. exact H.
      - intros c s0 H. exact H.
      - intros e s0 He [Hm [Hp [extra Hf]]]. split; [exact Hm |]. split.
        + unfold pages_of. rewrite (proj_add_event page_of_event e s0), He.
          rewrite app_nil_r. exact Hp.
        + exists (extra ++ fault_of_event e)%list. unfold faults_of.
          rewrite (proj_add_event fault_of_event e s0).
          unfold faults_of in Hf. rewrite Hf, app_assoc. reflexivity.
      - intros msg s0 [Hm [Hp [extra Hf]]]. split; [exact Hm |]. split.
        + unfold pages_of.
          rewrite (proj_add_event page_of_event (EvFault msg) s0).
          rewrite app_nil_r. exact Hp.
        + exists (extra ++ [msg])%list. unfold faults_of.
          rewrite (proj_add_event fault_of_event (EvFault msg) s0).
          unfold faults_of in Hf. rewrite Hf, app_assoc. reflexivity.
      - intros side. reflexivity.
      - split; [reflexivity |]. split; [reflexivity |].
        exists []. rewrite app_nil_r. reflexivity. }
    specialize (Hk r s' Hrun). destruct r; exact Hk. }
  destruct HI as [Hm [Hp [extra Hf]]].
  exists r, s', extra. repeat split; assumption.
Qed.

(** X27. The record of a job whose run raised nothing: for a job record
    with details, when a run returns without any exception on the way, the
    job is completed, in phase completed, with a migration log and the
    duration of 120 seconds; its list of tables is the list the run worked
    on; its counters say one processed table and one schema conversion for
    each table of that list, as many migrated rows as the fetched pages
    hold, and zero type conversions and stored procedures; and the error
    entry is as it was before the run. *)
Theorem run_without_exception_completes_with_its_counts {W}
    (C : Connectors W) (migration_id : string) (request : MigrationRequest)
    (fuel : nat) (w : W) (store : PyDict Migration) (m0 : Migration)
    (d0 : Details) (r : Result unit) (s' : State W) :
  dict_lookup migration_id store = Some m0 ->
  details m0 = Some d0 ->
  run_oracle_to_postgres_migration C migration_id request fuel
    (initial_state w store) = Some (r, s') ->
  faults_of (events s') = [] ->
  exists names d,
    get_migration (migrations s') migration_id
    = Ok {| response_migration_id := migration_id;
            response_status := "completed";
            response_details := Some d |} /\
    current_phase d = Some completed /\
    details_tables d = Some names /\
    details_stats d
    = Some {| tables_processed := Z.of_nat (List.length names);
              rows_migrated :=
                Z.of_nat (List.length (List.concat (pages_of (events s'))));
              schema_conversions := Z.of_nat (List.length names);
              type_conversions := 0;
              stored_procedures := 0 |} /\
    details_error d = details_error d0 /\
    duration_seconds d = Some 120 /\
    details_migration_log d <> None.
Proof.
  intros Hm0 Hd0 Hrun Hfaults.
  rewrite (run_from_started C migration_id request fuel w store m0 d0 Hm0 Hd0)
    in Hrun.
  set (sB := started migration_id w store m0 d0) in Hrun.
  assert (HjB : job_details migration_id (migrations sB)
                = Some (with_current_phase schema_analysis d0)).
  { unfold job_details. simpl. rewrite dict_lookup_set_same. reflexivity. }
  assert (HnfB : no_fault migration_id sB).
  { split; [| reflexivity].
    eexists _, _. split; [apply dict_lookup_set_same | reflexivity]. }
  unfold try_except_finally in Hrun.
  destruct (migration_body C migration_id request fuel sB)
    as [[[u | msg] s1] |] eqn:Hbody; [| | discriminate].
  - destruct (migration_body_completes C migration_id request fuel sB u s1
                _ HjB Hbody)
      as [names [pages [lines [d [Hp [Hget [Ht [He Hs]]]]]]]].
    destruct (cleanup_keeps_pages C s1) as [r2 [s2 [extra [Hc [Hm2 [Hp2 _]]]]]].
    rewrite Hc in Hrun. inversion Hrun; subst.
    exists names, (with_duration (calculate_duration migration_id)
                     (with_migration_log lines
                        (with_current_phase completed d))).
    rewrite Hm2, Hp2, Hp. simpl.
    split; [exact Hget |]. split; [reflexivity |]. split; [exact Ht |].
    split; [rewrite Hs; reflexivity |]. split; [exact He |].
    split; [reflexivity | discriminate].
  - exfalso.
    pose proof (migration_body_faults C migration_id request fuel sB HnfB
                  _ _ Hbody) as [Hj1 Hf1].
    destruct (on_exception_records migration_id msg s1 Hj1)
      as [s2 [m2 [d2 [Hh [_ [_ [_ [_ [_ [Hev _]]]]]]]]]].
    rewrite Hh in Hrun.
    destruct (cleanup_keeps_pages C s2) as [r3 [s3 [extra [Hc [_ [_ Hf3]]]]]].
    rewrite Hc in Hrun. inversion Hrun; subst.
    rewrite Hf3 in Hfaults. unfold faults_of in Hfaults, Hf1.
    rewrite Hev, flat_map_app, Hf1 in Hfaults. discriminate.
Qed.

Lemma run_without_exception_completes_with_its_counts_witness :
  exists s',
    run_oracle_to_postgres_migration
      (quiet_connectors (ids_table 3) ids_schema) "migration-1"
      (request_with_batch_size 2) 3 (initial_state tt job_store)
    = Some (Ok tt, s') /\
    exists names d,
      get_migration (migrations s') "migration-1"
      = Ok {| response_migration_id := "migration-1";
              response_status := "completed";
              response_details := Some d |} /\
      current_phase d = Some completed /\
      details_tables d = Some names /\
      details_stats d
      = Some {| tables_processed := Z.of_nat (List.length names);
                rows_migrated :=
                  Z.of_nat
                    (List.length (List.concat (pages_of (events s'))));
                schema_conversions := Z.of_nat (List.length names);
                type_conversions := 0;
                stored_procedures := 0 |} /\
      details_error d = details_error empty_details /\
      duration_seconds d = Some 120 /\
      details_migration_log d <> None.
Proof.
  eexists. split; [vm_compute; reflexivity |].
  apply (run_without_exception_completes_with_its_counts
           (quiet_connectors (ids_table 3) ids_schema) "migration-1"
           (request_with_batch_size 2) 3 tt job_store
           {| status := "pending"; details := Some empty_details |}
           empty_details (Ok tt) _ eq_refl eq_refl).
  - vm_compute. reflexivity.
  - vm_compute. reflexivity.
Defined.

Example three_rows_completed :
  exists s',
    run_oracle_to_postgres_migration
      (quiet_connectors (ids_table 3) ids_schema) "migration-1"
      (request_with_batch_size 2) 3 (initial_state tt job_store)
    = Some (Ok tt, s') /\
    job_stats "migration-1" (migrations s')
    = Some {| tables_processed := 1; rows_migrated := 3;
              schema_conversions := 1; type_conversions := 0;
              stored_procedures := 0 |}.
Proof.
  eexists. split; [vm_compute; reflexivity |]. reflexivity.
Qed.

(** ** The progress reports of a transfer *)

(** The report after [m] of the [rc] rows of table [t]. *)
Definition report (t : string) (rc m : Z) : Progress :=
  {| progress_table := t; rows_processed := m; total_rows := rc;
     progress_percentage := percentage m rc |}.

(** The counts reached after each page, for pages of the given sizes,
    starting from [m]. *)
Fixpoint running (m : Z) (sizes : list nat) : list Z :=
  match sizes with
  | [] => []
  | n :: rest => (m + Z.of_nat n) :: running (m + Z.of_nat n) rest
  end.

Section Reports.
Context {W : Type} (C : Connectors W).
Variable migration_id : string.
Variable request : MigrationRequest.

Lemma lift_result_reports {A} (x : Result A) (s : State W) r s' :
  lift_result x s = Some (r, s') ->
  progress_of (events s') = progress_of (events s).
Proof.
  destruct x; simpl; intros H; inversion H; [reflexivity |].
  unfold progress_of. rewrite (proj_add_event progress_of_event _ s).
  apply app_nil_r.
Qed.

Lemma call_reports {A} (op : W -> Result A * W) (s : State W) r s' :
  call op s = Some (r, s') ->
  progress_of (events s') = progress_of (events s).
Proof.
  unfold call. destruct (op (world s)) as [x w]. intros H.
  exact (lift_result_reports x _ _ _ H).
Qed.

Lemma insert_reports t data (s : State W) r s' :
  insert C t data s = Some (r, s') ->
  progress_of (events s') = progress_of (events s).
Proof.
  unfold insert. intros H. apply bind_inv in H.
  destruct H as [[msg [H _]] | [u [s1 [H1 H]]]]; [inversion H |].
  inversion H1. subst s1. apply call_reports in H. rewrite H.
  unfold progress_of. rewrite (proj_add_event progress_of_event _ s).
  apply app_nil_r.
Qed.

Lemma update_details_reports f (s : State W) r s' :
  update_details migration_id f s = Some (r, s') ->
  progress_of (events s') = progress_of (events s).
Proof.
  unfold update_details, raise. intros H.
  destruct (dict_lookup migration_id (migrations s)) as [m |];
    [destruct (details m) |]; inversion H; try reflexivity;
    unfold progress_of; rewrite (proj_add_event progress_of_event _ s);
    apply app_nil_r.
Qed.

Lemma update_stats_reports g (s : State W) r s' :
  update_stats migration_id g s = Some (r, s') ->
  progress_of (events s') = progress_of (events s).
Proof.
  intros H. apply update_stats_inv in H. destruct H as [_ He].
  rewrite He. reflexivity.
Qed.

(** A turn that fails after its fetch has published nothing. *)
Lemma load_batch_raise_reports t os ps rc off mig page (s : State W) msg s' :
  load_batch C migration_id request t os ps rc off mig page s
  = Some (Raise msg, s') ->
  progress_of (events s') = progress_of (events s).
Proof.
  unfold load_batch, store_stats, publish_progress. intros H.
  apply bind_inv in H. destruct H as [[m1 [H1 _]] | [data [s1 [H1 H]]]];
    [exact (lift_result_reports _ _ _ _ H1) |].
  apply lift_result_reports in H1. rewrite <- H1.
  apply bind_inv in H. destruct H as [[m2 [H2 _]] | [n [s2 [H2 H]]]];
    [exact (insert_reports _ _ _ _ _ H2) |].
  apply insert_reports in H2. rewrite <- H2.
  apply bind_inv in H. destruct H as [[m3 [H3 _]] | [u3 [s3 [H3 H]]]];
    [exact (update_stats_reports _ _ _ _ H3) |].
  apply update_stats_reports in H3. rewrite <- H3.
  apply bind_inv in H. destruct H as [[m4 [H4 _]] | [u4 [s4 [H4 H]]]];
    [exact (update_details_reports _ _ _ _ H4) |].
  apply update_details_reports in H4. rewrite <- H4.
  apply bind_inv in H. destruct H as [[m5 [H5 _]] | [u5 [s5 [H5 H]]]].
  - apply bind_inv in H5.
    destruct H5 as [[m5' [H5 _]] | [u5' [s5' [_ H5]]]];
      [exact (update_details_reports _ _ _ _ H5) | inversion H5].
  - apply bind_inv in H. destruct H as [[m6 [H6 _]] | [u6 [s6 [_ H]]]];
      [inversion H6 | inversion H].
Qed.

(** The reports of one turn, however it ends: one report, with the count
    it hands on, when the turn carries on with a page that has rows; none
    otherwise. *)
Lemma migrate_batch_reports t os ps rc off mig (s : State W) r s' :
  migrate_batch C migration_id request t os ps rc off mig s = Some (r, s') ->
  (progress_of (events s') = progress_of (events s) /\
   forall next, r <> Ok (Some next)) \/
  (exists n : nat,
     (0 < n)%nat /\
     r = Ok (Some (off + batch_size request, mig + Z.of_nat n)) /\
     progress_of (events s')
     = (progress_of (events s) ++ [report t rc (mig + Z.of_nat n)])%list).
Proof.
  unfold migrate_batch. intros H. apply bind_inv in H.
  destruct H as [[msg [Hf Hr]] | [page [s1 [Hf H]]]].
  - left. subst r. split; [| discriminate].
    unfold progress_of.
    rewrite (fetch_proj C progress_of_event _ _ _ _ _ _
               (fun _ => eq_refl) (fun _ => eq_refl) Hf).
    apply app_nil_r.
  - assert (E1 : progress_of (events s1) = progress_of (events s)).
    { unfold progress_of.
      rewrite (fetch_proj C progress_of_event _ _ _ _ _ _
                 (fun _ => eq_refl) (fun _ => eq_refl) Hf).
      apply app_nil_r. }
    destruct page as [| row rest].
    + left. apply ret_inv in H. destruct H as [Hr Hs]. subst r s'.
      split; [exact E1 | discriminate].
    + apply bind_inv in H.
      destruct H as [[msg [Hl Hr]] | [v [s2 [Hl H]]]].
      * left. subst r. split; [| discriminate].
        rewrite (load_batch_raise_reports _ _ _ _ _ _ _ _ _ _ Hl). exact E1.
      * right. exists (List.length (row :: rest)).
        split; [simpl; lia |].
        pose proof (load_batch_value _ _ _ _ _ _ _ _ _ _ _ _ _ Hl) as Hv.
        apply load_batch_ok_inv in Hl.
        destruct Hl as [data [pr [_ [Hev [Hpr _]]]]].
        apply ret_inv in H. destruct H as [Hr Hs]. subst r s' v.
        split; [reflexivity |].
        unfold progress_of. rewrite Hev, flat_map_app. simpl.
        fold (progress_of (events s1)). rewrite E1, Hpr. reflexivity.
Qed.

Lemma migrate_batches_reports fuel t os ps rc :
  forall off mig (s : State W) r s',
    migrate_batches C migration_id request fuel t os ps rc off mig s
    = Some (r, s') ->
    exists sizes : list nat,
      Forall (fun n => (0 < n)%nat) sizes /\
      progress_of (events s')
      = (progress_of (events s)
           ++ map (report t rc) (running mig sizes))%list /\
      forall off' mig',
        r = Ok (off', mig') -> mig' = mig + Z.of_nat (list_sum sizes).
Proof.
  assert (Hnone : forall (s s' : State W) (r : Result (Z * Z)) mig,
            progress_of (events s') = progress_of (events s) ->
            (forall off' mig', r = Ok (off', mig') -> mig' = mig) ->
            exists sizes : list nat,
              Forall (fun n => (0 < n)%nat) sizes /\
              progress_of (events s')
              = (progress_of (events s)
                   ++ map (report t rc) (running mig sizes))%list /\
              forall off' mig',
                r = Ok (off', mig') ->
                mig' = mig + Z.of_nat (list_sum sizes)).
  { intros s s' r mig He Hr. exists []. simpl. rewrite app_nil_r.
    split; [constructor |]. split; [exact He |].
    intros off' mig' Hr'. rewrite (Hr _ _ Hr'). lia. }
  induction fuel as [| fuel IH]; intros off mig s r s' H; simpl in H;
    destruct (off <? rc).
  - discriminate.
  - apply ret_inv in H. destruct H as [Hr Hs]. subst r s'.
    apply Hnone; [reflexivity |]. intros off' mig' E. congruence.
  - apply bind_inv in H.
    destruct H as [[msg [Hb Hr]] | [next [s1 [Hb H]]]].
    + subst r. apply migrate_batch_reports in Hb.
      destruct Hb as [[He _] | [n [_ [Hr _]]]]; [| discriminate].
      apply Hnone; [exact He | discriminate].
    + apply migrate_batch_reports in Hb.
      destruct Hb as [[He Hnot] | [n [Hn [Hr He]]]].
      * destruct next as [next |]; [exfalso; exact (Hnot next eq_refl) |].
        apply ret_inv in H. destruct H as [Hr Hs]. subst r s'.
        apply Hnone; [exact He |]. intros off' mig' E. congruence.
      * inversion Hr. subst next. apply IH in H.
        destruct H as [sizes [Hpos [Hp Hmig]]].
        exists (n :: sizes). split; [constructor; assumption |].
        split.
        -- rewrite Hp, He, <- app_assoc. reflexivity.
        -- intros off' mig' E. rewrite (Hmig _ _ E).
           change (list_sum (n :: sizes)) with (n + list_sum sizes)%nat.
           rewrite Nat2Z.inj_add. lia.
  - apply ret_inv in H. destruct H as [Hr Hs]. subst r s'.
    apply Hnone; [reflexivity |]. intros off' mig' E. congruence.
Qed.

End Reports.

(** X28. The progress reports of the transfer of one table, whatever the
    connectors answer and however the transfer ends: every report names
    the table and carries as its total the row count the source reported;
    the rows processed of the first report are a positive number, and from
    one report to the next they grow by a positive number, so they
    increase strictly; the percentage of each report is the one computed
    from its rows processed and that total; and when the transfer returns,
    the count it returns is the rows processed of the last report (zero
    when there is none). *)
Theorem progress_reports_follow_the_pages {W} (C : Connectors W)
    (migration_id : string) (request : MigrationRequest) (fuel : nat)
    (t : string) (os : OracleSchema) (ps : PgSchema) (s : State W)
    (r : Result (Z * Z)) (s' : State W) :
  migrate_table_data C migration_id request fuel t os ps s = Some (r, s') ->
  exists (rc : Z) (sizes : list nat),
    Forall (fun n => (0 < n)%nat) sizes /\
    progress_of (events s')
    = (progress_of (events s) ++ map (report t rc) (running 0 sizes))%list /\
    (sizes <> [] ->
     exists w, oracle_row_count C t (world s) = (Ok rc, w)) /\
    forall off' mig',
      r = Ok (off', mig') -> mig' = Z.of_nat (list_sum sizes).
Proof.
  intros H. unfold migrate_table_data in H.
  assert (Hnone : forall s1 : State W,
            progress_of (events s1) = progress_of (events s) ->
            (forall off' mig', r <> Ok (off', mig')) ->
            exists (rc : Z) (sizes : list nat),
              Forall (fun n => (0 < n)%nat) sizes /\
              progress_of (events s1)
              = (progress_of (events s)
                   ++ map (report t rc) (running 0 sizes))%list /\
              (sizes <> [] ->
               exists w, oracle_row_count C t (world s) = (Ok rc, w)) /\
              forall off' mig',
                r = Ok (off', mig') -> mig' = Z.of_nat (list_sum sizes)).
  { intros s1 He Hr. exists 0, []. simpl. rewrite app_nil_r.
    split; [constructor |]. split; [exact He |].
    split; [intros Hn; contradiction |].
    intros off' mig' E. exfalso. exact (Hr _ _ E). }
  apply bind_inv in H. destruct H as [[msg [Hp Hr]] | [u [s1 [Hp H]]]].
  - apply set_phase_inv in Hp.
    destruct Hp as [_ [[msg' [_ Hev]] | [Hr' _]]]; [| discriminate].
    apply Hnone; [| subst r; discriminate].
    unfold progress_of. rewrite Hev, flat_map_app. apply app_nil_r.
  - apply set_phase_inv in Hp.
    destruct Hp as [Hw [[msg' [Hr' _]] | [_ Hev]]]; [discriminate |].
    assert (E1 : progress_of (events s1) = progress_of (events s)).
    { unfold progress_of. rewrite Hev, flat_map_app. apply app_nil_r. }
    apply bind_inv in H.
    destruct H as [[msg [Hcall Hr]] | [rc [s2 [Hcall H]]]].
    + apply Hnone; [| subst r; discriminate].
      rewrite (call_reports _ _ _ _ Hcall). exact E1.
    + pose proof (call_reports _ _ _ _ Hcall) as E2.
      apply call_ok_inv in Hcall. destruct Hcall as [w [Hrc _]].
      rewrite Hw in Hrc.
      apply (migrate_batches_reports C migration_id request) in H.
      destruct H as [sizes [Hpos [Hprog Hmig]]].
      exists rc, sizes. split; [exact Hpos |].
      split; [rewrite Hprog, E2, E1; reflexivity |].
      split; [intros _; exists w; exact Hrc |].
      intros off' mig' E. rewrite (Hmig _ _ E). lia.
Qed.

Lemma progress_reports_follow_the_pages_witness :
  exists s',
    migrate_table_data (quiet_connectors (ids_table 3) ids_schema)
      "migration-1" (request_with_batch_size 2) 3 "T" ids_schema
      (convert_oracle_to_postgres_schema ids_schema)
      (initial_state tt job_store)
    = Some (Ok (4, 3), s') /\
    exists (rc : Z) (sizes : list nat),
      Forall (fun n => (0 < n)%nat) sizes /\
      progress_of (events s')
      = (progress_of (events (initial_state tt job_store))
           ++ map (report "T" rc) (running 0 sizes))%list /\
      (sizes <> [] ->
       exists w,
         oracle_row_count (quiet_connectors (ids_table 3) ids_schema) "T"
           (world (initial_state tt job_store)) = (Ok rc, w)) /\
      forall off' mig',
        Ok (4, 3) = Ok (off', mig') -> mig' = Z.of_nat (list_sum sizes).
Proof.
  eexists. split; [vm_compute; reflexivity |].
  apply (progress_reports_follow_the_pages
           (quiet_connectors (ids_table 3) ids_schema) "migration-1"
           (request_with_batch_size 2) 3 "T" ids_schema
           (convert_oracle_to_postgres_schema ids_schema)
           (initial_state tt job_store) (Ok (4, 3)) _).
  vm_compute. reflexivity.
Defined.

Example three_rows_report_66_then_100 :
  exists s',
    migrate_table_data (quiet_connectors (ids_table 3) ids_schema)
      "migration-1" (request_with_batch_size 2) 3 "T" ids_schema
      (convert_oracle_to_postgres_schema ids_schema)
      (initial_state tt job_store)
    = Some (Ok (4, 3), s') /\
    progress_of (events s')
    = [ {| progress_table := "T"; rows_processed := 2; total_rows := 3;
           progress_percentage := 66 |};
        {| progress_table := "T"; rows_processed := 3; total_rows := 3;
           progress_percentage := 100 |} ].
Proof.
  eexists. split; [vm_compute; reflexivity |]. vm_compute. reflexivity.
Qed.

(** ** A [close()] that raises

    [OracleConnector.disconnect] calls [self.connection.close()] with no
    guard, and the [finally] block disconnects the source first: when that
    [close()] raises, the exception leaves the [finally] block, and with it
    the run, before the target is disconnected. *)

Section FailingClose.
Context {W : Type} (C : Connectors W).
Variable migration_id : string.
Variable request : MigrationRequest.

(** Both connectors hold their connection and no [close()] has been
    called. *)
Definition both_open (s : State W) : Prop :=
  oracle s = Some {| connection := true |} /\
  postgres s = Some {| connection := true |} /\
  closes_of (events s) = [].

Lemma migration_work_keeps_both_open fuel (s : State W) r s' :
  both_open s ->
  migration_work C migration_id request fuel s = Some (r, s') ->
  both_open s'.
Proof.
  intros Hs Hrun.
  assert (Hk : wlp (migration_work C migration_id request fuel)
                 (fun _ s0 => both_open s0) (fun _ s0 => both_open s0) s).
  { apply (keeps_migration_work C both_open (fun _ => both_open)
             (fun e => close_of_event e = []));
      try solve [intros; assumption];
      try solve [intros; reflexivity].
    - intros e s0 He [Ho [Hp Hc]]. split; [exact Ho |]. split; [exact Hp |].
      unfold closes_of. rewrite (proj_add_event close_of_event e s0), He.
      rewrite app_nil_r. exact Hc.
    - intros msg s0 [Ho [Hp Hc]]. split; [exact Ho |]. split; [exact Hp |].
      unfold closes_of.
      rewrite (proj_add_event close_of_event (EvFault msg) s0).
      rewrite app_nil_r. exact Hc. }
  specialize (Hk r s' Hrun). destruct r; exact Hk.
Qed.

(** The [finally] block when the source's [close()] raises. *)
Lemma cleanup_source_close_raises (s : State W) msg w' :
  oracle s = Some {| connection := true |} ->
  oracle_close C (world s) = (Raise msg, w') ->
  cleanup C s
  = Some (Raise msg,
          add_event (EvFault msg)
            (set_world w' (add_event (EvClose OracleSide) s))).
Proof.
  intros Ho Hc. unfold cleanup, bind. rewrite Ho.
  unfold disconnect, bind, emit, call, close_connection. simpl.
  rewrite Hc. reflexivity.
Qed.

End FailingClose.

(** C4, as stated, fails in the code.  For a job record with details and
    connectors whose two connections are made, when the [close()] of the
    source raises, every run that returns ends with that exception: the
    [close()] of the source is the only one called, both connectors still
    hold their connection, and the exception is not written to the record,
    which says completed when nothing else failed, and else failed with the
    message of the earlier exception. *)
Theorem failing_source_close_leaks_the_target {W} (C : Connectors W)
    (migration_id : string) (request : MigrationRequest) (fuel : nat)
    (w : W) (store : PyDict Migration) (m0 : Migration) (d0 : Details)
    (w1 w2 w3 : W) (r : Result unit) (s' : State W) :
  dict_lookup migration_id store = Some m0 ->
  details m0 = Some d0 ->
  import_engines C w = (Ok tt, w1) ->
  oracle_driver_connect C w1 = (Ok tt, w2) ->
  postgres_driver_connect C w2 = (Ok tt, w3) ->
  (forall w0, exists msg w0', oracle_close C w0 = (Raise msg, w0')) ->
  run_oracle_to_postgres_migration C migration_id request fuel
    (initial_state w store) = Some (r, s') ->
  exists msg m d,
    r = Raise msg /\
    oracle s' = Some {| connection := true |} /\
    postgres s' = Some {| connection := true |} /\
    closes_of (events s') = [OracleSide] /\
    dict_lookup migration_id (migrations s') = Some m /\
    details m = Some d /\
    ((status m = "completed" /\
      faults_of (events s') = [msg] /\
      details_error d = details_error d0) \/
     (exists msg0,
        status m = "failed" /\
        faults_of (events s') = [msg0; msg] /\
        details_error d = Some msg0)).
Proof.
  intros Hm0 Hd0 Himp Hora Hpg Hclose Hrun.
  rewrite (run_from_started C migration_id request fuel w store m0 d0 Hm0 Hd0)
    in Hrun.
  set (sB := started migration_id w store m0 d0) in Hrun.
  assert (HjB : job_details migration_id (migrations sB)
                = Some (with_current_phase schema_analysis d0)).
  { unfold job_details. simpl. rewrite dict_lookup_set_same. reflexivity. }
  assert (HnfB : no_fault migration_id sB).
  { split; [| reflexivity].
    eexists _, _. split; [apply dict_lookup_set_same | reflexivity]. }
  set (s5 := set_postgres (Some {| connection := true |})
               (set_world w3
                  (set_postgres (Some {| connection := false |})
                     (set_oracle (Some {| connection := true |})
                        (set_world w2
                           (set_oracle (Some {| connection := false |})
                              (set_world w1 sB))))))).
  assert (Hsplit : migration_body C migration_id request fuel sB
                   = migration_work C migration_id request fuel s5).
  { unfold migration_body.
    assert (H1 : call (import_engines C) sB = Some (Ok tt, set_world w1 sB)).
    { unfold call. change (world sB) with w. rewrite Himp. reflexivity. }
    rewrite (bind_ok_eq _ _ _ _ _ H1).
    rewrite (bind_ok_eq _ _ _ _ _
               (eq_refl : modify (set_oracle (Some {| connection := false |}))
                            (set_world w1 sB) = Some (Ok tt, _))).
    assert (H3 : oracle_connect C
                   (set_oracle (Some {| connection := false |})
                      (set_world w1 sB))
                 = Some (Ok tt,
                         set_oracle (Some {| connection := true |})
                           (set_world w2
                              (set_oracle (Some {| connection := false |})
                                 (set_world w1 sB))))).
    { unfold oracle_connect, bind, call, modify. simpl. rewrite Hora.
      reflexivity. }
    rewrite (bind_ok_eq _ _ _ _ _ H3).
    rewrite (bind_ok_eq _ _ _ _ _
               (eq_refl : modify (set_postgres
                                    (Some {| connection := false |}))
                            _ = Some (Ok tt, _))).
    assert (H5 : postgres_connect C
                   (set_postgres (Some {| connection := false |})
                      (set_oracle (Some {| connection := true |})
                         (set_world w2
                            (set_oracle (Some {| connection := false |})
                               (set_world w1 sB)))))
                 = Some (Ok tt, s5)).
    { unfold postgres_connect, bind, call, modify. simpl. rewrite Hpg.
      reflexivity. }
    rewrite (bind_ok_eq _ _ _ _ _ H5). reflexivity. }
  assert (Hopen5 : both_open s5) by (repeat split).
  unfold try_except_finally in Hrun.
  destruct (migration_body C migration_id request fuel sB)
    as [[[u | msg0] s6] |] eqn:Hbody; [| | discriminate].
  - pose proof (eq_sym Hsplit) as Hwork.
    destruct (migration_work_keeps_both_open C migration_id request fuel
                s5 _ s6 Hopen5 Hwork) as [Ho6 [Hp6 Hc6]].
    pose proof (migration_body_faults C migration_id request fuel sB HnfB
                  _ _ Hbody) as [_ Hf6]. simpl in Hf6.
    destruct (migration_body_completes C migration_id request fuel sB u s6
                _ HjB Hbody)
      as [names [pages [lines [d [_ [Hget [_ [He _]]]]]]]].
    destruct (Hclose (world s6)) as [msg [w' Hc]].
    rewrite (cleanup_source_close_raises C s6 msg w' Ho6 Hc) in Hrun.
    inversion Hrun; subst r s'. clear Hrun.
    unfold get_migration in Hget. simpl.
    destruct (dict_lookup migration_id (migrations s6)) as [m |] eqn:Hm6;
      [| discriminate].
    injection Hget as Hst Hdet.
    exists msg, m, (with_duration (calculate_duration migration_id)
                      (with_migration_log lines
                         (with_current_phase completed d))).
    split; [reflexivity |]. split; [exact Ho6 |]. split; [exact Hp6 |].
    split.
    { unfold closes_of in *. rewrite !flat_map_app, Hc6. reflexivity. }
    split; [reflexivity |]. split; [exact Hdet |].
    left. split; [exact Hst |]. split.
    + unfold faults_of in *. rewrite !flat_map_app, Hf6. reflexivity.
    + exact He.
  - pose proof (eq_sym Hsplit) as Hwork.
    destruct (migration_work_keeps_both_open C migration_id request fuel
                s5 _ s6 Hopen5 Hwork) as [Ho6 [Hp6 Hc6]].
    pose proof (migration_body_faults C migration_id request fuel sB HnfB
                  _ _ Hbody) as [Hj6 Hf6]. simpl in Hf6.
    destruct (on_exception_records migration_id msg0 s6 Hj6)
      as [s7 [m7 [d7 [Hh [Hm7 [Hst7 [Hd7 [He7 [_ [Hev7 [Ho7 Hp7]]]]]]]]]]].
    rewrite Hh in Hrun.
    destruct (Hclose (world s7)) as [msg [w' Hc]].
    assert (Ho7' : oracle s7 = Some {| connection := true |})
      by (rewrite Ho7; exact Ho6).
    rewrite (cleanup_source_close_raises C s7 msg w' Ho7' Hc) in Hrun.
    inversion Hrun; subst r s'. clear Hrun.
    exists msg, m7, d7.
    split; [reflexivity |]. split; [exact Ho7' |].
    split; [simpl; rewrite Hp7; exact Hp6 |].
    split.
    { unfold closes_of in *. simpl. rewrite !flat_map_app, Hev7.
      rewrite flat_map_app, Hc6. reflexivity. }
    split; [exact Hm7 |]. split; [exact Hd7 |].
    right. exists msg0. split; [exact Hst7 |]. split; [| exact He7].
    unfold faults_of in *. simpl. rewrite !flat_map_app, Hev7.
    rewrite flat_map_app, Hf6. reflexivity.
Qed.

(** Connectors over the three-row table whose source cannot be closed. *)
Definition failing_close_connectors : Connectors unit :=
  {| import_engines := import_engines (quiet_connectors (ids_table 3)
                                         ids_schema);
     oracle_driver_connect :=
       oracle_driver_connect (quiet_connectors (ids_table 3) ids_schema);
     postgres_driver_connect :=
       postgres_driver_connect (quiet_connectors (ids_table 3) ids_schema);
     oracle_get_tables :=
       oracle_get_tables (quiet_connectors (ids_table 3) ids_schema);
     oracle_get_schema :=
       oracle_get_schema (quiet_connectors (ids_table 3) ids_schema);
     postgres_create_table_from_schema :=
       postgres_create_table_from_schema
         (quiet_connectors (ids_table 3) ids_schema);
     oracle_row_count :=
       oracle_row_count (quiet_connectors (ids_table 3) ids_schema);
     oracle_fetch_data :=
       oracle_fetch_data (quiet_connectors (ids_table 3) ids_schema);
     postgres_insert_data :=
       postgres_insert_data (quiet_connectors (ids_table 3) ids_schema);
     oracle_close := fun w => (Raise "DPI-1010: not connected", w);
     postgres_close :=
       postgres_close (quiet_connectors (ids_table 3) ids_schema) |}.

(** Three rows are moved and the job is completed; then the source cannot
    be closed. *)
Lemma failing_source_close_leaks_the_target_witness :
  exists r s',
    run_oracle_to_postgres_migration failing_close_connectors "migration-1"
      (request_with_batch_size 2) 3 (initial_state tt job_store)
    = Some (r, s') /\
    exists msg m d,
      r = Raise msg /\
      oracle s' = Some {| connection := true |} /\
      postgres s' = Some {| connection := true |} /\
      closes_of (events s') = [OracleSide] /\
      dict_lookup "migration-1" (migrations s') = Some m /\
      details m = Some d /\
      ((status m = "completed" /\
        faults_of (events s') = [msg] /\
        details_error d = details_error empty_details) \/
       (exists msg0,
          status m = "failed" /\
          faults_of (events s') = [msg0; msg] /\
          details_error d = Some msg0)).
Proof.
  eexists _, _. split; [vm_compute; reflexivity |].
  apply (failing_source_close_leaks_the_target failing_close_connectors
           "migration-1" (request_with_batch_size 2) 3 tt job_store
           {| status := "pending"; details := Some empty_details |}
           empty_details tt tt tt _ _ eq_refl eq_refl eq_refl eq_refl
           eq_refl).
  - intros w0. eexists _, _. reflexivity.
  - vm_compute. reflexivity.
Defined.

(** The run of the witness: the record says completed, and the run ends
    with the exception of the [close()]. *)
Example completed_job_ends_with_the_close_exception :
  exists s',
    run_oracle_to_postgres_migration failing_close_connectors "migration-1"
      (request_with_batch_size 2) 3 (initial_state tt job_store)
    = Some (Raise "DPI-1010: not connected", s') /\
    option_map status (dict_lookup "migration-1" (migrations s'))
    = Some "completed" /\
    closes_of (events s') = [OracleSide] /\
    postgres s' = Some {| connection := true |}.
Proof.
  eexists. split; [vm_compute; reflexivity |]. repeat split.
Qed.
